(** * AgentDash frontend: live connection, activity feed and Kanban reorder

    A shallow embedding of the decision logic of the React client:
    - [App.jsx]: the WebSocket connection manager ([connectWebSocket] and
      its [onopen] / [onmessage] / [onclose] / [onerror] handlers, the
      unmount cleanup);
    - [ActivityLog.jsx]: the [wsData] effect that feeds the activity list
      and [formatTime];
    - the [KanbanBoard] component (second part of [OpenSawConfig.jsx]):
      [handleDragEnd], [updateTaskStatus], [fetchTasks].

    React state cells are modelled by explicit state passing, promises by
    their settled outcome (resolved or rejected), and a [try]/[catch] block
    by a small exception monad. *)

From Stdlib Require Import ZArith String Ascii List Lia.
From Stdlib Require Import DecimalString.
From stdpp Require Import base option list strings gmap.

#[local] Set Warnings "-register-all".

(** ** JavaScript numbers printed in base ten

    [`${n}`] on an integer-valued number below 1e21 prints its decimal
    digits, with a leading minus sign for negative values. *)

Definition decimal (n : Z) : string := NilZero.string_of_int (Z.to_int n).

(** ** Array primitives *)

Module JsArray.
Section Array.
Context {A : Type}.

(** [array.find(p)]: the first element satisfying [p], or [undefined]
    ([None]). *)
Definition find (p : A → bool) (array : list A) : option A :=
  snd <$> list_find (λ x, p x = true) array.

(** [array.findIndex(p)]: the index of that element, or [-1]. *)
Definition findIndex (p : A → bool) (array : list A) : Z :=
  match list_find (λ x, p x = true) array with
  | Some (i, _) => Z.of_nat i
  | None => (-1)%Z
  end.

(** The clamping [Array.prototype.splice] applies to its [start]
    argument: counted from the end when negative, and never outside
    [0 .. length]. *)
Definition relativeStart (len start : Z) : Z :=
  if (start <? 0)%Z then Z.max (len + start) 0 else Z.min start len.

(** [array.splice(start, 1)]: the removed element (if [start] addresses
    one) and the array that is left. *)
Definition splice_remove1 (array : list A) (start : Z) : option A * list A :=
  let i := Z.to_nat (relativeStart (Z.of_nat (length array)) start) in
  (array !! i, delete i array).

(** [array.splice(start, 0, x)]: [x] inserted in front of position
    [start]. *)
Definition splice_insert (array : list A) (start : Z) (x : A) : list A :=
  let i := Z.to_nat (relativeStart (Z.of_nat (length array)) start) in
  take i array ++ x :: drop i array.

(** [[x, ...prev].slice(0, n)] for [n >= 0]. *)
Definition slice0 (n : nat) (array : list A) : list A := take n array.
End Array.
End JsArray.

(** Modelled from the spec: [arrayMove] is imported from the package
    [@dnd-kit/sortable], whose code is not part of the repository.  The
    spec describes it as a move-to-index, "remove then reinsert"; the
    package implements it as

      newArray = array.slice();
      newArray.splice(to < 0 ? newArray.length + to : to, 0,
                      newArray.splice(from, 1)[0]);

    The insertion index is computed before the removal takes place
    (arguments are evaluated left to right).  When [from] addresses no
    element the package inserts [undefined]; a list of tasks cannot hold
    that, so the model answers [None] there. *)
Definition arrayMove {A : Type} (array : list A) (from to : Z) : option (list A) :=
  let newArray := array in
  let target := if (to <? 0)%Z then (Z.of_nat (length newArray) + to)%Z else to in
  let '(removed, newArray) := JsArray.splice_remove1 newArray from in
  match removed with
  | Some x => Some (JsArray.splice_insert newArray target x)
  | None => None
  end.

(** ** Completions and values

    An evaluation either completes normally with a value or abruptly with
    a thrown error. *)

Inductive Completion (A : Type) :=
| Normal (a : A)
| Abrupt (err : string).
Arguments Normal {A} a.
Arguments Abrupt {A} err.

#[global] Instance Completion_ret : MRet Completion := λ A a, Normal a.
#[global] Instance Completion_bind : MBind Completion := λ A B k m,
  match m with
  | Normal a => k a
  | Abrupt e => Abrupt e
  end.

Module Js.
(** The values a decoded channel message is made of.  Numbers are kept
    to the integers (every id and clock reading of the client is one). *)
Inductive Value :=
| Undefined
| Null
| Bool (b : bool)
| Num (n : Z)
| Str (s : string)
| Arr (items : list Value)
| Obj (fields : gmap string Value).

(** [ToBoolean]: what [if (v)], [!v], [v && _] and [v || _] look at. *)
Definition truthy (v : Value) : bool :=
  match v with
  | Undefined | Null => false
  | Bool b => b
  | Num n => negb (n =? 0)%Z
  | Str s => negb (String.eqb s "")
  | Arr _ | Obj _ => true
  end.

(** [v.key] for the keys the client reads ([type], [data], [message],
    [agent_name]): a [TypeError] on [undefined] and [null], the own
    property of an object, [undefined] on anything else. *)
Definition get (v : Value) (key : string) : Completion Value :=
  match v with
  | Undefined => Abrupt "TypeError: Cannot read properties of undefined"
  | Null => Abrupt "TypeError: Cannot read properties of null"
  | Obj fields => Normal (default Undefined (fields !! key))
  | _ => Normal Undefined
  end.

(** [a || b] with [b] a constant. *)
Definition or_else (a b : Value) : Value := if truthy a then a else b.

(** [v === 'literal']. *)
Definition is_string (v : Value) (literal : string) : bool :=
  match v with
  | Str s => bool_decide (s = literal)
  | _ => false
  end.

(** An object literal, fields in source order. *)
Definition object (fields : list (string * Value)) : Value :=
  Obj (list_to_map fields).
End Js.

(** ** The Kanban board *)

Module Task.
(** A task as the list endpoint returns it.  [status], [priority] and
    [task_type] are plain strings in the client; nothing there restricts
    them to the enumerated values. *)
Record t := mk {
  id : Z;
  title : string;
  description : string;
  status : string;
  priority : string;
  task_type : string;
  is_recurring : Z;
  created_at : string
}.
End Task.

Module Kanban.

(** Requests the board issues. *)
Inductive Request :=
| GetTasks                                  (* fetch('/api/tasks') *)
| PutTask (taskId : Z) (body : list (string * string)).
    (* fetch(`/api/tasks/${taskId}`, { method: 'PUT', body: JSON.stringify(body) }) *)

(** What a resolved [fetch] gives back: the HTTP verdict and, when the
    body is JSON, the decoded task list ([None]: [response.json()]
    rejects). *)
Record Response := { ok : bool; json : option (list Task.t) }.

(** The network, seen from the client: a request either resolves with a
    response or rejects ([None]). *)
Definition Network := Request → option Response.

Inductive Effect :=
| Fetch (rq : Request)
| ConsoleError (msg : string).

(** The [tasks] state cell and what the component did so far.  The cell
    holds [None] once an update has stored an array with an [undefined]
    slot. *)
Record World := { tasks_state : option (list Task.t); trace : list Effect }.

Definition emit (e : Effect) (w : World) : World :=
  {| tasks_state := tasks_state w; trace := trace w ++ [e] |}.

(** *** Exceptions: [try] / [catch], awaited promises *)

Definition M (A : Type) : Type := World → Completion A * World.

Definition ret {A} (a : A) : M A := λ w, (Normal a, w).

Definition bind {A B} (m : M A) (k : A → M B) : M B :=
  λ w, match m w with
       | (Normal a, w') => k a w'
       | (Abrupt e, w') => (Abrupt e, w')
       end.

Definition try_catch {A} (body : M A) (handler : string → M A) : M A :=
  λ w, match body w with
       | (Normal a, w') => (Normal a, w')
       | (Abrupt e, w') => handler e w'
       end.

Notation "x <- m ;; k" := (bind m (λ x, k))
  (at level 100, m at next level, right associativity).
Notation "m ;;; k" := (bind m (λ _, k))
  (at level 100, right associativity).

(** [await fetch(...)]. *)
Definition fetch (net : Network) (rq : Request) : M Response :=
  λ w, match net rq with
       | Some r => (Normal r, emit (Fetch rq) w)
       | None => (Abrupt "TypeError: Failed to fetch", emit (Fetch rq) w)
       end.

(** [await response.json()]. *)
Definition response_json (r : Response) : M (list Task.t) :=
  λ w, match json r with
       | Some data => (Normal data, w)
       | None => (Abrupt "SyntaxError: Unexpected token", w)
       end.

(** [setTasks(updater)]. *)
Definition setTasks (updater : list Task.t → option (list Task.t)) : M unit :=
  λ w, (Normal tt, {| tasks_state := tasks_state w ≫= updater; trace := trace w |}).

Definition console_error (msg : string) : M unit :=
  λ w, (Normal tt, emit (ConsoleError msg) w).

(** *** The component's functions *)

Definition fetchTasks (net : Network) : M unit :=
  try_catch
    (response <- fetch net GetTasks ;;
     data <- response_json response ;;
     setTasks (λ _, Some data))
    (λ _, console_error "Failed to fetch tasks:").

Definition updateTaskStatus (net : Network) (taskId : Z) (newStatus : string) : M unit :=
  try_catch
    (fetch net (PutTask taskId [("status", newStatus)]) ;;;
     fetchTasks net)
    (λ _, console_error "Failed to update task:").

(** The event @dnd-kit hands to [onDragEnd]; [active] and [over] are
    represented by their [id], [over = None] stands for [null]. *)
Record DragEndEvent := { active : Z; over : option Z }.

Definition has_id (i : Z) (t : Task.t) : bool := bool_decide (Task.id t = i).

(** The updater passed to [setTasks] in the same-column branch. *)
Definition moveUpdater (activeId overId : Z) (items : list Task.t) : option (list Task.t) :=
  let oldIndex := JsArray.findIndex (has_id activeId) items in
  let newIndex := JsArray.findIndex (has_id overId) items in
  arrayMove items oldIndex newIndex.

(** [tasks] is the list the handler closes over (the rendered state). *)
Definition handleDragEnd (net : Network) (tasks : list Task.t) (event : DragEndEvent) : M unit :=
  match over event with
  | None => ret tt
  | Some overId =>
      let activeTask := JsArray.find (has_id (active event)) tasks in
      let overTask := JsArray.find (has_id overId) tasks in
      match activeTask, overTask with
      | Some activeTask, Some overTask =>
          if bool_decide (Task.status activeTask = Task.status overTask) then
            setTasks (moveUpdater (active event) overId)
          else
            let newStatus := Task.status overTask in
            updateTaskStatus net (active event) newStatus
      | _, _ => ret tt
      end
  end.

(** Running the handler on the rendered board. *)
Definition rendered (tasks : list Task.t) : World :=
  {| tasks_state := Some tasks; trace := [] |}.

Definition drag (net : Network) (tasks : list Task.t) (event : DragEndEvent)
  : Completion unit * World :=
  handleDragEnd net tasks event (rendered tasks).

End Kanban.

(** ** The activity feed ([ActivityLog.jsx]) *)

Module Activity.

(** The two clock readings the effect takes for a synthesized entry. *)
Record Clock := {
  Date_now : Z;                 (* Date.now(), milliseconds *)
  now_toISOString : string      (* new Date().toISOString() *)
}.

(** [wsData && wsData.type === literal]: the property is only read when
    [wsData] is truthy. *)
Definition has_type (wsData : Js.Value) (literal : string) : Completion bool :=
  if Js.truthy wsData then
    ty ← Js.get wsData "type"; mret (Js.is_string ty literal)
  else mret false.

(** The entry built for an [ingest_received] message. *)
Definition newActivity (clock : Clock) (wsData : Js.Value) : Completion Js.Value :=
  data ← Js.get wsData "data";
  type ← Js.get data "type";
  message ← Js.get data "message";
  agent_name ← Js.get data "agent_name";
  mret (Js.object [
    ("id", Js.Num (Date_now clock));
    ("type", Js.or_else type (Js.Str "info"));
    ("message", Js.or_else message (Js.Str "Data ingested from agent"));
    ("agent_name", Js.or_else agent_name (Js.Str "Unknown"));
    ("created_at", Js.Str (now_toISOString clock))
  ]).

(** The effect that runs for every new [wsData]: the next value of the
    [activities] state cell, given the previous one.  An abrupt
    completion is a [TypeError] escaping the effect. *)
Definition wsDataEffect (clock : Clock) (wsData : Js.Value) (prev : list Js.Value)
  : Completion (list Js.Value) :=
  created ← has_type wsData "activity_created";
  if (created : bool) then
    data ← Js.get wsData "data";
    mret (JsArray.slice0 20 (data :: prev))
  else
    ingest ← has_type wsData "ingest_received";
    if (ingest : bool) then
      entry ← newActivity clock wsData;
      mret (JsArray.slice0 20 (entry :: prev))
    else mret prev.

(** *** How messages reach the effect

    [App] keeps the last decoded message in one state cell, [wsData], and
    hands it to the feed as a prop.  The effect has [wsData] as its only
    dependency: it runs after a render in which [wsData] is not the value
    it was at the render before, by [Object.is].  A message that is
    replaced in the cell before React renders never reaches the effect. *)

(** A value in the cell, with the message it was decoded from: two
    objects are the same only when they come from one message. *)
Record Cell := { origin : nat; value : Js.Value }.

Definition Object_is (a b : Cell) : bool :=
  match value a, value b with
  | Js.Undefined, Js.Undefined => true
  | Js.Null, Js.Null => true
  | Js.Bool x, Js.Bool y => Bool.eqb x y
  | Js.Num x, Js.Num y => (x =? y)%Z
  | Js.Str x, Js.Str y => String.eqb x y
  | Js.Arr _, Js.Arr _ => (origin a =? origin b)%nat
  | Js.Obj _, Js.Obj _ => (origin a =? origin b)%nat
  | _, _ => false
  end.

Record Page := {
  cell : Cell;                     (* App's [wsData] *)
  seen : Cell;                     (* the [wsData] of the last render *)
  received : nat;                  (* messages decoded so far *)
  activities : list Js.Value       (* useState([]) *)
}.

(** The feed after its first render, which runs the effect on [null],
    with the list it holds then. *)
Definition mounted (activities : list Js.Value) : Page :=
  {| cell := {| origin := 0; value := Js.Null |};
     seen := {| origin := 0; value := Js.Null |};
     received := 0; activities := activities |}.

Inductive Event :=
| Message (data : Js.Value)   (* [setWsData(data)] in App's [onmessage] *)
| Render (clock : Clock).     (* React renders; [clock] is read if the effect runs *)

(** An error escaping the effect takes the page down. *)
Definition step (ev : Event) (page : Page) : Completion Page :=
  match ev with
  | Message data =>
      mret {| cell := {| origin := S (received page); value := data |};
              seen := seen page; received := S (received page);
              activities := activities page |}
  | Render clock =>
      if Object_is (cell page) (seen page) then mret page
      else
        next ← wsDataEffect clock (value (cell page)) (activities page);
        mret {| cell := cell page; seen := cell page; received := received page;
                activities := next |}
  end.

Fixpoint run (events : list Event) (page : Page) : Completion Page :=
  match events with
  | [] => mret page
  | ev :: rest => next ← step ev page; run rest next
  end.


(** *** Relative time *)

(** JavaScript numbers as far as [formatTime] needs them: an integer
    number of milliseconds, or [NaN]. *)
Definition Number := option Z.

Definition num_lt (x : Number) (k : Z) : bool :=
  match x with
  | Some v => (v <? k)%Z
  | None => false
  end.

Definition num_floor_div (x : Number) (k : Z) : Number := (λ v, (v / k)%Z) <$> x.

Definition num_to_string (x : Number) : string :=
  match x with
  | Some v => decimal v
  | None => "NaN"
  end.

(** The host's [Date]: the time value [new Date(v)] holds ([None] for an
    invalid date) and the locale's rendering of a valid one. *)
Record Dates := {
  Date_of : Js.Value → Number;
  toLocaleDateString : Z → string
}.

Definition formatTime (D : Dates) (now : Z) (dateString : Js.Value) : string :=
  if negb (Js.truthy dateString) then "" else
  let date := Date_of D dateString in
  let diffMs : Number := (λ d, (now - d)%Z) <$> date in
  let diffMins := num_floor_div diffMs 60000 in
  let diffHours := num_floor_div diffMs 3600000 in
  if num_lt diffMins 1 then "Just now"
  else if num_lt diffMins 60 then num_to_string diffMins ++ "m ago"
  else if num_lt diffHours 24 then num_to_string diffHours ++ "h ago"
  else match date with
       | Some d => toLocaleDateString D d
       | None => "Invalid Date"
       end.

End Activity.

(** ** The live connection manager ([App.jsx]) *)

Module App.

(** [WebSocket.readyState]. *)
Inductive ReadyState := CONNECTING | OPEN | CLOSING | CLOSED.

(** The functions handed to [setTimeout]; there is one. *)
Inductive Callback := ConnectWebSocket.

(** A pending [setTimeout(callback, delay)], due at [due] on the clock. *)
Record Timer := { callback : Callback; delay : Z; due : Z }.

Inductive LogEntry :=
| ConsoleLog (msg : string)
| ConsoleError (msg : string).

(** What the browser decides: the outcome of [JSON.parse] ([None]: it
    throws a [SyntaxError]) and whether the n-th [new WebSocket(wsUrl)]
    throws. *)
Record Host := {
  JSON_parse : string → option Js.Value;
  WebSocket_throws : nat → bool
}.

Record State := {
  isConnected : bool;             (* useState(false) *)
  wsData : Js.Value;              (* useState(null) *)
  wsRef : option nat;             (* useRef(null): a socket of [sockets] *)
  sockets : list ReadyState;      (* every socket constructed so far *)
  attempts : nat;                 (* calls of [new WebSocket] so far *)
  timers : list Timer;            (* pending timeouts, oldest first *)
  clock : Z;                      (* milliseconds *)
  console : list LogEntry;
  mounted : bool
}.

Definition initial : State :=
  {| isConnected := false; wsData := Js.Null; wsRef := None; sockets := [];
     attempts := 0; timers := []; clock := 0; console := []; mounted := false |}.

(** *** State cells and host calls *)

Definition setIsConnected (b : bool) (st : State) : State :=
  {| isConnected := b; wsData := wsData st; wsRef := wsRef st;
     sockets := sockets st; attempts := attempts st; timers := timers st;
     clock := clock st; console := console st; mounted := mounted st |}.

Definition setWsData (data : Js.Value) (st : State) : State :=
  {| isConnected := isConnected st; wsData := data; wsRef := wsRef st;
     sockets := sockets st; attempts := attempts st; timers := timers st;
     clock := clock st; console := console st; mounted := mounted st |}.

Definition report (entry : LogEntry) (st : State) : State :=
  {| isConnected := isConnected st; wsData := wsData st; wsRef := wsRef st;
     sockets := sockets st; attempts := attempts st; timers := timers st;
     clock := clock st; console := console st ++ [entry]; mounted := mounted st |}.

Definition setTimeout (cb : Callback) (ms : Z) (st : State) : State :=
  {| isConnected := isConnected st; wsData := wsData st; wsRef := wsRef st;
     sockets := sockets st; attempts := attempts st;
     timers := timers st ++ [{| callback := cb; delay := ms; due := (clock st + ms)%Z |}];
     clock := clock st; console := console st; mounted := mounted st |}.

Definition with_sockets (ss : list ReadyState) (st : State) : State :=
  {| isConnected := isConnected st; wsData := wsData st; wsRef := wsRef st;
     sockets := ss; attempts := attempts st; timers := timers st;
     clock := clock st; console := console st; mounted := mounted st |}.

Definition with_mounted (b : bool) (st : State) : State :=
  {| isConnected := isConnected st; wsData := wsData st; wsRef := wsRef st;
     sockets := sockets st; attempts := attempts st; timers := timers st;
     clock := clock st; console := console st; mounted := b |}.

Definition with_timers (ts : list Timer) (now : Z) (st : State) : State :=
  {| isConnected := isConnected st; wsData := wsData st; wsRef := wsRef st;
     sockets := sockets st; attempts := attempts st; timers := ts;
     clock := now; console := console st; mounted := mounted st |}.

(** [wsRef.current = new WebSocket(wsUrl)], the constructor returning. *)
Definition newWebSocket (st : State) : State :=
  {| isConnected := isConnected st; wsData := wsData st;
     wsRef := Some (length (sockets st));
     sockets := sockets st ++ [CONNECTING]; attempts := S (attempts st);
     timers := timers st; clock := clock st; console := console st;
     mounted := mounted st |}.

(** The constructor throwing: nothing is assigned. *)
Definition newWebSocket_failed (st : State) : State :=
  {| isConnected := isConnected st; wsData := wsData st; wsRef := wsRef st;
     sockets := sockets st; attempts := S (attempts st); timers := timers st;
     clock := clock st; console := console st; mounted := mounted st |}.

(** [socket.close()]: a socket that is connecting or open starts
    closing. *)
Definition close (s : nat) (st : State) : State :=
  match sockets st !! s with
  | Some CONNECTING | Some OPEN => with_sockets (<[s := CLOSING]> (sockets st)) st
  | _ => st
  end.

(** *** The handlers *)

Definition onopen (st : State) : State :=
  setIsConnected true (report (ConsoleLog "WebSocket connected") st).

Definition onmessage (H : Host) (event_data : string) (st : State) : State :=
  match JSON_parse H event_data with
  | Some data => setWsData data st
  | None => report (ConsoleError "Failed to parse WebSocket message:") st
  end.

Definition onclose (st : State) : State :=
  setTimeout ConnectWebSocket 3000
    (setIsConnected false (report (ConsoleLog "WebSocket disconnected") st)).

(** The timeout [onclose] sets when the clock reads [now]. *)
Definition retry_timer (now : Z) : Timer :=
  {| callback := ConnectWebSocket; delay := 3000; due := (now + 3000)%Z |}.

Definition onerror (st : State) : State :=
  report (ConsoleError "WebSocket error:") st.

(** [connectWebSocket]: the four handlers above are installed on every
    socket the constructor returns. *)
Definition connectWebSocket (H : Host) (st : State) : State :=
  if WebSocket_throws H (attempts st) then
    report (ConsoleError "Failed to connect WebSocket:") (newWebSocket_failed st)
  else newWebSocket st.

(** The cleanup the mount effect returns. *)
Definition cleanup (st : State) : State :=
  match wsRef st with
  | Some s => close s st
  | None => st
  end.

Definition call (H : Host) (cb : Callback) (st : State) : State :=
  match cb with
  | ConnectWebSocket => connectWebSocket H st
  end.

(** *** The event loop *)

Inductive Event :=
| Mount
| Unmount
| SocketOpen (s : nat)
| SocketMessage (s : nat) (data : string)
| SocketError (s : nat)
| SocketClose (s : nat)
| Elapse (ms : N).

Definition is_due (now : Z) (t : Timer) : bool := (due t <=? now)%Z.

(** Time passing: the timers that have come due run, oldest first. *)
Definition elapse (H : Host) (ms : N) (st : State) : State :=
  let now := (clock st + Z.of_N ms)%Z in
  let ready := filter (λ t, is_due now t = true) (timers st) in
  let waiting := filter (λ t, is_due now t = false) (timers st) in
  foldl (λ acc t, call H (callback t) acc) (with_timers waiting now st) ready.

(** The browser dispatches an event to a socket's handler only in the
    ready states that allow it; every other event is dropped. *)
Definition step (H : Host) (st : State) (ev : Event) : State :=
  match ev with
  | Mount => connectWebSocket H (with_mounted true st)
  | Unmount => with_mounted false (cleanup st)
  | SocketOpen s =>
      match sockets st !! s with
      | Some CONNECTING => onopen (with_sockets (<[s := OPEN]> (sockets st)) st)
      | _ => st
      end
  | SocketMessage s data =>
      match sockets st !! s with
      | Some OPEN => onmessage H data st
      | _ => st
      end
  | SocketError s =>
      match sockets st !! s with
      | Some CONNECTING | Some OPEN | Some CLOSING => onerror st
      | _ => st
      end
  | SocketClose s =>
      match sockets st !! s with
      | Some CONNECTING | Some OPEN | Some CLOSING =>
          onclose (with_sockets (<[s := CLOSED]> (sockets st)) st)
      | _ => st
      end
  | Elapse ms => elapse H ms st
  end.

Definition run (H : Host) (st : State) (events : list Event) : State :=
  foldl (step H) st events.

(** One failed attempt: the current socket closes, then three seconds
    pass. *)
Definition failed_attempt (s : nat) : list Event := [SocketClose s; Elapse 3000].

(** [n] failed attempts in a row, the first on socket [s]; each later
    one is on the socket the previous retry constructed. *)
Fixpoint failed_attempts (n : nat) (s : nat) (next : nat) : list Event :=
  match n with
  | O => []
  | S n' => failed_attempt s ++ failed_attempts n' next (S next)
  end.

End App.

(** ** A sample host

    The handlers are stated over every host.  The examples need one to run
    on: a decoder for a fragment of JSON (no [\u] escapes, integers as the
    only numbers) and a [Date] for the [en-US] locale in the UTC zone that
    reads the format [toISOString] writes.  Outside these fragments the
    sample host signals an error where a browser may not. *)

Module Sample.

Definition is_digit (c : ascii) : bool :=
  let n := nat_of_ascii c in (48 <=? n)%nat && (n <=? 57)%nat.

Definition digit_value (c : ascii) : Z := Z.of_nat (nat_of_ascii c - 48).

Definition is_space (c : ascii) : bool :=
  let n := nat_of_ascii c in
  (n =? 32)%nat || (n =? 9)%nat || (n =? 10)%nat || (n =? 13)%nat.

Fixpoint skip_ws (cs : list ascii) : list ascii :=
  match cs with
  | c :: rest => if is_space c then skip_ws rest else cs
  | [] => []
  end.

(** Digits read most significant first. *)
Fixpoint digits (acc : Z) (cs : list ascii) : Z * list ascii :=
  match cs with
  | c :: rest => if is_digit c then digits (10 * acc + digit_value c)%Z rest else (acc, cs)
  | [] => (acc, [])
  end.

(** [int]: [0] or a digit sequence without a leading zero; a fraction or
    an exponent behind it is outside the fragment. *)
Definition natural (cs : list ascii) : option (Z * list ascii) :=
  match cs with
  | c :: rest =>
      if negb (is_digit c) then None
      else
        let '(n, rest') := if (nat_of_ascii c =? 48)%nat then (0%Z, rest) else digits 0 cs in
        match rest' with
        | d :: _ =>
            if is_digit d || (nat_of_ascii d =? 46)%nat
               || (nat_of_ascii d =? 101)%nat || (nat_of_ascii d =? 69)%nat
            then None else Some (n, rest')
        | [] => Some (n, rest')
        end
  | [] => None
  end.

Definition escape (c : ascii) : option ascii :=
  let n := nat_of_ascii c in
  if (n =? 34)%nat then Some c              (* quote *)
  else if (n =? 92)%nat then Some c         (* backslash *)
  else if (n =? 47)%nat then Some c         (* slash *)
  else if (n =? 98)%nat then Some (ascii_of_nat 8)
  else if (n =? 102)%nat then Some (ascii_of_nat 12)
  else if (n =? 110)%nat then Some (ascii_of_nat 10)
  else if (n =? 114)%nat then Some (ascii_of_nat 13)
  else if (n =? 116)%nat then Some (ascii_of_nat 9)
  else None.

(** The characters of a string literal after its opening quote. *)
Fixpoint string_body (cs : list ascii) : option (string * list ascii) :=
  match cs with
  | [] => None
  | c :: rest =>
      let n := nat_of_ascii c in
      if (n =? 34)%nat then Some (EmptyString, rest)
      else if (n <? 32)%nat then None
      else if (n =? 92)%nat then
        match rest with
        | e :: rest' =>
            match escape e, string_body rest' with
            | Some x, Some (s, tail) => Some (String x s, tail)
            | _, _ => None
            end
        | [] => None
        end
      else
        match string_body rest with
        | Some (s, tail) => Some (String c s, tail)
        | None => None
        end
  end.

Definition keyword (word : string) (cs : list ascii) : option (list ascii) :=
  let w := list_ascii_of_string word in
  if bool_decide (take (length w) cs = w) then Some (drop (length w) cs) else None.

Fixpoint value (fuel : nat) (cs : list ascii) : option (Js.Value * list ascii) :=
  match fuel with
  | O => None
  | S fuel =>
      match skip_ws cs with
      | [] => None
      | c :: rest =>
          let n := nat_of_ascii c in
          if (n =? 110)%nat then tail ← keyword "null" (c :: rest); Some (Js.Null, tail)
          else if (n =? 116)%nat then tail ← keyword "true" (c :: rest); Some (Js.Bool true, tail)
          else if (n =? 102)%nat then tail ← keyword "false" (c :: rest); Some (Js.Bool false, tail)
          else if (n =? 34)%nat then '(s, tail) ← string_body rest; Some (Js.Str s, tail)
          else if (n =? 45)%nat then '(k, tail) ← natural rest; Some (Js.Num (- k), tail)
          else if is_digit c then '(k, tail) ← natural (c :: rest); Some (Js.Num k, tail)
          else if (n =? 91)%nat then
            match skip_ws rest with
            | d :: tail =>
                if (nat_of_ascii d =? 93)%nat then Some (Js.Arr [], tail)
                else '(items, tail') ← elements fuel rest; Some (Js.Arr items, tail')
            | [] => None
            end
          else if (n =? 123)%nat then
            match skip_ws rest with
            | d :: tail =>
                if (nat_of_ascii d =? 125)%nat then Some (Js.Obj ∅, tail)
                else '(fields, tail') ← members fuel rest ∅; Some (Js.Obj fields, tail')
            | [] => None
            end
          else None
      end
  end
with elements (fuel : nat) (cs : list ascii) : option (list Js.Value * list ascii) :=
  match fuel with
  | O => None
  | S fuel =>
      '(v, tail) ← value fuel cs;
      match skip_ws tail with
      | d :: tail' =>
          if (nat_of_ascii d =? 93)%nat then Some ([v], tail')
          else if (nat_of_ascii d =? 44)%nat then
            '(vs, tail'') ← elements fuel tail'; Some (v :: vs, tail'')
          else None
      | [] => None
      end
  end
with members (fuel : nat) (cs : list ascii) (acc : gmap string Js.Value)
  : option (gmap string Js.Value * list ascii) :=
  match fuel with
  | O => None
  | S fuel =>
      match skip_ws cs with
      | q :: rest =>
          if negb (nat_of_ascii q =? 34)%nat then None
          else
            '(key, tail) ← string_body rest;
            match skip_ws tail with
            | colon :: tail' =>
                if negb (nat_of_ascii colon =? 58)%nat then None
                else
                  '(v, tail'') ← value fuel tail';
                  let acc' := <[key := v]> acc in   (* a repeated key: the last one wins *)
                  match skip_ws tail'' with
                  | d :: tail3 =>
                      if (nat_of_ascii d =? 125)%nat then Some (acc', tail3)
                      else if (nat_of_ascii d =? 44)%nat then members fuel tail3 acc'
                      else None
                  | [] => None
                  end
            | [] => None
            end
      | [] => None
      end
  end.

(** The whole text must be one value, up to surrounding white space. *)
Definition JSON_parse (text : string) : option Js.Value :=
  let cs := list_ascii_of_string text in
  '(v, tail) ← value (2 * length cs + 2) cs;
  match skip_ws tail with
  | [] => Some v
  | _ => None
  end.

Definition host : App.Host :=
  {| App.JSON_parse := JSON_parse; App.WebSocket_throws := λ _, false |}.

(** *** Dates *)

(** Days between 1970-01-01 and the given day of the proleptic Gregorian
    calendar. *)
Definition days_from_civil (y m d : Z) : Z :=
  let y' := if (m <=? 2)%Z then (y - 1)%Z else y in
  let era := (y' / 400)%Z in
  let yoe := (y' - era * 400)%Z in
  let mp := if (m >? 2)%Z then (m - 3)%Z else (m + 9)%Z in
  let doy := ((153 * mp + 2) / 5 + d - 1)%Z in
  let doe := (yoe * 365 + yoe / 4 - yoe / 100 + doy)%Z in
  (era * 146097 + doe - 719468)%Z.

(** The inverse: year, month and day of a day number. *)
Definition civil_from_days (days : Z) : Z * Z * Z :=
  let z := (days + 719468)%Z in
  let era := (z / 146097)%Z in
  let doe := (z - era * 146097)%Z in
  let yoe := ((doe - doe / 1460 + doe / 36524 - doe / 146096) / 365)%Z in
  let doy := (doe - (365 * yoe + yoe / 4 - yoe / 100))%Z in
  let mp := ((5 * doy + 2) / 153)%Z in
  let d := (doy - (153 * mp + 2) / 5 + 1)%Z in
  let m := if (mp <? 10)%Z then (mp + 3)%Z else (mp - 9)%Z in
  let y := (yoe + era * 400)%Z in
  (if (m <=? 2)%Z then (y + 1)%Z else y, m, d).

(** A fixed-width field of decimal digits. *)
Definition field (s : string) (start len : nat) : option Z :=
  let cs := list_ascii_of_string (substring start len s) in
  if bool_decide (length cs = len) && forallb is_digit cs
  then Some (fst (digits 0 cs)) else None.

Definition in_range (lo hi v : Z) : option Z :=
  if (lo <=? v)%Z && (v <=? hi)%Z then Some v else None.

(** [YYYY-MM-DDTHH:mm:ss.sssZ]. *)
Definition parse_iso (s : string) : option Z :=
  if negb (bool_decide (String.length s = 24%nat)) then None
  else if negb (String.eqb (substring 4 1 s) "-" && String.eqb (substring 7 1 s) "-"
                && String.eqb (substring 10 1 s) "T" && String.eqb (substring 13 1 s) ":"
                && String.eqb (substring 16 1 s) ":" && String.eqb (substring 19 1 s) "."
                && String.eqb (substring 23 1 s) "Z") then None
  else
    y ← field s 0 4;
    mo ← field s 5 2 ≫= in_range 1 12;
    d ← field s 8 2 ≫= in_range 1 31;
    h ← field s 11 2 ≫= in_range 0 23;
    mi ← field s 14 2 ≫= in_range 0 59;
    sec ← field s 17 2 ≫= in_range 0 59;
    ms ← field s 20 3;
    Some ((((days_from_civil y mo d * 24 + h) * 60 + mi) * 60 + sec) * 1000 + ms)%Z.

(** [new Date(v)] on a number is that time value; on a string, the
    parsed one. *)
Definition Date_of (v : Js.Value) : Activity.Number :=
  match v with
  | Js.Num n => Some n
  | Js.Str s => parse_iso s
  | _ => None
  end.

(** [M/D/YYYY]. *)
Definition toLocaleDateString (t : Z) : string :=
  let '(y, m, d) := civil_from_days (t / 86400000) in
  decimal m ++ "/" ++ decimal d ++ "/" ++ decimal y.

Definition dates : Activity.Dates :=
  {| Activity.Date_of := Date_of; Activity.toLocaleDateString := toLocaleDateString |}.

End Sample.

(** ** Scenarios

    The board of the specification's example, [A] (permanent), [B] and [C]
    (backlog), and three networks to run it against. *)

Module Scenario.

Definition task (id : Z) (title status : string) : Task.t :=
  Task.mk id title "" status "medium" "custom" 0 "2025-01-01T00:00:00.000Z".

Definition A := task 1 "A" "permanent".
Definition B := task 2 "B" "backlog".
Definition C := task 3 "C" "backlog".

Definition board : list Task.t := [A; B; C].

(** [C] dropped on [B]; [A] dropped on [C]; [B] dropped on itself; a
    drop outside every target; a drop of a card the list does not hold. *)
Definition drag_C_on_B : Kanban.DragEndEvent := {| Kanban.active := 3; Kanban.over := Some 2%Z |}.
Definition drag_A_on_C : Kanban.DragEndEvent := {| Kanban.active := 1; Kanban.over := Some 3%Z |}.
Definition drag_B_on_B : Kanban.DragEndEvent := {| Kanban.active := 2; Kanban.over := Some 2%Z |}.
Definition drag_nowhere : Kanban.DragEndEvent := {| Kanban.active := 1; Kanban.over := None |}.
Definition drag_unknown : Kanban.DragEndEvent := {| Kanban.active := 9; Kanban.over := Some 2%Z |}.

(** A backend that applies the update and lists the tasks. *)
Definition net_up : Kanban.Network :=
  λ rq, match rq with
        | Kanban.GetTasks =>
            Some {| Kanban.ok := true; Kanban.json := Some [task 1 "A" "backlog"; B; C] |}
        | Kanban.PutTask _ _ => Some {| Kanban.ok := true; Kanban.json := None |}
        end.

(** A backend that answers the update with an error status. *)
Definition net_refusing : Kanban.Network :=
  λ rq, match rq with
        | Kanban.GetTasks => Some {| Kanban.ok := true; Kanban.json := Some board |}
        | Kanban.PutTask _ _ => Some {| Kanban.ok := false; Kanban.json := None |}
        end.

(** No backend: every request rejects. *)
Definition net_down : Kanban.Network := λ _, None.

(** Clock readings, and two channel messages. *)
Definition clock : Activity.Clock :=
  {| Activity.Date_now := 1735689600000;
     Activity.now_toISOString := "2025-01-01T00:00:00.000Z" |}.

Definition ingest_empty : Js.Value :=
  Js.object [("type", Js.Str "ingest_received"); ("data", Js.object [])].

Definition ingest_without_data : Js.Value :=
  Js.object [("type", Js.Str "ingest_received")].

Definition activity_created (n : Z) : Js.Value :=
  Js.object [("type", Js.Str "activity_created");
             ("data", Js.object [("id", Js.Num n); ("message", Js.Str "done")])].

(** A feed that is full, entries numbered from the newest, and two
    messages arriving on it. *)
Definition feed_full : list Js.Value :=
  (λ n, Js.object [("id", Js.Num (Z.of_nat n)); ("message", Js.Str "earlier")]) <$> seq 1 20.

Definition messages : list (Activity.Clock * Js.Value) :=
  [(clock, activity_created 21); (clock, ingest_empty)].

(** The text of a message, [{"type": "ingest_received", "data": {}}], and
    a text that is not JSON. *)
Definition quote : string := String (ascii_of_nat 34) EmptyString.

Definition ingest_text : string :=
  "{" +:+ quote +:+ "type" +:+ quote +:+ ": " +:+ quote +:+ "ingest_received" +:+ quote
  +:+ ", " +:+ quote +:+ "data" +:+ quote +:+ ": {}}".

Definition malformed_text : string := "{oops".

(** A connection manager with one open socket. *)
Definition connected : App.State :=
  App.run Sample.host App.initial [App.Mount; App.SocketOpen 0].

End Scenario.

(** ** Requests from the other components

    The components below follow one pattern: a request is awaited inside
    a [try] block, its decoded body is stored in a state cell, and the
    [catch] block logs.  The monad is the one of the board, over any
    request type and any record of state cells. *)

Module Http.

Inductive Effect (Rq : Type) :=
| Fetch (rq : Rq)
| ConsoleError (msg : string).
Arguments Fetch {Rq} rq.
Arguments ConsoleError {Rq} msg.

(** A resolved [fetch]: the HTTP verdict and, when the body decodes, its
    value ([None]: [response.json()] rejects). *)
Record Response (D : Type) := { ok : bool; json : option D }.
Arguments ok {D} r.
Arguments json {D} r.

Record World (Rq S : Type) := { cells : S; trace : list (Effect Rq) }.
Arguments cells {Rq S} w.
Arguments trace {Rq S} w.

Section Monad.
Context {Rq S : Type}.

Definition M (A : Type) : Type := World Rq S → Completion A * World Rq S.

Definition ret {A} (a : A) : M A := λ w, (Normal a, w).

Definition bind {A B} (m : M A) (k : A → M B) : M B :=
  λ w, match m w with
       | (Normal a, w') => k a w'
       | (Abrupt e, w') => (Abrupt e, w')
       end.

Definition try_catch {A} (body : M A) (handler : string → M A) : M A :=
  λ w, match body w with
       | (Normal a, w') => (Normal a, w')
       | (Abrupt e, w') => handler e w'
       end.

(** [try { body } finally { finalizer }]: the finalizer runs either way,
    and the body's completion stands unless the finalizer throws. *)
Definition try_finally {A} (body : M A) (finalizer : M unit) : M A :=
  λ w, match body w with
       | (completion, w') =>
           match finalizer w' with
           | (Normal _, w'') => (completion, w'')
           | (Abrupt e, w'') => (Abrupt e, w'')
           end
       end.

Definition emit (e : Effect Rq) (w : World Rq S) : World Rq S :=
  {| cells := cells w; trace := trace w ++ [e] |}.

(** [await fetch(...)], the request settling as [outcome] says ([None]:
    it rejects). *)
Definition fetch {D} (rq : Rq) (outcome : option (Response D)) : M (Response D) :=
  λ w, match outcome with
       | Some r => (Normal r, emit (Fetch rq) w)
       | None => (Abrupt "TypeError: Failed to fetch", emit (Fetch rq) w)
       end.

(** The two halves of a [fetch] for a caller that does not wait: sending
    the request, and the promise settling later. *)
Definition request (rq : Rq) : M unit :=
  λ w, (Normal tt, emit (Fetch rq) w).

Definition settle {D} (outcome : option (Response D)) : M (Response D) :=
  λ w, match outcome with
       | Some r => (Normal r, w)
       | None => (Abrupt "TypeError: Failed to fetch", w)
       end.

(** [await response.json()]. *)
Definition response_json {D} (r : Response D) : M D :=
  λ w, match json r with
       | Some data => (Normal data, w)
       | None => (Abrupt "SyntaxError: Unexpected token", w)
       end.

(** A state setter. *)
Definition modify (f : S → S) : M unit :=
  λ w, (Normal tt, {| cells := f (cells w); trace := trace w |}).

Definition console_error (msg : string) : M unit :=
  λ w, (Normal tt, emit (ConsoleError msg) w).

End Monad.

Notation "x <- m ;; k" := (bind m (λ x, k))
  (at level 100, m at next level, right associativity).
Notation "m ;;; k" := (bind m (λ _, k))
  (at level 100, right associativity).

End Http.

(** ** The rest of the Kanban board *)

Module Board.

(** The effect on [wsData]: a task event asks for the whole list again. *)
Definition wsDataEffect (net : Kanban.Network) (wsData : Js.Value) : Kanban.M unit :=
  if Js.truthy wsData then
    match Js.get wsData "type" with
    | Normal type =>
        if Js.is_string type "task_created" || Js.is_string type "task_updated"
           || Js.is_string type "task_deleted"
        then Kanban.fetchTasks net
        else Kanban.ret tt
    | Abrupt e => λ w, (Abrupt e, w)
    end
  else Kanban.ret tt.

(** [tasks.filter(t => t.status === status)]. *)
Definition column (status : string) (tasks : list Task.t) : list Task.t :=
  filter (λ t, Task.status t = status) tasks.

Definition permanentTasks := column "permanent".
Definition backlogTasks := column "backlog".
Definition inProgressTasks := column "in_progress".
Definition completedTasks := column "completed".

(** The columns on screen, left to right, each with the ids its
    [SortableContext] is given; the last one only when it holds a task. *)
Definition columns (tasks : list Task.t) : list (string * list Task.t) :=
  [("Permanent", permanentTasks tasks);
   ("Backlog", backlogTasks tasks);
   ("In Progress", inProgressTasks tasks)]
  ++ (if (0 <? length (completedTasks tasks))%nat
      then [("Completed", completedTasks tasks)] else []).

(** A status one of the four filters accepts. *)
Definition shown (t : Task.t) : Prop :=
  Task.status t = "permanent" ∨ Task.status t = "backlog"
  ∨ Task.status t = "in_progress" ∨ Task.status t = "completed".

#[global] Instance shown_dec t : Decision (shown t) :=
  ltac:(unfold shown; apply _).

(** *** Sample tasks *)

(** A task as the client posts it: the server assigns [id] and
    [created_at]. *)
Record NewTask := {
  title : string;
  description : string;
  status : string;
  priority : string;
  task_type : string;
  is_recurring : Z
}.

Definition sampleTasks : list NewTask :=
  [ {| title := "Daily health check";
       description := "Monitor system health and performance metrics";
       status := "permanent"; priority := "medium";
       task_type := "health_check"; is_recurring := 1 |};
    {| title := "Weekly backup verification";
       description := "Verify all backups completed successfully";
       status := "permanent"; priority := "medium";
       task_type := "backup"; is_recurring := 7 |};
    {| title := "API integration testing";
       description := "Test new endpoints for agent data ingestion";
       status := "backlog"; priority := "high";
       task_type := "custom"; is_recurring := 0 |};
    {| title := "Update dashboard UI";
       description := "Implement new design for metrics cards";
       status := "in_progress"; priority := "high";
       task_type := "custom"; is_recurring := 0 |} ].

(** The board's requests, with the one [createSampleTasks] adds. *)
Inductive Request :=
| Tasks (rq : Kanban.Request)
| PostTask (task : NewTask).
    (* fetch('/api/tasks', { method: 'POST', body: JSON.stringify(task) }) *)

(** The backend seen by [createSampleTasks]: the board's network and the
    outcome of each post. *)
Record Backend := {
  tasks_api : Kanban.Network;
  post_task : NewTask → option (Http.Response unit)
}.

Definition embed (e : Kanban.Effect) : Http.Effect Request :=
  match e with
  | Kanban.Fetch rq => Http.Fetch (Tasks rq)
  | Kanban.ConsoleError msg => Http.ConsoleError msg
  end.

(** A function of the board run from here: it works on the same [tasks]
    cell and its effects follow the ones so far. *)
Definition call {A} (m : Kanban.M A) : Http.M (Rq := Request) (S := option (list Task.t)) A :=
  λ w, match m {| Kanban.tasks_state := Http.cells w; Kanban.trace := [] |} with
       | (completion, w') =>
           (completion,
            {| Http.cells := Kanban.tasks_state w';
               Http.trace := Http.trace w ++ (embed <$> Kanban.trace w') |})
       end.

(** [for (const task of tasks) { await fetch(...POST task...) }]. *)
Fixpoint post_each (api : Backend) (tasks : list NewTask)
  : Http.M (Rq := Request) (S := option (list Task.t)) unit :=
  match tasks with
  | [] => Http.ret tt
  | task :: rest =>
      Http.bind (Http.fetch (PostTask task) (post_task api task)) (λ _, post_each api rest)
  end.

Definition createSampleTasks (api : Backend)
  : Http.M (Rq := Request) (S := option (list Task.t)) unit :=
  Http.bind (post_each api sampleTasks) (λ _, call (Kanban.fetchTasks (tasks_api api))).

End Board.

(** ** The rest of the activity feed *)

Module Feed.

Inductive Request :=
| GetActivities.     (* fetch('/api/activities?limit=20') *)

(** The body, where it decodes, is taken to be an array, as the effect
    on [wsData] and the list body take the cell to hold one. *)
Definition fetchActivities (outcome : option (Http.Response (list Js.Value)))
  : Http.M (Rq := Request) (S := list Js.Value) unit :=
  Http.try_catch
    (Http.bind (Http.fetch GetActivities outcome) (λ response,
     Http.bind (Http.response_json response) (λ data,
     Http.modify (λ _, data))))
    (λ _, Http.console_error "Failed to fetch activities:").

(** The icons of [lucide-react] the feed uses. *)
Inductive Icon := CheckCircle | XCircle | AlertCircle | Info.

(** [getIcon]: a [switch], so the cases compare with [===]. *)
Definition getIcon (type : Js.Value) : Icon :=
  if Js.is_string type "success" then CheckCircle
  else if Js.is_string type "error" then XCircle
  else if Js.is_string type "warning" then AlertCircle
  else Info.

(** [activity.agent_name && <span>...</span>]: the badge for a truthy
    name, and otherwise the falsy value itself, of which React prints
    nothing unless it is the number 0. *)
Inductive Slot :=
| Badge (agent_name : Js.Value)
| Bare (value : Js.Value).

(** One row of the list, as the callback of [activities.map] builds it:
    the key, the icon, the message, the agent badge and the relative
    time. *)
Record Row := {
  key : Js.Value;
  icon : Icon;
  message : Js.Value;
  badge : Slot;
  time : string
}.

(** The values go into the row as they are; what React makes of them is
    not part of this. *)
Definition row (D : Activity.Dates) (now : Z) (activity : Js.Value) : Completion Row :=
  id ← Js.get activity "id";
  type ← Js.get activity "type";
  message ← Js.get activity "message";
  agent_name ← Js.get activity "agent_name";
  created_at ← Js.get activity "created_at";
  mret {| key := id; icon := getIcon type; message := message;
          badge := if Js.truthy agent_name then Badge agent_name else Bare agent_name;
          time := Activity.formatTime D now created_at |}.

(** The list body: every row, or the first error. *)
Definition rows (D : Activity.Dates) (now : Z) (activities : list Js.Value)
  : Completion (list Row) :=
  foldr (λ activity rest,
           match row D now activity, rest with
           | Normal r, Normal rs => Normal (r :: rs)
           | Abrupt e, _ => Abrupt e
           | Normal _, Abrupt e => Abrupt e
           end)
        (Normal []) activities.

End Feed.

(** ** The deliverables list (third part of [OpenSawConfig.jsx]) *)

Module Deliverables.

Inductive Request :=
| GetDeliverables.   (* fetch('/api/deliverables') *)

Definition fetchDeliverables (outcome : option (Http.Response (list Js.Value)))
  : Http.M (Rq := Request) (S := list Js.Value) unit :=
  Http.try_catch
    (Http.bind (Http.fetch GetDeliverables outcome) (λ response,
     Http.bind (Http.response_json response) (λ data,
     Http.modify (λ _, data))))
    (λ _, Http.console_error "Failed to fetch deliverables:").

End Deliverables.

(** ** The OpenSaw panel (first part of [OpenSawConfig.jsx]) *)

Module OpenSaw.

Record Config := {
  enabled : bool;
  endpoint_ip : string;
  webhook_token : string;
  auto_create_tasks : bool
}.

Record Status := { connected : bool; last_ping : option string }.

Record State := {
  config : Config;
  status : Status;
  isEditing : bool;
  isSaving : bool;
  showToken : bool
}.

Definition initial : State :=
  {| config := {| enabled := false; endpoint_ip := ""; webhook_token := "";
                  auto_create_tasks := true |};
     status := {| connected := false; last_ping := None |};
     isEditing := false; isSaving := false; showToken := false |}.

Inductive Request :=
| GetConfig                     (* fetch('http://localhost:8000/api/opensaw/config') *)
| GetStatus                     (* fetch('http://localhost:8000/api/opensaw/status') *)
| PostConfig (body : Config).   (* the same URL as GetConfig, method 'POST' *)

Record Backend := {
  get_config : option (Http.Response Config);
  get_status : option (Http.Response Status);
  post_config : Config → option (Http.Response unit)
}.

(** *** State setters *)

Definition setConfig (c : Config) (st : State) : State :=
  {| config := c; status := status st; isEditing := isEditing st;
     isSaving := isSaving st; showToken := showToken st |}.

Definition setStatus (s : Status) (st : State) : State :=
  {| config := config st; status := s; isEditing := isEditing st;
     isSaving := isSaving st; showToken := showToken st |}.

Definition setIsEditing (b : bool) (st : State) : State :=
  {| config := config st; status := status st; isEditing := b;
     isSaving := isSaving st; showToken := showToken st |}.

Definition setIsSaving (b : bool) (st : State) : State :=
  {| config := config st; status := status st; isEditing := isEditing st;
     isSaving := b; showToken := showToken st |}.

Definition setShowToken (b : bool) (st : State) : State :=
  {| config := config st; status := status st; isEditing := isEditing st;
     isSaving := isSaving st; showToken := b |}.

(** *** Requests *)

Definition fetchConfig (api : Backend) : Http.M (Rq := Request) (S := State) unit :=
  Http.try_catch
    (Http.bind (Http.fetch GetConfig (get_config api)) (λ response,
     Http.bind (Http.response_json response) (λ data,
     Http.modify (setConfig data))))
    (λ _, Http.console_error "Failed to fetch OpenSaw config:").

Definition fetchStatus (api : Backend) : Http.M (Rq := Request) (S := State) unit :=
  Http.try_catch
    (Http.bind (Http.fetch GetStatus (get_status api)) (λ response,
     Http.bind (Http.response_json response) (λ data,
     Http.modify (setStatus data))))
    (λ _, Http.console_error "Failed to fetch OpenSaw status:").

(** Where these two are called without [await], the caller goes on as
    soon as the request is sent, and what follows the call's first
    [await] runs after the caller is done. *)
Definition fetchConfig_sent : Http.M (Rq := Request) (S := State) unit :=
  Http.request GetConfig.

Definition fetchConfig_rest (api : Backend) : Http.M (Rq := Request) (S := State) unit :=
  Http.try_catch
    (Http.bind (Http.settle (get_config api)) (λ response,
     Http.bind (Http.response_json response) (λ data,
     Http.modify (setConfig data))))
    (λ _, Http.console_error "Failed to fetch OpenSaw config:").

Definition fetchStatus_sent : Http.M (Rq := Request) (S := State) unit :=
  Http.request GetStatus.

Definition fetchStatus_rest (api : Backend) : Http.M (Rq := Request) (S := State) unit :=
  Http.try_catch
    (Http.bind (Http.settle (get_status api)) (λ response,
     Http.bind (Http.response_json response) (λ data,
     Http.modify (setStatus data))))
    (λ _, Http.console_error "Failed to fetch OpenSaw status:").

(** [config] is the value the handler closes over (the rendered one).
    [fetchStatus()] is not awaited: its request is sent inside the [try],
    the [finally] block runs, and only then is the status answer handled;
    [status_pending] says whether that is owed. *)
Definition saveConfig (api : Backend) (config : Config)
  : Http.M (Rq := Request) (S := State) unit :=
  Http.bind
    (Http.bind (Http.modify (setIsSaving true)) (λ _,
     Http.try_finally
       (Http.try_catch
          (Http.bind (Http.fetch (PostConfig config) (post_config api config)) (λ response,
           if Http.ok response then
             Http.bind (Http.modify (setIsEditing false)) (λ _,
             Http.bind fetchStatus_sent (λ _, Http.ret true))
           else Http.ret false))
          (λ _, Http.bind (Http.console_error "Failed to save config:") (λ _,
                Http.ret false)))
       (Http.modify (setIsSaving false))))
    (λ status_pending, if status_pending then fetchStatus_rest api else Http.ret tt).

(** The mount effect: [fetchConfig(); fetchStatus();], neither awaited, so
    both requests are out before either answer is handled, and the answers
    are handled in the order they arrive ([config_first]).  The effect
    also repeats [fetchStatus] every thirty seconds. *)
Definition mount (api : Backend) (config_first : bool)
  : Http.M (Rq := Request) (S := State) unit :=
  Http.bind fetchConfig_sent (λ _,
  Http.bind fetchStatus_sent (λ _,
  if config_first
  then Http.bind (fetchConfig_rest api) (λ _, fetchStatus_rest api)
  else Http.bind (fetchStatus_rest api) (λ _, fetchConfig_rest api))).

(** *** The webhook address *)

Definition generateWebhookUrl (config : Config) : string :=
  if String.eqb (endpoint_ip config) "" then "Configure endpoint IP first"
  else "http://" +:+ endpoint_ip config +:+ ":8000/api/opensaw/webhook".

(** [config.enabled && config.endpoint_ip && (...)]: whether the view
    shows the address. *)
Definition shows_webhook (config : Config) : bool :=
  enabled config && negb (String.eqb (endpoint_ip config) "").

(** *** The form

    The clicks and keystrokes of the form, and the answers to the requests
    that are out.  [saveConfig] runs to its [await] at the click; what
    follows runs when the answer arrives, with any events in between.
    Events are not restricted to the controls that are on screen. *)

Inductive Event :=
| Configure                          (* "Configure Connection" *)
| CheckEnabled (checked : bool)
| TypeEndpoint (value : string)
| TypeToken (value : string)
| CheckAutoCreate (checked : bool)
| ToggleToken
| Cancel
| Save                               (* "Save Configuration" *)
| PostAnswered (outcome : option (Http.Response unit))
| StatusAnswered (outcome : option (Http.Response Status)).

Definition with_enabled (b : bool) (c : Config) : Config :=
  {| enabled := b; endpoint_ip := endpoint_ip c; webhook_token := webhook_token c;
     auto_create_tasks := auto_create_tasks c |}.

Definition with_endpoint_ip (v : string) (c : Config) : Config :=
  {| enabled := enabled c; endpoint_ip := v; webhook_token := webhook_token c;
     auto_create_tasks := auto_create_tasks c |}.

Definition with_webhook_token (v : string) (c : Config) : Config :=
  {| enabled := enabled c; endpoint_ip := endpoint_ip c; webhook_token := v;
     auto_create_tasks := auto_create_tasks c |}.

Definition with_auto_create_tasks (b : bool) (c : Config) : Config :=
  {| enabled := enabled c; endpoint_ip := endpoint_ip c; webhook_token := webhook_token c;
     auto_create_tasks := b |}.

(** The handlers that only set a cell; each [setConfig({ ...config, field })]
    spreads the rendered [config]. *)
Definition edit (ev : Event) (st : State) : State :=
  match ev with
  | Configure => setIsEditing true st
  | CheckEnabled checked => setConfig (with_enabled checked (config st)) st
  | TypeEndpoint value => setConfig (with_endpoint_ip value (config st)) st
  | TypeToken value => setConfig (with_webhook_token value (config st)) st
  | CheckAutoCreate checked => setConfig (with_auto_create_tasks checked (config st)) st
  | ToggleToken => setShowToken (negb (showToken st)) st
  | Cancel => setIsEditing false st
  | Save | PostAnswered _ | StatusAnswered _ => st
  end.

(** [saveConfig] up to its [await]. *)
Definition saveConfig_sent (config : Config) : Http.M (Rq := Request) (S := State) unit :=
  Http.bind (Http.modify (setIsSaving true)) (λ _, Http.request (PostConfig config)).

(** [saveConfig] from its [await] on, the post settling as [outcome]; the
    result says whether [fetchStatus()] was called. *)
Definition saveConfig_rest (outcome : option (Http.Response unit))
  : Http.M (Rq := Request) (S := State) bool :=
  Http.try_finally
    (Http.try_catch
       (Http.bind (Http.settle outcome) (λ response,
        if Http.ok response then
          Http.bind (Http.modify (setIsEditing false)) (λ _,
          Http.bind fetchStatus_sent (λ _, Http.ret true))
        else Http.ret false))
       (λ _, Http.bind (Http.console_error "Failed to save config:") (λ _,
             Http.ret false)))
    (Http.modify (setIsSaving false)).

(** [fetchStatus] from its [await] on. *)
Definition fetchStatus_answered (outcome : option (Http.Response Status))
  : Http.M (Rq := Request) (S := State) unit :=
  Http.try_catch
    (Http.bind (Http.settle outcome) (λ response,
     Http.bind (Http.response_json response) (λ data,
     Http.modify (setStatus data))))
    (λ _, Http.console_error "Failed to fetch OpenSaw status:").

(** The panel with its requests: the cells and the trace, and how many
    posts and status requests await their answer. *)
Record Panel := {
  world : Http.World Request State;
  posts_out : nat;
  status_out : nat
}.

Definition loaded (st : State) : Panel :=
  {| world := {| Http.cells := st; Http.trace := [] |}; posts_out := 0; status_out := 0 |}.

Definition on_cells (f : State → State) (p : Panel) : Panel :=
  {| world := {| Http.cells := f (Http.cells (world p)); Http.trace := Http.trace (world p) |};
     posts_out := posts_out p; status_out := status_out p |}.

(** An answer is handled only if its request is out; the Save button is
    [disabled={isSaving}]. *)
Definition step (ev : Event) (p : Panel) : Panel :=
  match ev with
  | Save =>
      if isSaving (Http.cells (world p)) then p
      else {| world := (saveConfig_sent (config (Http.cells (world p))) (world p)).2;
              posts_out := S (posts_out p); status_out := status_out p |}
  | PostAnswered outcome =>
      match posts_out p with
      | O => p
      | S n =>
          match saveConfig_rest outcome (world p) with
          | (Normal true, w) =>
              {| world := w; posts_out := n; status_out := S (status_out p) |}
          | (_, w) => {| world := w; posts_out := n; status_out := status_out p |}
          end
      end
  | StatusAnswered outcome =>
      match status_out p with
      | O => p
      | S n =>
          {| world := (fetchStatus_answered outcome (world p)).2;
             posts_out := posts_out p; status_out := n |}
      end
  | _ => on_cells (edit ev) p
  end.

Definition run (events : list Event) (p : Panel) : Panel :=
  foldl (λ acc ev, step ev acc) p events.



End OpenSaw.

(** ** The API key panel ([ApiConfig.jsx]) *)

Module ApiKey.

(** [apiKey] starts as [''] and then holds whatever [data.api_key] was. *)
Record State := {
  apiKey : Js.Value;
  copied : bool;
  loading : bool
}.

Definition initial : State :=
  {| apiKey := Js.Str ""; copied := false; loading := true |}.

Inductive Request :=
| GetKey             (* fetch('/api/key') *)
| RegenerateKey.     (* fetch('/api/key/regenerate', { method: 'POST' }) *)

Record Backend := {
  get_key : option (Http.Response Js.Value);
  regenerate_key : option (Http.Response Js.Value)
}.

Definition setApiKey (v : Js.Value) (st : State) : State :=
  {| apiKey := v; copied := copied st; loading := loading st |}.

Definition setCopied (b : bool) (st : State) : State :=
  {| apiKey := apiKey st; copied := b; loading := loading st |}.

Definition setLoading (b : bool) (st : State) : State :=
  {| apiKey := apiKey st; copied := copied st; loading := b |}.

(** [data.api_key], which throws on a body that is [null]. *)
Definition read_key (data : Js.Value) : Http.M (Rq := Request) (S := State) Js.Value :=
  λ w, (Js.get data "api_key", w).

Definition fetchApiKey (api : Backend) : Http.M (Rq := Request) (S := State) unit :=
  Http.try_finally
    (Http.try_catch
       (Http.bind (Http.fetch GetKey (get_key api)) (λ response,
        Http.bind (Http.response_json response) (λ data,
        Http.bind (read_key data) (λ key,
        Http.modify (setApiKey key)))))
       (λ _, Http.console_error "Failed to fetch API key:"))
    (Http.modify (setLoading false)).

Definition regenerateKey (api : Backend) : Http.M (Rq := Request) (S := State) unit :=
  Http.try_finally
    (Http.try_catch
       (Http.bind (Http.modify (setLoading true)) (λ _,
        Http.bind (Http.fetch RegenerateKey (regenerate_key api)) (λ response,
        Http.bind (Http.response_json response) (λ data,
        Http.bind (read_key data) (λ key,
        Http.modify (setApiKey key))))))
       (λ _, Http.console_error "Failed to regenerate key:"))
    (Http.modify (setLoading false)).

(** *** What is shown *)

(** The input's value: [loading ? 'Loading...' : apiKey]. *)
Definition shown_value (st : State) : Js.Value :=
  if loading st then Js.Str "Loading..." else apiKey st.

(** [apiKey.slice(0, 20)] on a value that came out of JSON: the first
    twenty characters of a string (ASCII keys: one byte per character),
    the first twenty items of an array, and a [TypeError] on everything
    else, which has no [slice]. *)
Definition header_preview (st : State) : Completion Js.Value :=
  match apiKey st with
  | Js.Str s => Normal (Js.Str (substring 0 20 s))
  | Js.Arr items => Normal (Js.Arr (take 20 items))
  | Js.Undefined => Abrupt "TypeError: Cannot read properties of undefined"
  | Js.Null => Abrupt "TypeError: Cannot read properties of null"
  | _ => Abrupt "TypeError: apiKey.slice is not a function"
  end.

(** *** Copying *)

(** The panel with what surrounds it: the pending timeouts (their due
    times), the clock and what was written to the clipboard. *)
Record Ui := {
  cells : State;
  timers : list Z;
  clock : Z;
  clipboard : list Js.Value
}.

(** [copyToClipboard]; [navigator.clipboard] is [undefined] outside a
    secure context, and reading [writeText] from it throws. *)
Definition copyToClipboard (clipboard_available : bool) (ui : Ui) : Completion Ui :=
  if clipboard_available then
    Normal {| cells := setCopied true (cells ui);
              timers := timers ui ++ [(clock ui + 2000)%Z];
              clock := clock ui;
              clipboard := clipboard ui ++ [apiKey (cells ui)] |}
  else Abrupt "TypeError: Cannot read properties of undefined".

(** Time passing: every timeout that has come due runs
    [setCopied(false)]. *)
Definition elapse (ms : N) (ui : Ui) : Ui :=
  let now := (clock ui + Z.of_N ms)%Z in
  let ready := filter (λ due, (due ≤ now)%Z) (timers ui) in
  let waiting := filter (λ due, ¬ (due ≤ now)%Z) (timers ui) in
  {| cells := foldl (λ st _, setCopied false st) (cells ui) ready;
     timers := waiting; clock := now; clipboard := clipboard ui |}.

End ApiKey.

(** ** The earlier App ([src/unnamed/part_000])

    This version keeps every list in [App] and patches the task list from
    the channel messages instead of fetching it again. *)

Module Legacy.

(** [a === b] on values out of JSON.  Two objects or arrays are equal
    only when they are one and the same object, which values decoded from
    different texts never are. *)
Definition strict_eq (a b : Js.Value) : bool :=
  match a, b with
  | Js.Undefined, Js.Undefined => true
  | Js.Null, Js.Null => true
  | Js.Bool x, Js.Bool y => Bool.eqb x y
  | Js.Num x, Js.Num y => (x =? y)%Z
  | Js.Str x, Js.Str y => String.eqb x y
  | _, _ => false
  end.

Record State := {
  metrics : Js.Value;
  tasks : list Js.Value;
  isConnected : bool;
  console : list string
}.

Definition setMetrics (v : Js.Value) (st : State) : State :=
  {| metrics := v; tasks := tasks st; isConnected := isConnected st; console := console st |}.

Definition setTasks (l : list Js.Value) (st : State) : State :=
  {| metrics := metrics st; tasks := l; isConnected := isConnected st; console := console st |}.

Definition setIsConnected (b : bool) (st : State) : State :=
  {| metrics := metrics st; tasks := tasks st; isConnected := b; console := console st |}.

Definition console_log (msg : string) (st : State) : State :=
  {| metrics := metrics st; tasks := tasks st; isConnected := isConnected st;
     console := console st ++ [msg] |}.

(** [t => t.id === message.data.id ? message.data : t]. *)
Definition replace_completed (message : Js.Value) (t : Js.Value) : Completion Js.Value :=
  id ← Js.get t "id";
  data ← Js.get message "data";
  completed_id ← Js.get data "id";
  if strict_eq id completed_id then Js.get message "data" else mret t.

(** [prev.map(f)], stopping at the first error. *)
Fixpoint map_completion (f : Js.Value → Completion Js.Value) (prev : list Js.Value)
  : Completion (list Js.Value) :=
  match prev with
  | [] => mret []
  | t :: rest => t' ← f t; rest' ← map_completion f rest; mret (t' :: rest')
  end.

Definition handleWebSocketMessage (message : Js.Value) (st : State) : Completion State :=
  type ← Js.get message "type";
  if Js.is_string type "metrics_update" then
    data ← Js.get message "data"; mret (setMetrics data st)
  else if Js.is_string type "task_created" || Js.is_string type "finding_discovered" then
    data ← Js.get message "data"; mret (setTasks (tasks st ++ [data]) st)
  else if Js.is_string type "task_completed" then
    tasks' ← map_completion (replace_completed message) (tasks st);
    mret (setTasks tasks' st)
  else mret st.

Definition onopen (st : State) : State :=
  console_log "Connected to AgentDash backend" (setIsConnected true st).

(** No [try] around [JSON.parse] here: a text that does not parse throws
    out of the handler. *)
Definition onmessage (JSON_parse : string → option Js.Value) (event_data : string)
    (st : State) : Completion State :=
  match JSON_parse event_data with
  | Some message => handleWebSocketMessage message st
  | None => Abrupt "SyntaxError: Unexpected token"
  end.

Definition onclose (st : State) : State :=
  console_log "Disconnected from backend" (setIsConnected false st).

(** The messages of a stream handled one after the other, up to the
    first error. *)
Fixpoint run (messages : list Js.Value) (st : State) : Completion State :=
  match messages with
  | [] => mret st
  | message :: rest => st' ← handleWebSocketMessage message st; run rest st'
  end.

(** A message of one of the two types that add a task. *)
Definition adds_task (message : Js.Value) : bool :=
  match Js.get message "type" with
  | Normal type => Js.is_string type "task_created" || Js.is_string type "finding_discovered"
  | Abrupt _ => false
  end.

End Legacy.

(** ** Counting connections *)

Module Connections.

#[global] Instance ReadyState_eq_dec : EqDecision App.ReadyState :=
  ltac:(solve_decision).

#[global] Instance Event_eq_dec : EqDecision App.Event :=
  ltac:(solve_decision).

(** The sockets that still have a close event to deliver. *)
Definition live (st : App.State) : nat :=
  length (filter (λ rs, rs ≠ App.CLOSED) (App.sockets st)).

(** How often the component was mounted in a run. *)
Definition mounts (events : list App.Event) : nat :=
  length (filter (λ ev, ev = App.Mount) events).

(** Nothing left that could lead to a connection attempt: every socket is
    closed and no timeout is pending. *)
Definition quiescent (st : App.State) : Prop :=
  Forall (λ rs, rs = App.CLOSED) (App.sockets st) ∧ App.timers st = [].

(** The connected flag has a socket behind it: one that is open, or
    closing. *)
Definition backed (st : App.State) : Prop :=
  App.isConnected st = true →
  ∃ s rs, App.sockets st !! s = Some rs ∧ (rs = App.OPEN ∨ rs = App.CLOSING).

End Connections.

(** ** More scenarios *)

Module Cases.

(** A task whose status no column filters for. *)
Definition archived : Task.t := Scenario.task 4 "D" "archived".

(** A backend on which the third sample post rejects. *)
Definition third_post_fails : Board.Backend :=
  {| Board.tasks_api := Scenario.net_up;
     Board.post_task := λ task,
       if String.eqb (Board.title task) "API integration testing" then None
       else Some {| Http.ok := true; Http.json := Some tt |} |}.

(** A backend that answers every post, some with an error status. *)
Definition posts_answered : Board.Backend :=
  {| Board.tasks_api := Scenario.net_up;
     Board.post_task := λ task,
       Some {| Http.ok := negb (String.eqb (Board.status task) "backlog");
               Http.json := Some tt |} |}.

Definition board_world : Http.World Board.Request (option (list Task.t)) :=
  {| Http.cells := Some Scenario.board; Http.trace := [] |}.

Definition task_event (type : string) : Js.Value :=
  Js.object [("type", Js.Str type); ("data", Js.object [("id", Js.Num 1)])].

(** An [activity_created] message that carries no entry. *)
Definition activity_without_data : Js.Value :=
  Js.object [("type", Js.Str "activity_created")].

(** An [ingest_received] message from an agent that names itself. *)
Definition ingest_named : Js.Value :=
  Js.object [("type", Js.Str "ingest_received");
             ("data", Js.object [("type", Js.Str "success");
                                 ("message", Js.Str "Task completed");
                                 ("agent_name", Js.Str "MyAgent")])].

(** An answer of the activities endpoint that ignores the limit. *)
Definition long_answer : Http.Response (list Js.Value) :=
  {| Http.ok := true; Http.json := Some (Scenario.feed_full ++ Scenario.feed_full) |}.

Definition empty_feed : Http.World Feed.Request (list Js.Value) :=
  {| Http.cells := []; Http.trace := [] |}.

(** A browser in which only the first [new WebSocket] returns. *)
Definition one_socket_host : App.Host :=
  {| App.JSON_parse := Sample.JSON_parse;
     App.WebSocket_throws := λ n, negb (n =? 0)%nat |}.

Definition connected_once : App.State :=
  App.run one_socket_host App.initial [App.Mount; App.SocketOpen 0].

(** The OpenSaw panel with an endpoint typed in, and backends that accept
    the configuration, refuse it, or are not there. *)
Definition edited : OpenSaw.State :=
  Http.cells
    (OpenSaw.world
       (OpenSaw.run [OpenSaw.Configure; OpenSaw.CheckEnabled true;
                     OpenSaw.TypeEndpoint "192.168.1.100"]
          (OpenSaw.loaded OpenSaw.initial))).

Definition panel (st : OpenSaw.State) : Http.World OpenSaw.Request OpenSaw.State :=
  {| Http.cells := st; Http.trace := [] |}.

Definition opensaw_up : OpenSaw.Backend :=
  {| OpenSaw.get_config := Some {| Http.ok := true; Http.json := Some (OpenSaw.config edited) |};
     OpenSaw.get_status :=
       Some {| Http.ok := true;
               Http.json := Some {| OpenSaw.connected := true;
                                    OpenSaw.last_ping := Some "2025-01-01T00:00:00.000Z" |} |};
     OpenSaw.post_config := λ _, Some {| Http.ok := true; Http.json := Some tt |} |}.

Definition opensaw_refusing : OpenSaw.Backend :=
  {| OpenSaw.get_config := OpenSaw.get_config opensaw_up;
     OpenSaw.get_status := OpenSaw.get_status opensaw_up;
     OpenSaw.post_config := λ _, Some {| Http.ok := false; Http.json := None |} |}.

(** The key endpoint answering with an error body. *)
Definition key_error : Http.Response Js.Value :=
  {| Http.ok := false;
     Http.json := Some (Js.object [("detail", Js.Str "Internal Server Error")]) |}.

Definition key_panel : Http.World ApiKey.Request ApiKey.State :=
  {| Http.cells := ApiKey.initial; Http.trace := [] |}.

Definition key_ui : ApiKey.Ui :=
  {| ApiKey.cells := {| ApiKey.apiKey := Js.Str "ad_live_0123456789abcdef0123456789";
                        ApiKey.copied := false; ApiKey.loading := false |};
     ApiKey.timers := []; ApiKey.clock := 0; ApiKey.clipboard := [] |}.

(** The earlier App with two tasks, and three messages for it. *)
Definition legacy_task (id : Z) (status : string) : Js.Value :=
  Js.object [("id", Js.Num id); ("status", Js.Str status)].

Definition legacy : Legacy.State :=
  {| Legacy.metrics := Js.Null;
     Legacy.tasks := [legacy_task 1 "backlog"; legacy_task 2 "in_progress"];
     Legacy.isConnected := true; Legacy.console := [] |}.

Definition legacy_message (type : string) (id : Z) (status : string) : Js.Value :=
  Js.object [("type", Js.Str type); ("data", legacy_task id status)].

Definition opensaw_down : OpenSaw.Backend :=
  {| OpenSaw.get_config := None; OpenSaw.get_status := None;
     OpenSaw.post_config := λ _, None |}.

End Cases.
(** * Proofs *)

(** ** Arrays *)

Section ArrayFacts.
Context {A : Type}.
Implicit Types (l : list A) (p : A → bool).

Lemma find_Some_index p l a :
  JsArray.find p l = Some a →
  ∃ i : nat, JsArray.findIndex p l = Z.of_nat i ∧ l !! i = Some a ∧ p a = true.
Proof.
  unfold JsArray.find, JsArray.findIndex.
  destruct (list_find _ l) as [[i x]|] eqn:Hfind; simpl; [|done].
  intros [= ->]. apply list_find_Some in Hfind as (Hi & Hp & _). eauto.
Qed.

Lemma find_None_no_match p l :
  JsArray.find p l = None → ∀ x, x ∈ l → p x = false.
Proof.
  unfold JsArray.find.
  destruct (list_find _ l) as [[i y]|] eqn:Hfind; simpl; [done|].
  intros _ x Hx. apply list_find_None in Hfind.
  rewrite Forall_forall in Hfind. specialize (Hfind x Hx).
  by destruct (p x).
Qed.

Lemma relativeStart_index (n i : nat) :
  i ≤ n → Z.to_nat (JsArray.relativeStart (Z.of_nat n) (Z.of_nat i)) = i.
Proof.
  intros Hi. unfold JsArray.relativeStart.
  destruct (Z.ltb_spec (Z.of_nat i) 0); lia.
Qed.

Lemma splice_remove1_index l (i : nat) a :
  l !! i = Some a → JsArray.splice_remove1 l (Z.of_nat i) = (Some a, delete i l).
Proof.
  intros Hi. unfold JsArray.splice_remove1.
  rewrite relativeStart_index by (apply lookup_lt_Some in Hi; lia).
  by rewrite Hi.
Qed.

Lemma splice_insert_index l (j : nat) x :
  j ≤ length l → JsArray.splice_insert l (Z.of_nat j) x = take j l ++ x :: drop j l.
Proof.
  intros Hj. unfold JsArray.splice_insert. by rewrite relativeStart_index.
Qed.

(** Within range, [arrayMove] removes the element at [from] and puts it
    back in front of what is then at position [to]. *)
Lemma arrayMove_in_range l (i j : nat) a :
  l !! i = Some a → j < length l →
  arrayMove l (Z.of_nat i) (Z.of_nat j)
  = Some (take j (delete i l) ++ a :: drop j (delete i l)).
Proof.
  intros Hi Hj. unfold arrayMove.
  rewrite (splice_remove1_index _ _ _ Hi).
  destruct (Z.ltb_spec (Z.of_nat j) 0) as [?|_]; [lia|].
  rewrite splice_insert_index; [done|].
  rewrite length_delete by eauto. lia.
Qed.

Lemma reinsert_lookup (r : list A) (j : nat) a :
  j ≤ length r → (take j r ++ a :: drop j r) !! j = Some a.
Proof.
  intros Hj. rewrite lookup_app_r by (rewrite length_take; lia).
  rewrite length_take_le by done. by rewrite Nat.sub_diag.
Qed.

Lemma reinsert_delete (r : list A) (j : nat) a :
  j ≤ length r → delete j (take j r ++ a :: drop j r) = r.
Proof.
  intros Hj.
  rewrite <- (length_take_le r j) at 1 by done.
  by rewrite delete_middle, take_drop.
Qed.

Lemma reinsert_Permutation (r : list A) (j : nat) a :
  take j r ++ a :: drop j r ≡ₚ a :: r.
Proof. by rewrite <- Permutation_middle, take_drop. Qed.

(** Moving an element onto its own position changes nothing. *)
Lemma arrayMove_same l (i : nat) a :
  l !! i = Some a → arrayMove l (Z.of_nat i) (Z.of_nat i) = Some l.
Proof.
  intros Hi. rewrite (arrayMove_in_range _ _ _ _ Hi) by (by eapply lookup_lt_Some).
  f_equal. rewrite delete_take_drop.
  assert (i ≤ length l) by (apply lookup_lt_Some in Hi; lia).
  rewrite take_app_le, take_take, Nat.min_id by (rewrite length_take; lia).
  rewrite drop_app_ge by (rewrite length_take; lia).
  rewrite length_take_le, Nat.sub_diag by done. simpl.
  by apply take_drop_middle.
Qed.
End ArrayFacts.

(** ** The Kanban board *)

Section KanbanFacts.
Import Kanban.
Implicit Types (net : Network) (tasks : list Task.t) (event : DragEndEvent).

Lemma has_id_true i t : has_id i t = true ↔ Task.id t = i.
Proof. unfold has_id. by rewrite bool_decide_eq_true. Qed.

(** What the [try] block of [updateTaskStatus] does, by the way the
    update request settles. *)
Lemma updateTaskStatus_resolved net taskId newStatus r w :
  net (PutTask taskId [("status", newStatus)]) = Some r →
  updateTaskStatus net taskId newStatus w
  = fetchTasks net (emit (Fetch (PutTask taskId [("status", newStatus)])) w).
Proof.
  intros Hput. unfold updateTaskStatus, try_catch, bind, fetch. rewrite Hput.
  unfold fetchTasks, try_catch.
  by destruct (bind _ _ _) as [[[]|e] w'].
Qed.

Lemma updateTaskStatus_rejected net taskId newStatus w :
  net (PutTask taskId [("status", newStatus)]) = None →
  updateTaskStatus net taskId newStatus w
  = (Normal (),
     emit (ConsoleError "Failed to update task:")
       (emit (Fetch (PutTask taskId [("status", newStatus)])) w)).
Proof.
  intros Hput. unfold updateTaskStatus, try_catch, bind, fetch. by rewrite Hput.
Qed.

(** [fetchTasks] always starts with the list request and never throws. *)
Lemma fetchTasks_trace net w :
  ∃ cell rest,
    fetchTasks net w
    = (Normal (), {| tasks_state := cell; trace := trace w ++ Fetch GetTasks :: rest |}).
Proof.
  unfold fetchTasks, try_catch, bind, fetch, response_json, setTasks, console_error, emit.
  destruct (net GetTasks) as [r|]; simpl.
  - destruct (json r); simpl.
    + eexists _, []. reflexivity.
    + eexists _, [_]. by rewrite <- app_assoc.
  - eexists _, [_]. by rewrite <- app_assoc.
Qed.
End KanbanFacts.

(** C1.  A drag between two tasks of the same status reorders without
    losing or duplicating anything: the new list is a permutation of the
    old one, the dragged task sits at the index the drop target had, and
    the other tasks keep their order (removing the dragged task from either
    list leaves the same list).  No request is issued. *)
Theorem handleDragEnd_same_status_is_move
    (net : Kanban.Network) (tasks : list Task.t) (event : Kanban.DragEndEvent)
    (overId : Z) (activeTask overTask : Task.t) :
  Kanban.over event = Some overId →
  JsArray.find (Kanban.has_id (Kanban.active event)) tasks = Some activeTask →
  JsArray.find (Kanban.has_id overId) tasks = Some overTask →
  Task.status activeTask = Task.status overTask →
  ∃ (tasks' : list Task.t) (oldIndex newIndex : nat),
    Kanban.drag net tasks event
    = (Normal (), {| Kanban.tasks_state := Some tasks'; Kanban.trace := [] |})
    ∧ JsArray.findIndex (Kanban.has_id (Kanban.active event)) tasks = Z.of_nat oldIndex
    ∧ JsArray.findIndex (Kanban.has_id overId) tasks = Z.of_nat newIndex
    ∧ tasks !! oldIndex = Some activeTask
    ∧ tasks !! newIndex = Some overTask
    ∧ tasks' ≡ₚ tasks
    ∧ tasks' !! newIndex = Some activeTask
    ∧ delete newIndex tasks' = delete oldIndex tasks.
Proof.
  intros Hover Ha Ho Hst.
  destruct (find_Some_index _ _ _ Ha) as (i & Hi & Hai & _).
  destruct (find_Some_index _ _ _ Ho) as (j & Hj & Hoj & _).
  assert (j < length tasks) as Hjlt by (by eapply lookup_lt_Some).
  assert (j ≤ length (delete i tasks)) as Hjle
    by (rewrite length_delete by eauto; lia).
  exists (take j (delete i tasks) ++ activeTask :: drop j (delete i tasks)), i, j.
  split_and!; try done.
  - unfold Kanban.drag, Kanban.handleDragEnd. rewrite Hover, Ha, Ho.
    rewrite bool_decide_eq_true_2 by done.
    unfold Kanban.setTasks, Kanban.rendered, Kanban.moveUpdater; simpl.
    rewrite Hi, Hj. by rewrite (arrayMove_in_range _ _ _ _ Hai Hjlt).
  - rewrite reinsert_Permutation. symmetry. by apply delete_Permutation.
  - by apply reinsert_lookup.
  - by apply reinsert_delete.
Qed.


Lemma handleDragEnd_same_status_is_move_witness :
  ∃ (tasks' : list Task.t) (oldIndex newIndex : nat),
    Kanban.drag Scenario.net_down Scenario.board Scenario.drag_C_on_B
    = (Normal (), {| Kanban.tasks_state := Some tasks'; Kanban.trace := [] |})
    ∧ JsArray.findIndex (Kanban.has_id 3) Scenario.board = Z.of_nat oldIndex
    ∧ JsArray.findIndex (Kanban.has_id 2) Scenario.board = Z.of_nat newIndex
    ∧ Scenario.board !! oldIndex = Some Scenario.C
    ∧ Scenario.board !! newIndex = Some Scenario.B
    ∧ tasks' ≡ₚ Scenario.board
    ∧ tasks' !! newIndex = Some Scenario.C
    ∧ delete newIndex tasks' = delete oldIndex Scenario.board.
Proof.
  apply (handleDragEnd_same_status_is_move
           Scenario.net_down Scenario.board Scenario.drag_C_on_B 2 Scenario.C Scenario.B);
    reflexivity.
Defined.

(** The example of the specification: dragging [C] before [B] gives
    [A; C; B]. *)
Example drag_C_on_B_result :
  Kanban.drag Scenario.net_down Scenario.board Scenario.drag_C_on_B
  = (Normal (),
     {| Kanban.tasks_state := Some [Scenario.A; Scenario.C; Scenario.B]; Kanban.trace := [] |}).
Proof. reflexivity. Qed.

(** C7.  A drop without a target, or with a dragged or target id that no
    task of the list carries, changes nothing and issues no request. *)
Theorem handleDragEnd_noop
    (net : Kanban.Network) (tasks : list Task.t) (event : Kanban.DragEndEvent) :
  Kanban.over event = None
  ∨ JsArray.find (Kanban.has_id (Kanban.active event)) tasks = None
  ∨ (∃ overId, Kanban.over event = Some overId
               ∧ JsArray.find (Kanban.has_id overId) tasks = None) →
  Kanban.drag net tasks event
  = (Normal (), {| Kanban.tasks_state := Some tasks; Kanban.trace := [] |}).
Proof.
  unfold Kanban.drag, Kanban.handleDragEnd.
  intros [Hnull | [Ha | (overId & Hover & Ho)]].
  - by rewrite Hnull.
  - destruct (Kanban.over event); [|done]. by rewrite Ha.
  - rewrite Hover, Ho.
    destruct (JsArray.find (Kanban.has_id (Kanban.active event)) tasks); reflexivity.
Qed.

Lemma handleDragEnd_noop_witness :
  Kanban.drag Scenario.net_up Scenario.board Scenario.drag_unknown
  = (Normal (), {| Kanban.tasks_state := Some Scenario.board; Kanban.trace := [] |}).
Proof.
  apply (handleDragEnd_noop Scenario.net_up Scenario.board Scenario.drag_unknown).
  right; left. reflexivity.
Defined.

(** A card let go outside every drop target. *)
Example drag_nowhere_result :
  Kanban.drag Scenario.net_up Scenario.board Scenario.drag_nowhere
  = (Normal (), {| Kanban.tasks_state := Some Scenario.board; Kanban.trace := [] |}).
Proof. reflexivity. Qed.

(** C8.  A task dropped on itself goes through the same-column branch
    (the state update with the move), the two indices computed there are
    equal, and the list comes out as it went in. *)
Theorem handleDragEnd_onto_itself
    (net : Kanban.Network) (tasks : list Task.t) (event : Kanban.DragEndEvent)
    (activeTask : Task.t) :
  Kanban.over event = Some (Kanban.active event) →
  JsArray.find (Kanban.has_id (Kanban.active event)) tasks = Some activeTask →
  Kanban.handleDragEnd net tasks event
  = Kanban.setTasks (Kanban.moveUpdater (Kanban.active event) (Kanban.active event))
  ∧ (∃ index : nat,
       JsArray.findIndex (Kanban.has_id (Kanban.active event)) tasks = Z.of_nat index
       ∧ Kanban.moveUpdater (Kanban.active event) (Kanban.active event) tasks
         = arrayMove tasks (Z.of_nat index) (Z.of_nat index))
  ∧ Kanban.drag net tasks event
    = (Normal (), {| Kanban.tasks_state := Some tasks; Kanban.trace := [] |}).
Proof.
  intros Hover Ha.
  destruct (find_Some_index _ _ _ Ha) as (i & Hi & Hai & _).
  assert (Kanban.handleDragEnd net tasks event
          = Kanban.setTasks (Kanban.moveUpdater (Kanban.active event) (Kanban.active event)))
    as Hbranch.
  { unfold Kanban.handleDragEnd. rewrite Hover, Ha.
    by rewrite bool_decide_eq_true_2. }
  split; [exact Hbranch | split].
  - exists i. split; [done|]. unfold Kanban.moveUpdater. by rewrite Hi.
  - unfold Kanban.drag. rewrite Hbranch.
    unfold Kanban.setTasks, Kanban.rendered, Kanban.moveUpdater; simpl.
    rewrite Hi. by rewrite (arrayMove_same _ _ _ Hai).
Qed.

Lemma handleDragEnd_onto_itself_witness :
  Kanban.handleDragEnd Scenario.net_up Scenario.board Scenario.drag_B_on_B
  = Kanban.setTasks (Kanban.moveUpdater 2 2)
  ∧ (∃ index : nat,
       JsArray.findIndex (Kanban.has_id 2) Scenario.board = Z.of_nat index
       ∧ Kanban.moveUpdater 2 2 Scenario.board
         = arrayMove Scenario.board (Z.of_nat index) (Z.of_nat index))
  ∧ Kanban.drag Scenario.net_up Scenario.board Scenario.drag_B_on_B
    = (Normal (), {| Kanban.tasks_state := Some Scenario.board; Kanban.trace := [] |}).
Proof.
  apply (handleDragEnd_onto_itself Scenario.net_up Scenario.board Scenario.drag_B_on_B Scenario.B);
    reflexivity.
Defined.

(** The claim C3 as the specification words it, with the refetch issued
    whatever becomes of the update request, fails when that request
    rejects: the [catch] block is entered before [fetchTasks] is reached.
    With no backend, dragging [A] onto [C] issues the update and nothing
    else. *)
Lemma refetch_regardless_of_outcome_fails :
  ¬ (∀ (net : Kanban.Network) (tasks : list Task.t) (event : Kanban.DragEndEvent)
       (overId : Z) (activeTask overTask : Task.t),
       Kanban.over event = Some overId →
       JsArray.find (Kanban.has_id (Kanban.active event)) tasks = Some activeTask →
       JsArray.find (Kanban.has_id overId) tasks = Some overTask →
       Task.status activeTask ≠ Task.status overTask →
       ∃ rest,
         Kanban.trace (Kanban.drag net tasks event).2
         = Kanban.Fetch (Kanban.PutTask (Kanban.active event) [("status", Task.status overTask)])
           :: rest
         ∧ Kanban.Fetch Kanban.GetTasks ∈ rest).
Proof.
  intros Hclaim.
  destruct (Hclaim Scenario.net_down Scenario.board Scenario.drag_A_on_C 3%Z
              Scenario.A Scenario.C) as (rest & Htrace & Hrefetch);
    [reflexivity | reflexivity | reflexivity | discriminate |].
  vm_compute in Htrace. injection Htrace as <-.
  apply list_elem_of_singleton in Hrefetch. discriminate.
Qed.

(** C3, amended.  A drag between two tasks of different status issues one
    update request, for the dragged task, whose body holds the target's
    status and nothing else.  When that request resolves (with whatever
    HTTP status: the response is not looked at) the list request follows
    and the handler ends as [fetchTasks] does.  When it rejects, the error
    is logged, no list request is issued and the list stays as it was. *)
Theorem handleDragEnd_cross_status
    (net : Kanban.Network) (tasks : list Task.t) (event : Kanban.DragEndEvent)
    (overId : Z) (activeTask overTask : Task.t) :
  Kanban.over event = Some overId →
  JsArray.find (Kanban.has_id (Kanban.active event)) tasks = Some activeTask →
  JsArray.find (Kanban.has_id overId) tasks = Some overTask →
  Task.status activeTask ≠ Task.status overTask →
  let update := Kanban.PutTask (Kanban.active event) [("status", Task.status overTask)] in
  match net update with
  | Some response =>
      Kanban.drag net tasks event
      = Kanban.fetchTasks net
          {| Kanban.tasks_state := Some tasks; Kanban.trace := [Kanban.Fetch update] |}
      ∧ ∃ cell rest,
          Kanban.drag net tasks event
          = (Normal (),
             {| Kanban.tasks_state := cell;
                Kanban.trace := Kanban.Fetch update :: Kanban.Fetch Kanban.GetTasks :: rest |})
  | None =>
      Kanban.drag net tasks event
      = (Normal (),
         {| Kanban.tasks_state := Some tasks;
            Kanban.trace := [Kanban.Fetch update;
                             Kanban.ConsoleError "Failed to update task:"] |})
  end.
Proof.
  intros Hover Ha Ho Hst. cbv zeta.
  set (update := Kanban.PutTask _ _).
  assert (Kanban.drag net tasks event
          = Kanban.updateTaskStatus net (Kanban.active event) (Task.status overTask)
              (Kanban.rendered tasks)) as Hbranch.
  { unfold Kanban.drag, Kanban.handleDragEnd. rewrite Hover, Ha, Ho.
    by rewrite bool_decide_eq_false_2. }
  destruct (net update) as [response|] eqn:Hput.
  - rewrite Hbranch, (updateTaskStatus_resolved _ _ _ _ _ Hput).
    split; [reflexivity|].
    destruct (fetchTasks_trace net
                (Kanban.emit (Kanban.Fetch update) (Kanban.rendered tasks)))
      as (cell & rest & Hfetch).
    exists cell, rest. exact Hfetch.
  - by rewrite Hbranch, (updateTaskStatus_rejected _ _ _ _ Hput).
Qed.

Lemma handleDragEnd_cross_status_witness :
  Kanban.drag Scenario.net_refusing Scenario.board Scenario.drag_A_on_C
  = Kanban.fetchTasks Scenario.net_refusing
      {| Kanban.tasks_state := Some Scenario.board;
         Kanban.trace := [Kanban.Fetch (Kanban.PutTask 1 [("status", "backlog")])] |}
  ∧ ∃ cell rest,
      Kanban.drag Scenario.net_refusing Scenario.board Scenario.drag_A_on_C
      = (Normal (),
         {| Kanban.tasks_state := cell;
            Kanban.trace := Kanban.Fetch (Kanban.PutTask 1 [("status", "backlog")])
                            :: Kanban.Fetch Kanban.GetTasks :: rest |}).
Proof.
  apply (handleDragEnd_cross_status Scenario.net_refusing Scenario.board
           Scenario.drag_A_on_C 3 Scenario.A Scenario.C);
    [reflexivity | reflexivity | reflexivity | discriminate].
Defined.

(** The example of the specification: [A] dragged onto [C] asks for the
    status "backlog" and the refetched list replaces the local one. *)
Example drag_A_on_C_result :
  Kanban.drag Scenario.net_up Scenario.board Scenario.drag_A_on_C
  = (Normal (),
     {| Kanban.tasks_state := Some [Scenario.task 1 "A" "backlog"; Scenario.B; Scenario.C];
        Kanban.trace := [Kanban.Fetch (Kanban.PutTask 1 [("status", "backlog")]);
                         Kanban.Fetch Kanban.GetTasks] |}).
Proof. reflexivity. Qed.

Example drag_A_on_C_without_backend :
  Kanban.drag Scenario.net_down Scenario.board Scenario.drag_A_on_C
  = (Normal (),
     {| Kanban.tasks_state := Some Scenario.board;
        Kanban.trace := [Kanban.Fetch (Kanban.PutTask 1 [("status", "backlog")]);
                         Kanban.ConsoleError "Failed to update task:"] |}).
Proof. reflexivity. Qed.

(** ** The activity feed *)

Section ActivityFacts.
Import Activity.
Implicit Types (clock : Clock) (wsData : Js.Value) (prev : list Js.Value).

(** The guard never throws: the property is read on truthy values only. *)
Lemma has_type_total wsData literal : ∃ b, has_type wsData literal = Normal b.
Proof.
  unfold has_type. destruct wsData; simpl; eauto.
  - destruct b; simpl; eauto.
  - destruct (negb _); simpl; eauto.
  - destruct (negb _); simpl; eauto.
Qed.

Lemma has_type_true wsData literal :
  has_type wsData literal = Normal true →
  Js.truthy wsData = true ∧ Js.get wsData "type" = Normal (Js.Str literal).
Proof.
  unfold has_type. destruct (Js.truthy wsData) eqn:Htruthy; [|done].
  destruct (Js.get wsData "type") as [ty|] eqn:Hty; simpl; [|done].
  destruct ty; simpl; try done.
  intros [= Heq%bool_decide_eq_true]. by subst.
Qed.

Lemma has_type_other wsData a b :
  has_type wsData a = Normal true → a ≠ b → has_type wsData b = Normal false.
Proof.
  intros (Htruthy & Hty)%has_type_true Hne. unfold has_type.
  rewrite Htruthy, Hty. simpl. by rewrite bool_decide_eq_false_2.
Qed.






(** A payload that is neither [undefined] nor [null]. *)
Lemma get_total (v : Js.Value) key :
  v ≠ Js.Undefined → v ≠ Js.Null → ∃ x, Js.get v key = Normal x.
Proof. destruct v; simpl; eauto; done. Qed.

Lemma newActivity_total clock wsData data :
  Js.get wsData "data" = Normal data → data ≠ Js.Undefined → data ≠ Js.Null →
  ∃ type message agent_name,
    Js.get data "type" = Normal type
    ∧ Js.get data "message" = Normal message
    ∧ Js.get data "agent_name" = Normal agent_name
    ∧ newActivity clock wsData
      = Normal (Js.object [
          ("id", Js.Num (Date_now clock));
          ("type", Js.or_else type (Js.Str "info"));
          ("message", Js.or_else message (Js.Str "Data ingested from agent"));
          ("agent_name", Js.or_else agent_name (Js.Str "Unknown"));
          ("created_at", Js.Str (now_toISOString clock)) ]).
Proof.
  intros Hdata Hu Hn.
  destruct (get_total data "type" Hu Hn) as [type Ht].
  destruct (get_total data "message" Hu Hn) as [message Hm].
  destruct (get_total data "agent_name" Hu Hn) as [agent_name Ha].
  exists type, message, agent_name. split_and!; try done.
  unfold newActivity. rewrite Hdata; simpl. rewrite Ht; simpl.
  rewrite Hm; simpl. by rewrite Ha.
Qed.
End ActivityFacts.

Section ActivityRuns.
Import Activity.


(** *** Runs of the page *)








End ActivityRuns.



(** Two messages before one render: the first is replaced in the cell and
    leaves no entry. *)
Example overwritten_message_leaves_no_entry :
  Activity.run [Activity.Message (Scenario.activity_created 21);
                Activity.Message (Scenario.activity_created 22);
                Activity.Render Scenario.clock] (Activity.mounted [])
  ≫= (λ page, mret (Activity.activities page))
  = Normal [Js.object [("id", Js.Num 22); ("message", Js.Str "done")]].
Proof. reflexivity. Qed.

(** A second render without a new message adds nothing. *)
Example rendered_twice_leaves_one_entry :
  Activity.run [Activity.Message (Scenario.activity_created 21);
                Activity.Render Scenario.clock; Activity.Render Scenario.clock]
    (Activity.mounted [])
  ≫= (λ page, mret (Activity.activities page))
  = Normal [Js.object [("id", Js.Num 21); ("message", Js.Str "done")]].
Proof. reflexivity. Qed.

(** A full feed receiving one entry: the newest in front, the twentieth
    gone. *)
Example feed_full_evicts_oldest :
  Activity.wsDataEffect Scenario.clock (Scenario.activity_created 21) Scenario.feed_full
  = Normal (Js.object [("id", Js.Num 21); ("message", Js.Str "done")]
            :: take 19 Scenario.feed_full).
Proof. reflexivity. Qed.

(** The claim C10 as worded, for every message of type [ingest_received],
    fails on a message without payload: reading [wsData.data.type] throws
    and no entry is made. *)
Lemma ingest_without_payload_throws :
  Activity.has_type Scenario.ingest_without_data "ingest_received" = Normal true
  ∧ ¬ (∃ next, Activity.wsDataEffect Scenario.clock Scenario.ingest_without_data [] = Normal next)
  ∧ Activity.wsDataEffect Scenario.clock Scenario.ingest_without_data []
    = Abrupt "TypeError: Cannot read properties of undefined".
Proof.
  split_and!; [reflexivity | | reflexivity].
  intros [next Hnext]. vm_compute in Hnext. discriminate.
Qed.

(** C10, amended.  For a message of type [ingest_received] whose payload
    is neither [undefined] nor [null], the entry is built in the client:
    [id] is the clock reading, and [type], [message] and [agent_name] are
    the payload's fields, replaced by 'info', 'Data ingested from agent'
    and 'Unknown' where the field is missing or falsy.  The entry goes in
    front of the list, cut to twenty. *)
Theorem ingest_received_synthesizes_entry
    (clock : Activity.Clock) (wsData data : Js.Value) (prev : list Js.Value) :
  Activity.has_type wsData "ingest_received" = Normal true →
  Js.get wsData "data" = Normal data →
  data ≠ Js.Undefined → data ≠ Js.Null →
  ∃ type message agent_name,
    Js.get data "type" = Normal type
    ∧ Js.get data "message" = Normal message
    ∧ Js.get data "agent_name" = Normal agent_name
    ∧ Activity.wsDataEffect clock wsData prev
      = Normal (take 20 (Js.object [
          ("id", Js.Num (Activity.Date_now clock));
          ("type", if Js.truthy type then type else Js.Str "info");
          ("message", if Js.truthy message then message
                      else Js.Str "Data ingested from agent");
          ("agent_name", if Js.truthy agent_name then agent_name else Js.Str "Unknown");
          ("created_at", Js.Str (Activity.now_toISOString clock)) ] :: prev))
    ∧ (∀ key, (∀ fields, data = Js.Obj fields → fields !! key = None) →
              Js.get data key = Normal Js.Undefined)
    ∧ Js.truthy Js.Undefined = false.
Proof.
  intros Hi Hdata Hu Hn.
  destruct (newActivity_total clock wsData data Hdata Hu Hn)
    as (type & message & agent_name & Ht & Hm & Ha & Hnew).
  exists type, message, agent_name. split_and!; try done.
  - unfold Activity.wsDataEffect.
    rewrite (has_type_other _ _ "activity_created" Hi) by done. simpl.
    rewrite Hi; simpl. by rewrite Hnew.
  - intros key Habsent. destruct data; simpl; try done.
    by rewrite (Habsent _ eq_refl).
Qed.

Lemma ingest_received_synthesizes_entry_witness :
  ∃ type message agent_name,
    Js.get (Js.object []) "type" = Normal type
    ∧ Js.get (Js.object []) "message" = Normal message
    ∧ Js.get (Js.object []) "agent_name" = Normal agent_name
    ∧ Activity.wsDataEffect Scenario.clock Scenario.ingest_empty Scenario.feed_full
      = Normal (take 20 (Js.object [
          ("id", Js.Num 1735689600000);
          ("type", if Js.truthy type then type else Js.Str "info");
          ("message", if Js.truthy message then message
                      else Js.Str "Data ingested from agent");
          ("agent_name", if Js.truthy agent_name then agent_name else Js.Str "Unknown");
          ("created_at", Js.Str "2025-01-01T00:00:00.000Z") ] :: Scenario.feed_full))
    ∧ (∀ key, (∀ fields, Js.object [] = Js.Obj fields → fields !! key = None) →
              Js.get (Js.object []) key = Normal Js.Undefined)
    ∧ Js.truthy Js.Undefined = false.
Proof.
  apply (ingest_received_synthesizes_entry
           Scenario.clock Scenario.ingest_empty (Js.object []) Scenario.feed_full);
    [reflexivity | reflexivity | discriminate | discriminate].
Defined.

(** An empty payload gives the three defaults. *)
Example ingest_empty_defaults :
  Activity.wsDataEffect Scenario.clock Scenario.ingest_empty []
  = Normal [Js.object [
      ("id", Js.Num 1735689600000);
      ("type", Js.Str "info");
      ("message", Js.Str "Data ingested from agent");
      ("agent_name", Js.Str "Unknown");
      ("created_at", Js.Str "2025-01-01T00:00:00.000Z") ]].
Proof. reflexivity. Qed.

(** ** Relative time *)

Section FormatTimeFacts.
Import Activity.

Lemma floor_div_ltb (x k n : Z) :
  (0 < k)%Z → ((x / k <? n) = (x <? k * n))%Z.
Proof.
  intros Hk.
  destruct (Z.ltb_spec x (k * n)) as [Hlt | Hge].
  - apply Z.ltb_lt. by apply Z.div_lt_upper_bound.
  - apply Z.ltb_ge. by apply Z.div_le_lower_bound.
Qed.

(** [formatTime] on a valid date, by the elapsed milliseconds. *)
Lemma formatTime_valid (D : Dates) (now t : Z) (dateString : Js.Value) :
  Js.truthy dateString = true → Date_of D dateString = Some t →
  formatTime D now dateString
  = if (now - t <? 60000)%Z then "Just now"
    else if (now - t <? 3600000)%Z then decimal ((now - t) / 60000) +:+ "m ago"
    else if (now - t <? 86400000)%Z then decimal ((now - t) / 3600000) +:+ "h ago"
    else toLocaleDateString D t.
Proof.
  intros Htruthy Hdate. unfold formatTime. rewrite Htruthy, Hdate; simpl.
  by rewrite !floor_div_ltb.
Qed.
End FormatTimeFacts.

(** C6.  For a non-empty [created_at] that denotes a date, [formatTime]
    answers by the elapsed time: "Just now" under a minute, the whole
    minutes followed by "m ago" under an hour, the whole hours followed by
    "h ago" under a day, and the locale's calendar date from then on;
    thirty seconds, five minutes, three hours and two days fall in these
    four classes in turn. *)
Theorem formatTime_buckets
    (D : Activity.Dates) (now t : Z) (dateString : Js.Value) :
  Js.truthy dateString = true →
  Activity.Date_of D dateString = Some t →
  let elapsed := (now - t)%Z in
  ((elapsed < 60000)%Z → Activity.formatTime D now dateString = "Just now")
  ∧ ((60000 ≤ elapsed < 3600000)%Z →
     Activity.formatTime D now dateString = decimal (elapsed / 60000) +:+ "m ago")
  ∧ ((3600000 ≤ elapsed < 86400000)%Z →
     Activity.formatTime D now dateString = decimal (elapsed / 3600000) +:+ "h ago")
  ∧ ((86400000 ≤ elapsed)%Z →
     Activity.formatTime D now dateString = Activity.toLocaleDateString D t)
  ∧ (elapsed = 30000%Z → Activity.formatTime D now dateString = "Just now")
  ∧ (elapsed = 300000%Z → Activity.formatTime D now dateString = "5m ago")
  ∧ (elapsed = 10800000%Z → Activity.formatTime D now dateString = "3h ago")
  ∧ (elapsed = 172800000%Z →
     Activity.formatTime D now dateString = Activity.toLocaleDateString D t).
Proof.
  intros Htruthy Hdate elapsed.
  rewrite (formatTime_valid D now t dateString Htruthy Hdate).
  fold elapsed. split_and!; intros Hel.
  - by rewrite (proj2 (Z.ltb_lt _ _)) by lia.
  - rewrite (proj2 (Z.ltb_ge _ _)) by lia. by rewrite (proj2 (Z.ltb_lt _ _)) by lia.
  - rewrite !(proj2 (Z.ltb_ge _ _)) by lia. by rewrite (proj2 (Z.ltb_lt _ _)) by lia.
  - by rewrite !(proj2 (Z.ltb_ge _ _)) by lia.
  - by rewrite Hel.
  - by rewrite Hel.
  - by rewrite Hel.
  - by rewrite Hel.
Qed.

Lemma formatTime_buckets_witness :
  Activity.formatTime Sample.dates 1735689900000 (Js.Str "2025-01-01T00:00:00.000Z")
  = "5m ago".
Proof.
  apply (formatTime_buckets Sample.dates 1735689900000 1735689600000
           (Js.Str "2025-01-01T00:00:00.000Z"));
    reflexivity.
Defined.

Example formatTime_thirty_seconds :
  Activity.formatTime Sample.dates 1735689630000 (Js.Str "2025-01-01T00:00:00.000Z")
  = "Just now".
Proof. reflexivity. Qed.

Example formatTime_three_hours :
  Activity.formatTime Sample.dates 1735700400000 (Js.Str "2025-01-01T00:00:00.000Z")
  = "3h ago".
Proof. reflexivity. Qed.

Example formatTime_two_days :
  Activity.formatTime Sample.dates 1735862400000 (Js.Str "2025-01-01T00:00:00.000Z")
  = "1/1/2025".
Proof. reflexivity. Qed.

Example formatTime_fifty_nine_minutes :
  Activity.formatTime Sample.dates 1735693199999 (Js.Str "2025-01-01T00:00:00.000Z")
  = "59m ago".
Proof. reflexivity. Qed.

Example formatTime_empty :
  Activity.formatTime Sample.dates 1735689630000 (Js.Str "") = "".
Proof. reflexivity. Qed.

(** ** The live connection manager *)

Section AppFacts.
Import App.
Implicit Types (H : Host) (st : State) (s : nat).

Lemma step_close H st s rs :
  sockets st !! s = Some rs → rs ≠ CLOSED →
  step H st (SocketClose s) = onclose (with_sockets (<[s := CLOSED]> (sockets st)) st).
Proof. intros Hs Hrs. simpl. rewrite Hs. by destruct rs. Qed.

Lemma onclose_effect st :
  onclose st
  = {| isConnected := false; wsData := wsData st; wsRef := wsRef st;
       sockets := sockets st; attempts := attempts st;
       timers := timers st ++ [retry_timer (clock st)];
       clock := clock st;
       console := console st ++ [ConsoleLog "WebSocket disconnected"];
       mounted := mounted st |}.
Proof. reflexivity. Qed.

Lemma is_due_true now t : (due t ≤ now)%Z → is_due now t = true.
Proof. intros. unfold is_due. by apply Z.leb_le. Qed.

Lemma is_due_false now t : (now < due t)%Z → is_due now t = false.
Proof. intros. unfold is_due. by apply Z.leb_gt. Qed.

(** Time passing with a single retry pending. *)
Lemma elapse_before_due H st t (ms : N) :
  timers st = [t] → (clock st + Z.of_N ms < due t)%Z →
  elapse H ms st = with_timers [t] (clock st + Z.of_N ms) st.
Proof.
  intros Ht Hlt. unfold elapse. rewrite Ht, !filter_cons, !filter_nil.
  by rewrite (is_due_false _ _ Hlt).
Qed.

Lemma elapse_due H st t (ms : N) :
  timers st = [t] → (due t ≤ clock st + Z.of_N ms)%Z →
  elapse H ms st = call H (callback t) (with_timers [] (clock st + Z.of_N ms) st).
Proof.
  intros Ht Hle. unfold elapse. rewrite Ht, !filter_cons, !filter_nil.
  by rewrite (is_due_true _ _ Hle).
Qed.

Lemma elapse_idle H st (ms : N) :
  timers st = [] → elapse H ms st = with_timers [] (clock st + Z.of_N ms) st.
Proof. intros Ht. unfold elapse. by rewrite Ht. Qed.
End AppFacts.

Section Reconnection.
Import App.
Implicit Types (H : Host) (st : State) (s : nat).

Lemma run_app H st (evs1 evs2 : list Event) :
  run H st (evs1 ++ evs2) = run H (run H st evs1) evs2.
Proof. apply foldl_app. Qed.

(** One failed attempt, start to end: the socket closes, three seconds
    pass, the timeout fires and a new socket is under construction. *)
Lemma failed_attempt_round H st s rs :
  timers st = [] → sockets st !! s = Some rs → rs ≠ CLOSED →
  WebSocket_throws H (attempts st) = false →
  run H st (failed_attempt s)
  = {| isConnected := false; wsData := wsData st;
       wsRef := Some (length (sockets st));
       sockets := <[s := CLOSED]> (sockets st) ++ [CONNECTING];
       attempts := S (attempts st); timers := [];
       clock := (clock st + 3000)%Z;
       console := console st ++ [ConsoleLog "WebSocket disconnected"];
       mounted := mounted st |}.
Proof.
  intros Ht Hs Hrs Hctor. unfold run, failed_attempt. cbn [foldl].
  rewrite (step_close H st s rs Hs Hrs).
  change (step H ?x (Elapse 3000)) with (elapse H 3000 x).
  rewrite (elapse_due H _ (retry_timer (clock st))).
  - rewrite onclose_effect. unfold call, connectWebSocket; simpl. rewrite Hctor.
    unfold newWebSocket; simpl. by rewrite length_insert.
  - rewrite onclose_effect; simpl. by rewrite Ht.
  - rewrite onclose_effect; simpl. lia.
Qed.

(** Any number of failed attempts in a row: each one costs three seconds
    and leaves a fresh socket connecting, so the next one can follow. *)
Lemma failed_attempts_run H (n : nat) :
  ∀ st s rs,
    (∀ k, attempts st ≤ k < attempts st + S n → WebSocket_throws H k = false) →
    timers st = [] → sockets st !! s = Some rs → rs ≠ CLOSED →
    let final := run H st (failed_attempts (S n) s (length (sockets st))) in
    attempts final = attempts st + S n
    ∧ clock final = (clock st + 3000 * Z.of_nat (S n))%Z
    ∧ isConnected final = false
    ∧ timers final = []
    ∧ length (sockets final) = length (sockets st) + S n
    ∧ wsRef final = Some (length (sockets st) + n)
    ∧ sockets final !! (length (sockets st) + n) = Some CONNECTING.
Proof.
  induction n as [|n IH]; intros st s rs Hctor Ht Hs Hrs; cbv zeta.
  - cbn [failed_attempts]. rewrite app_nil_r.
    rewrite (failed_attempt_round H st s rs) by (try done; apply Hctor; lia). simpl.
    rewrite length_app, length_insert, Nat.add_0_r. simpl.
    split_and!; try done; try lia.
    rewrite lookup_app_r by (rewrite length_insert; lia).
    by rewrite length_insert, Nat.sub_diag.
  - cbn [failed_attempts].
    change (failed_attempt s ++ failed_attempt (length (sockets st))
              ++ failed_attempts n (S (length (sockets st))) (S (S (length (sockets st)))))
      with (failed_attempt s
              ++ failed_attempts (S n) (length (sockets st)) (S (length (sockets st)))).
    rewrite run_app, (failed_attempt_round H st s rs) by (try done; apply Hctor; lia).
    set (st1 := {| isConnected := false; wsData := wsData st;
                   wsRef := Some (length (sockets st));
                   sockets := <[s := CLOSED]> (sockets st) ++ [CONNECTING];
                   attempts := S (attempts st); timers := [];
                   clock := (clock st + 3000)%Z;
                   console := console st ++ [ConsoleLog "WebSocket disconnected"];
                   mounted := mounted st |}).
    assert (length (sockets st1) = S (length (sockets st))) as Hlen.
    { simpl. rewrite length_app, length_insert. simpl. lia. }
    assert (sockets st1 !! length (sockets st) = Some CONNECTING) as Hcur.
    { simpl. rewrite lookup_app_r by (rewrite length_insert; lia).
      by rewrite length_insert, Nat.sub_diag. }
    assert (∀ k, attempts st1 ≤ k < attempts st1 + S n → WebSocket_throws H k = false)
      as Hctor1 by (intros k Hk; apply Hctor; simpl in Hk; lia).
    specialize (IH st1 (length (sockets st)) CONNECTING Hctor1 eq_refl Hcur).
    cbv zeta in IH. rewrite Hlen in IH.
    destruct IH as (Ha & Hc & Hi & Htm & Hl & Hw & Hk); [done|].
    split_and!; try done.
    + rewrite Ha. simpl. lia.
    + rewrite Hc. simpl clock. lia.
    + rewrite Hl. lia.
    + rewrite Hw. f_equal. lia.
    + rewrite <- Hk. f_equal. lia.
Qed.
End Reconnection.

(** C2.  A message whose text [JSON.parse] rejects is logged and goes no
    further: the handler leaves [isConnected] and [wsData] as they were,
    and so does the event loop, whatever socket the message came on. *)
Theorem malformed_message_is_dropped
    (H : App.Host) (st : App.State) (s : nat) (data : string) :
  App.JSON_parse H data = None →
  App.onmessage H data st
  = App.report (App.ConsoleError "Failed to parse WebSocket message:") st
  ∧ App.isConnected (App.step H st (App.SocketMessage s data)) = App.isConnected st
  ∧ App.wsData (App.step H st (App.SocketMessage s data)) = App.wsData st
  ∧ App.timers (App.step H st (App.SocketMessage s data)) = App.timers st.
Proof.
  intros Hparse.
  assert (App.onmessage H data st
          = App.report (App.ConsoleError "Failed to parse WebSocket message:") st)
    as Hhandler by (unfold App.onmessage; by rewrite Hparse).
  split; [exact Hhandler|].
  simpl. destruct (App.sockets st !! s) as [[]|]; try done.
  by rewrite Hhandler.
Qed.

Lemma malformed_message_is_dropped_witness :
  App.onmessage Sample.host Scenario.malformed_text Scenario.connected
  = App.report (App.ConsoleError "Failed to parse WebSocket message:") Scenario.connected
  ∧ App.isConnected (App.step Sample.host Scenario.connected (App.SocketMessage 0 Scenario.malformed_text))
    = App.isConnected Scenario.connected
  ∧ App.wsData (App.step Sample.host Scenario.connected (App.SocketMessage 0 Scenario.malformed_text))
    = App.wsData Scenario.connected
  ∧ App.timers (App.step Sample.host Scenario.connected (App.SocketMessage 0 Scenario.malformed_text))
    = App.timers Scenario.connected.
Proof.
  apply (malformed_message_is_dropped Sample.host Scenario.connected 0 Scenario.malformed_text).
  reflexivity.
Defined.

(** A well-formed message, by contrast, reaches the consumers. *)
Example wellformed_message_is_published :
  App.wsData (App.step Sample.host Scenario.connected
                (App.SocketMessage 0 Scenario.ingest_text))
  = Scenario.ingest_empty.
Proof. reflexivity. Qed.

(** The claim C5 as the specification words it, with the attempts repeated
    until one succeeds, fails in a browser whose [WebSocket] constructor
    throws: the [catch] block of [connectWebSocket] logs and sets no
    timeout.  After the one socket closes and three seconds pass, no
    socket is left that could open or close and no attempt is pending. *)
Lemma retry_until_success_fails :
  ¬ (∀ (H : App.Host) (st : App.State) (s : nat) (rs : App.ReadyState),
       App.sockets st !! s = Some rs → rs ≠ App.CLOSED → App.timers st = [] →
       let later := App.run H st (App.failed_attempt s) in
       App.timers later ≠ []
       ∨ ∃ s' rs', App.sockets later !! s' = Some rs' ∧ rs' ≠ App.CLOSED).
Proof.
  intros Hclaim.
  destruct (Hclaim Cases.one_socket_host Cases.connected_once 0 App.OPEN)
    as [Htimers | (s' & rs' & Hs' & Hlive)];
    [reflexivity | discriminate | reflexivity | by apply Htimers |].
  vm_compute in Hs'. destruct s' as [|s']; [|discriminate].
  injection Hs' as <-. by apply Hlive.
Qed.

(** C5, amended.  When a socket closes, [isConnected] becomes false and
    one timeout of 3000 ms is set that calls [connectWebSocket]; nothing is
    attempted before it runs out and one attempt is made when it does.
    As long as the constructor does not throw, the delay is the same after
    any number of failures, there is no bound on their number, and the
    cycle ends when a socket opens: [isConnected] is true and no attempt is
    pending.  When the constructor throws at an attempt, the error is
    logged and no further attempt is scheduled. *)
Theorem close_reconnects_after_three_seconds
    (H : App.Host) (st : App.State) (s : nat) (rs : App.ReadyState) :
  App.sockets st !! s = Some rs → rs ≠ App.CLOSED →
  let closed := App.step H st (App.SocketClose s) in
  App.isConnected closed = false
  ∧ App.timers closed = App.timers st ++ [App.retry_timer (App.clock st)]
  ∧ App.attempts closed = App.attempts st
  ∧ (App.timers st = [] →
     (∀ ms : N, (Z.of_N ms < 3000)%Z →
                App.attempts (App.step H closed (App.Elapse ms)) = App.attempts st)
     ∧ App.attempts (App.step H closed (App.Elapse 3000)) = S (App.attempts st))
  ∧ (App.timers st = [] →
     ∀ n : nat,
       (∀ k, App.attempts st ≤ k < App.attempts st + S n →
             App.WebSocket_throws H k = false) →
       let final := App.run H st (App.failed_attempts (S n) s (length (App.sockets st))) in
       let current := length (App.sockets st) + n in
       let opened := App.step H final (App.SocketOpen current) in
       App.attempts final = App.attempts st + S n
       ∧ App.clock final = (App.clock st + 3000 * Z.of_nat (S n))%Z
       ∧ App.isConnected final = false
       ∧ App.wsRef final = Some current
       ∧ App.sockets final !! current = Some App.CONNECTING
       ∧ App.isConnected opened = true
       ∧ ∀ ms : N, App.attempts (App.step H opened (App.Elapse ms)) = App.attempts opened)
  ∧ (App.timers st = [] → App.WebSocket_throws H (App.attempts st) = true →
     let later := App.step H closed (App.Elapse 3000) in
     App.timers later = []
     ∧ App.sockets later = <[s := App.CLOSED]> (App.sockets st)
     ∧ App.isConnected later = false
     ∧ App.console later
       = App.console st ++ [App.ConsoleLog "WebSocket disconnected";
                            App.ConsoleError "Failed to connect WebSocket:"]).
Proof.
  intros Hs Hrs closed. subst closed.
  rewrite (step_close H st s rs Hs Hrs), onclose_effect.
  split_and!; try reflexivity.
  - intros Ht. split.
    + intros ms Hms.
      change (App.step H ?x (App.Elapse ms)) with (App.elapse H ms x).
      rewrite (elapse_before_due H _ (App.retry_timer (App.clock st)));
        [reflexivity | by simpl; rewrite Ht | simpl; lia].
    + change (App.step H ?x (App.Elapse 3000)) with (App.elapse H 3000 x).
      rewrite (elapse_due H _ (App.retry_timer (App.clock st)));
        [| by simpl; rewrite Ht | simpl; lia].
      unfold App.call, App.connectWebSocket; simpl.
      by destruct (App.WebSocket_throws H (App.attempts st)).
  - intros Ht n Hctor final current opened.
    destruct (failed_attempts_run H n st s rs Hctor Ht Hs Hrs)
      as (Ha & Hc & Hi & Htm & _ & Hw & Hk).
    fold final in Ha, Hc, Hi, Htm, Hw, Hk. fold current in Hw, Hk.
    assert (opened
            = App.onopen
                (App.with_sockets (<[current := App.OPEN]> (App.sockets final)) final))
      as Hopened by (subst opened; simpl; by rewrite Hk).
    split_and!; try done.
    + by rewrite Hopened.
    + intros ms. rewrite Hopened.
      change (App.step H ?x (App.Elapse ms)) with (App.elapse H ms x).
      rewrite elapse_idle; [reflexivity | exact Htm].
  - intros Ht Hthrows later. subst later.
    change (App.step H ?x (App.Elapse 3000)) with (App.elapse H 3000 x).
    rewrite (elapse_due H _ (App.retry_timer (App.clock st)));
      [| by simpl; rewrite Ht | simpl; lia].
    unfold App.call, App.connectWebSocket; simpl. rewrite Hthrows. simpl.
    split_and!; try done. by rewrite <- app_assoc.
Qed.

Lemma close_reconnects_after_three_seconds_witness :
  App.isConnected (App.step Sample.host Scenario.connected (App.SocketClose 0)) = false
  ∧ App.timers (App.step Sample.host Scenario.connected (App.SocketClose 0))
    = [{| App.callback := App.ConnectWebSocket; App.delay := 3000; App.due := 3000 |}]
  ∧ App.attempts (App.step Sample.host Scenario.connected (App.SocketClose 0)) = 1
  ∧ App.attempts
      (App.step Sample.host (App.step Sample.host Scenario.connected (App.SocketClose 0))
         (App.Elapse 2999)) = 1
  ∧ App.attempts
      (App.step Sample.host (App.step Sample.host Scenario.connected (App.SocketClose 0))
         (App.Elapse 3000)) = 2
  ∧ App.attempts (App.run Sample.host Scenario.connected (App.failed_attempts 3 0 1)) = 4
  ∧ App.clock (App.run Sample.host Scenario.connected (App.failed_attempts 3 0 1)) = 9000%Z
  ∧ App.isConnected
      (App.step Sample.host
         (App.run Sample.host Scenario.connected (App.failed_attempts 3 0 1))
         (App.SocketOpen 3)) = true.
Proof.
  destruct (close_reconnects_after_three_seconds Sample.host Scenario.connected 0 App.OPEN)
    as (Hflag & Htimers & Hattempts & Honce & Hrepeat & _); [reflexivity | discriminate |].
  destruct (Honce eq_refl) as (Hbefore & Hdue).
  destruct (Hrepeat eq_refl 2 (λ _ _, eq_refl)) as (Ha & Hc & _ & _ & _ & Hopen & _).
  split_and!;
    [exact Hflag | exact Htimers | exact Hattempts | exact (Hbefore 2999%N eq_refl)
    | exact Hdue | exact Ha | exact Hc | exact Hopen].
Defined.

(** Three failures in a row: three more sockets, nine seconds on the
    clock, the last socket still connecting. *)
Example three_failed_attempts :
  let final := App.run Sample.host Scenario.connected (App.failed_attempts 3 0 1) in
  App.attempts final = 4 ∧ App.clock final = 9000%Z ∧ App.isConnected final = false
  ∧ App.sockets final = [App.CLOSED; App.CLOSED; App.CLOSED; App.CONNECTING]
  ∧ App.wsRef final = Some 3.
Proof. by vm_compute. Qed.

(** C9.  The close that the unmount cleanup asks for is handled like any
    other: [onclose] sets the 3000 ms timeout, and when it runs out
    [connectWebSocket] constructs a socket although the component is gone.
    Nothing in [onclose] depends on whether the component is mounted. *)
Theorem unmount_close_still_reconnects
    (H : App.Host) (st : App.State) (s : nat) (rs : App.ReadyState) :
  App.wsRef st = Some s → App.sockets st !! s = Some rs →
  rs = App.CONNECTING ∨ rs = App.OPEN →
  let unmounted := App.step H st App.Unmount in
  let closed := App.step H unmounted (App.SocketClose s) in
  let later := App.step H closed (App.Elapse 3000) in
  App.mounted unmounted = false
  ∧ App.sockets unmounted !! s = Some App.CLOSING
  ∧ App.timers unmounted = App.timers st
  ∧ App.mounted closed = false
  ∧ App.timers closed = App.timers st ++ [App.retry_timer (App.clock st)]
  ∧ (App.timers st = [] →
     App.mounted later = false
     ∧ App.attempts later = S (App.attempts st)
     ∧ (App.WebSocket_throws H (App.attempts st) = false →
        App.wsRef later = Some (length (App.sockets st))
        ∧ App.sockets later !! length (App.sockets st) = Some App.CONNECTING))
  ∧ (∀ (b : bool) (st0 : App.State),
       App.onclose (App.with_mounted b st0) = App.with_mounted b (App.onclose st0)).
Proof.
  intros Href Hs Hlive unmounted closed later.
  assert (s < length (App.sockets st)) as Hlt by (by eapply lookup_lt_Some).
  assert (unmounted
          = App.with_mounted false
              (App.with_sockets (<[s := App.CLOSING]> (App.sockets st)) st)) as Hun.
  { subst unmounted. simpl. unfold App.cleanup, App.close. rewrite Href, Hs.
    by destruct Hlive as [-> | ->]. }
  assert (App.sockets unmounted !! s = Some App.CLOSING) as Hclosing.
  { rewrite Hun. simpl. by apply list_lookup_insert_eq. }
  assert (closed = App.onclose
            (App.with_sockets (<[s := App.CLOSED]> (App.sockets unmounted)) unmounted))
    as Hcl by (subst closed; by apply (step_close H unmounted s App.CLOSING)).
  split_and!.
  - by rewrite Hun.
  - done.
  - by rewrite Hun.
  - by rewrite Hcl, Hun.
  - by rewrite Hcl, Hun.
  - intros Ht. subst later.
    change (App.step H ?x (App.Elapse 3000)) with (App.elapse H 3000 x).
    rewrite (elapse_due H closed (App.retry_timer (App.clock st)));
      [| rewrite Hcl, Hun; simpl; by rewrite Ht | rewrite Hcl, Hun; simpl; lia].
    rewrite Hcl, Hun. unfold App.call, App.connectWebSocket; simpl.
    destruct (App.WebSocket_throws H (App.attempts st)); simpl.
    + split_and!; done.
    + split_and!; try done. intros _.
      rewrite !length_insert. split; [done|].
      rewrite lookup_app_r by (rewrite !length_insert; lia).
      by rewrite !length_insert, Nat.sub_diag.
  - reflexivity.
Qed.

Lemma unmount_close_still_reconnects_witness :
  let unmounted := App.step Sample.host Scenario.connected App.Unmount in
  let closed := App.step Sample.host unmounted (App.SocketClose 0) in
  let later := App.step Sample.host closed (App.Elapse 3000) in
  App.mounted unmounted = false
  ∧ App.sockets unmounted !! 0 = Some App.CLOSING
  ∧ App.timers closed = [App.retry_timer 0]
  ∧ App.mounted later = false
  ∧ App.attempts later = 2
  ∧ App.wsRef later = Some 1
  ∧ App.sockets later !! 1 = Some App.CONNECTING.
Proof.
  destruct (unmount_close_still_reconnects Sample.host Scenario.connected 0 App.OPEN)
    as (Hm & Hs & _ & _ & Ht & Hlater & _); [reflexivity | reflexivity | by right |].
  destruct (Hlater eq_refl) as (Hml & Ha & Hnew).
  destruct (Hnew eq_refl) as (Hw & Hk).
  cbv zeta. split_and!; [exact Hm | exact Hs | exact Ht | exact Hml | exact Ha | exact Hw | exact Hk].
Defined.

(** * Further properties *)

(** ** Arrays, continued *)

Section MoreArrayFacts.
Context {A : Type}.
Implicit Types (l : list A).

(** Whatever the two indices, negative or beyond the end, [arrayMove]
    either has nothing to remove or gives back the same elements. *)
Lemma arrayMove_Some_Permutation l (from to : Z) l' :
  arrayMove l from to = Some l' → l' ≡ₚ l.
Proof.
  unfold arrayMove, JsArray.splice_remove1, JsArray.splice_insert.
  set (i := Z.to_nat (JsArray.relativeStart (Z.of_nat (length l)) from)).
  destruct (l !! i) as [a|] eqn:Hi; [|done].
  intros [= <-]. rewrite reinsert_Permutation. symmetry. by apply delete_Permutation.
Qed.

Lemma arrayMove_None l (from to : Z) :
  arrayMove l from to = None ↔ l = [] ∨ (Z.of_nat (length l) ≤ from)%Z.
Proof.
  unfold arrayMove, JsArray.splice_remove1, JsArray.relativeStart.
  destruct (l !! _) as [a|] eqn:Hi.
  - split; [done|]. apply lookup_lt_Some in Hi.
    intros [-> | Hge]; simpl in *; [lia|].
    destruct (Z.ltb_spec from 0); lia.
  - split; [|done]. intros _. apply lookup_ge_None in Hi.
    destruct l as [|x l]; [by left|right]. simpl length in *.
    destruct (Z.ltb_spec from 0); lia.
Qed.

Lemma findIndex_range (p : A → bool) l :
  (-1 ≤ JsArray.findIndex p l < Z.of_nat (length l))%Z.
Proof.
  unfold JsArray.findIndex.
  destruct (list_find _ l) as [[i x]|] eqn:Hfind; [|lia].
  apply list_find_Some in Hfind as (Hi%lookup_lt_Some & _). lia.
Qed.
End MoreArrayFacts.

(** ** Filters *)

Section FilterFacts.
Context {A : Type} (P : A → Prop) `{!∀ x, Decision (P x)}.
Implicit Types (l : list A).

Lemma filter_delete_other l (i : nat) a :
  l !! i = Some a → ¬ P a → filter P (delete i l) = filter P l.
Proof.
  intros Hi Hna. rewrite <- (take_drop_middle l i a Hi) at 2.
  rewrite delete_take_drop, !filter_app, filter_cons_False by done. done.
Qed.

Lemma filter_split_at l (i : nat) a :
  l !! i = Some a → P a →
  filter P l = filter P (take i l) ++ a :: filter P (drop (S i) l).
Proof.
  intros Hi Ha. rewrite <- (take_drop_middle l i a Hi) at 1.
  by rewrite filter_app, filter_cons_True.
Qed.

Lemma filter_delete_own l (i : nat) a :
  l !! i = Some a → P a →
  filter P (delete i l) = delete (length (filter P (take i l))) (filter P l).
Proof.
  intros Hi Ha. rewrite (filter_split_at l i a Hi Ha), delete_middle.
  by rewrite delete_take_drop, filter_app.
Qed.

Lemma filter_lookup_own l (i : nat) a :
  l !! i = Some a → P a → filter P l !! length (filter P (take i l)) = Some a.
Proof.
  intros Hi Ha. rewrite (filter_split_at l i a Hi Ha).
  by rewrite lookup_app_r, Nat.sub_diag.
Qed.

Lemma filter_reinsert (r : list A) (j : nat) a :
  P a →
  filter P (take j r ++ a :: drop j r)
  = take (length (filter P (take j r))) (filter P r)
    ++ a :: drop (length (filter P (take j r))) (filter P r).
Proof.
  intros Ha. rewrite filter_app, filter_cons_True by done.
  assert (filter P r = filter P (take j r) ++ filter P (drop j r)) as ->
    by (by rewrite <- filter_app, take_drop).
  by rewrite take_app_length, drop_app_length.
Qed.

Lemma filter_reinsert_other (r : list A) (j : nat) a :
  ¬ P a → filter P (take j r ++ a :: drop j r) = filter P r.
Proof.
  intros Ha. rewrite filter_app, filter_cons_False by done.
  by rewrite <- filter_app, take_drop.
Qed.

(** The column position of the target is the same before and after the
    dragged element is taken out. *)
Lemma filter_take_delete l (i j : nat) a o :
  l !! i = Some a → l !! j = Some o → P a → P o →
  length (filter P (take j (delete i l))) = length (filter P (take j l)).
Proof.
  intros Hi Hj Ha Ho.
  destruct (decide (i < j)) as [Hlt | Hge].
  - assert (take j (delete i l) = delete i (take (S j) l)) as ->.
    { rewrite !delete_take_drop.
      rewrite take_app_ge by (rewrite length_take; apply lookup_lt_Some in Hi; lia).
      rewrite length_take_le by (apply lookup_lt_Some in Hi; lia).
      rewrite take_take, Nat.min_l by lia.
      rewrite take_drop_commute. do 2 f_equal. f_equal. lia. }
    assert (take (S j) l !! i = Some a) as Hi' by (rewrite lookup_take_lt by lia; done).
    rewrite (filter_delete_own _ i a Hi' Ha).
    rewrite length_delete by (rewrite take_take, Nat.min_l by lia;
                              eapply filter_lookup_own in Hi'; eauto;
                              rewrite take_take, Nat.min_l in Hi' by lia; eauto).
    rewrite (take_S_r l j o Hj), filter_app, filter_cons_True, length_app by done.
    simpl. lia.
  - f_equal. f_equal. rewrite delete_take_drop.
    rewrite take_app_le by (rewrite length_take; apply lookup_lt_Some in Hi; lia).
    by rewrite take_take, Nat.min_l by lia.
Qed.

End FilterFacts.

(** ** The board's columns *)

Section ColumnFacts.
Import Board.


End ColumnFacts.


(** A task marked "archived" is listed by the server and shown nowhere. *)
Example archived_task_is_hidden :
  Board.columns (Scenario.board ++ [Cases.archived])
  = [("Permanent", [Scenario.A]); ("Backlog", [Scenario.B; Scenario.C]);
     ("In Progress", [])].
Proof. reflexivity. Qed.

(** ** Dragging, seen from the columns *)

Section DragFacts.
Import Kanban.

(** The list a same-column drag leaves in the state cell. *)
Lemma drag_same_status_result net tasks event overId activeTask overTask :
  over event = Some overId →
  JsArray.find (has_id (active event)) tasks = Some activeTask →
  JsArray.find (has_id overId) tasks = Some overTask →
  Task.status activeTask = Task.status overTask →
  ∃ oldIndex newIndex : nat,
    tasks !! oldIndex = Some activeTask
    ∧ tasks !! newIndex = Some overTask
    ∧ drag net tasks event
      = (Normal (),
         {| tasks_state := Some (take newIndex (delete oldIndex tasks)
                                 ++ activeTask :: drop newIndex (delete oldIndex tasks));
            trace := [] |}).
Proof.
  intros Hover Ha Ho Hst.
  destruct (find_Some_index _ _ _ Ha) as (i & Hi & Hai & _).
  destruct (find_Some_index _ _ _ Ho) as (j & Hj & Hoj & _).
  exists i, j. split_and!; [done..|].
  unfold drag, handleDragEnd. rewrite Hover, Ha, Ho.
  rewrite bool_decide_eq_true_2 by done.
  unfold setTasks, rendered, moveUpdater; simpl. rewrite Hi, Hj.
  by rewrite (arrayMove_in_range _ _ _ _ Hai) by (by eapply lookup_lt_Some).
Qed.
End DragFacts.

(** X2.  A drag within one status moves the card inside its column and
    nowhere else: every other column is exactly as before, and in its own
    column the dragged card is taken out and put back at the position the
    target card had there. *)
Theorem drag_moves_within_column
    (net : Kanban.Network) (tasks : list Task.t) (event : Kanban.DragEndEvent)
    (overId : Z) (activeTask overTask : Task.t) :
  Kanban.over event = Some overId →
  JsArray.find (Kanban.has_id (Kanban.active event)) tasks = Some activeTask →
  JsArray.find (Kanban.has_id overId) tasks = Some overTask →
  Task.status activeTask = Task.status overTask →
  ∃ (tasks' : list Task.t) (from to : nat),
    Kanban.tasks_state (Kanban.drag net tasks event).2 = Some tasks'
    ∧ (∀ status, status ≠ Task.status activeTask →
                 Board.column status tasks' = Board.column status tasks)
    ∧ Board.column (Task.status activeTask) tasks !! from = Some activeTask
    ∧ Board.column (Task.status activeTask) tasks !! to = Some overTask
    ∧ Board.column (Task.status activeTask) tasks'
      = take to (delete from (Board.column (Task.status activeTask) tasks))
        ++ activeTask
        :: drop to (delete from (Board.column (Task.status activeTask) tasks))
    ∧ Board.column (Task.status activeTask) tasks' !! to = Some activeTask.
Proof.
  intros Hover Ha Ho Hst.
  destruct (drag_same_status_result net tasks event overId activeTask overTask
              Hover Ha Ho Hst) as (i & j & Hi & Hj & Hdrag).
  set (s := Task.status activeTask).
  set (P := λ t : Task.t, Task.status t = s).
  assert (P activeTask) as HPa by done.
  assert (P overTask) as HPo by (unfold P, s; congruence).
  set (from := length (filter P (take i tasks))).
  set (to := length (filter P (take j tasks))).
  assert (Board.column s
            (take j (delete i tasks) ++ activeTask :: drop j (delete i tasks))
          = take to (delete from (Board.column s tasks))
            ++ activeTask :: drop to (delete from (Board.column s tasks))) as Hown.
  { unfold Board.column. fold P.
    rewrite (filter_reinsert P _ _ _ HPa).
    rewrite (filter_take_delete P tasks i j activeTask overTask Hi Hj HPa HPo).
    by rewrite (filter_delete_own P tasks i activeTask Hi HPa). }
  eexists _, from, to. rewrite Hdrag. simpl. split_and!.
  - reflexivity.
  - intros status Hother. unfold Board.column.
    rewrite filter_reinsert_other by (intros Heq; by apply Hother).
    apply (filter_delete_other _ tasks i activeTask Hi).
    intros Heq. by apply Hother.
  - apply (filter_lookup_own P tasks i activeTask Hi HPa).
  - apply (filter_lookup_own P tasks j overTask Hj HPo).
  - exact Hown.
  - rewrite Hown. apply reinsert_lookup.
    assert (to < length (Board.column s tasks)) as Hto
      by (eapply lookup_lt_Some; apply (filter_lookup_own P tasks j overTask Hj HPo)).
    rewrite length_delete; [lia|].
    exists activeTask. apply (filter_lookup_own P tasks i activeTask Hi HPa).
Qed.

Lemma drag_moves_within_column_witness :
  ∃ (tasks' : list Task.t) (from to : nat),
    Kanban.tasks_state
      (Kanban.drag Scenario.net_down Scenario.board Scenario.drag_C_on_B).2 = Some tasks'
    ∧ (∀ status, status ≠ "backlog" →
                 Board.column status tasks' = Board.column status Scenario.board)
    ∧ Board.column "backlog" Scenario.board !! from = Some Scenario.C
    ∧ Board.column "backlog" Scenario.board !! to = Some Scenario.B
    ∧ Board.column "backlog" tasks'
      = take to (delete from (Board.column "backlog" Scenario.board))
        ++ Scenario.C :: drop to (delete from (Board.column "backlog" Scenario.board))
    ∧ Board.column "backlog" tasks' !! to = Some Scenario.C.
Proof.
  apply (drag_moves_within_column Scenario.net_down Scenario.board Scenario.drag_C_on_B
           2 Scenario.C Scenario.B); reflexivity.
Defined.

(** X3.  The move updater never loses or duplicates a task, whatever list
    it is applied to: on a list that holds a task it yields a rearrangement
    of that list, also when one of the two ids is no longer there (the
    index [-1] then stands for the last task).  Only on the empty list is
    there nothing to move. *)
Theorem moveUpdater_rearranges (activeId overId : Z) (items : list Task.t) :
  (items = [] → Kanban.moveUpdater activeId overId items = None)
  ∧ (items ≠ [] →
     ∃ items', Kanban.moveUpdater activeId overId items = Some items'
               ∧ items' ≡ₚ items)
  ∧ (items ≠ [] →
     JsArray.find (Kanban.has_id activeId) items = None →
     ∃ last rest,
       items = rest ++ [last]
       ∧ Kanban.moveUpdater activeId overId items
         = arrayMove items (Z.of_nat (length items) - 1) (JsArray.findIndex (Kanban.has_id overId) items)).
Proof.
  split_and!.
  - by intros ->.
  - intros Hne. unfold Kanban.moveUpdater.
    destruct (arrayMove items _ _) as [items'|] eqn:Hmove.
    + exists items'. split; [done|]. by eapply arrayMove_Some_Permutation.
    + apply arrayMove_None in Hmove as [-> | Hge]; [done|].
      pose proof (findIndex_range (Kanban.has_id activeId) items). lia.
  - intros Hne Hnone.
    destruct (exists_last Hne) as (rest & last & ->).
    exists last, rest. split; [done|].
    unfold Kanban.moveUpdater.
    assert (JsArray.findIndex (Kanban.has_id activeId) (rest ++ [last]) = (-1)%Z) as ->.
    { unfold JsArray.find in Hnone. unfold JsArray.findIndex.
      by destruct (list_find _ _) as [[]|]. }
    unfold arrayMove, JsArray.splice_remove1.
    assert (JsArray.relativeStart (Z.of_nat (length (rest ++ [last]))) (-1)
            = JsArray.relativeStart (Z.of_nat (length (rest ++ [last])))
                (Z.of_nat (length (rest ++ [last])) - 1)) as ->; [|done].
    unfold JsArray.relativeStart. rewrite length_app. simpl length.
    destruct (Z.ltb_spec (-1) 0) as [_|?]; [|lia].
    destruct (Z.ltb_spec (Z.of_nat (length rest + 1) - 1) 0) as [?|_]; lia.
Qed.

(** ** Task events and sample tasks *)

Section BoardFacts.
Import Board.

Lemma truthy_get (v : Js.Value) key :
  Js.truthy v = true → ∃ x, Js.get v key = Normal x.
Proof. destruct v; simpl; eauto; done. Qed.

(** The posts of a list of tasks, as they appear in the trace. *)
Lemma post_each_all_resolved api (tasks : list NewTask) w :
  Forall (λ task, post_task api task ≠ None) tasks →
  post_each api tasks w
  = (Normal (),
     {| Http.cells := Http.cells w;
        Http.trace := Http.trace w ++ ((λ task, Http.Fetch (PostTask task)) <$> tasks) |}).
Proof.
  revert w. induction tasks as [|task tasks IH]; intros w Hall; simpl.
  - rewrite app_nil_r. by destruct w.
  - apply Forall_cons in Hall as [Hpost Hall].
    unfold Http.bind, Http.fetch.
    destruct (post_task api task) as [r|] eqn:Hr; [|done].
    rewrite (IH _ Hall). simpl. by rewrite <- app_assoc.
Qed.

Lemma post_each_first_rejected api (sent : list NewTask) task rest w :
  Forall (λ task, post_task api task ≠ None) sent →
  post_task api task = None →
  post_each api (sent ++ task :: rest) w
  = (Abrupt "TypeError: Failed to fetch",
     {| Http.cells := Http.cells w;
        Http.trace := Http.trace w
                      ++ ((λ task, Http.Fetch (PostTask task)) <$> sent ++ [task]) |}).
Proof.
  revert w. induction sent as [|s sent IH]; intros w Hall Hrej; simpl.
  - unfold Http.bind, Http.fetch. by rewrite Hrej.
  - apply Forall_cons in Hall as [Hpost Hall].
    unfold Http.bind at 1, Http.fetch at 1.
    destruct (post_task api s) as [r|] eqn:Hr; [|done].
    rewrite (IH _ Hall Hrej). simpl. by rewrite <- app_assoc.
Qed.
End BoardFacts.

(** X4.  The board asks for the task list again exactly on the messages
    of type [task_created], [task_updated] and [task_deleted]: there the
    effect is [fetchTasks], and on every other value (no message yet, any
    other type, no type at all) it issues no request, leaves the list alone
    and does not throw. *)
Theorem board_refetches_on_task_events
    (net : Kanban.Network) (wsData : Js.Value) (w : Kanban.World) :
  (Activity.has_type wsData "task_created" = Normal true
   ∨ Activity.has_type wsData "task_updated" = Normal true
   ∨ Activity.has_type wsData "task_deleted" = Normal true →
   Board.wsDataEffect net wsData w = Kanban.fetchTasks net w)
  ∧ (Activity.has_type wsData "task_created" = Normal false →
     Activity.has_type wsData "task_updated" = Normal false →
     Activity.has_type wsData "task_deleted" = Normal false →
     Board.wsDataEffect net wsData w = (Normal (), w))
  ∧ (∃ created updated deleted,
       Activity.has_type wsData "task_created" = Normal created
       ∧ Activity.has_type wsData "task_updated" = Normal updated
       ∧ Activity.has_type wsData "task_deleted" = Normal deleted)
  ∧ ∃ w', Board.wsDataEffect net wsData w = (Normal (), w').
Proof.
  assert (∃ created updated deleted,
            Activity.has_type wsData "task_created" = Normal created
            ∧ Activity.has_type wsData "task_updated" = Normal updated
            ∧ Activity.has_type wsData "task_deleted" = Normal deleted) as Htotal.
  { destruct (has_type_total wsData "task_created") as [c Hc].
    destruct (has_type_total wsData "task_updated") as [u Hu].
    destruct (has_type_total wsData "task_deleted") as [d Hd]. eauto 10. }
  unfold Board.wsDataEffect, Activity.has_type in *.
  destruct (Js.truthy wsData) eqn:Htruthy.
  - destruct (truthy_get wsData "type" Htruthy) as [type Htype].
    rewrite Htype in *. simpl in *. split_and!.
    + intros [[= ->] | [[= ->] | [= ->]]]; by rewrite ?orb_true_r.
    + by intros [= ->] [= ->] [= ->].
    + exact Htotal.
    + destruct (_ || _); [|by eexists].
      destruct (fetchTasks_trace net w) as (cell & rest & ->). by eexists.
  - simpl in *. split_and!.
    + by intros [[=] | [[=] | [=]]].
    + done.
    + exact Htotal.
    + by eexists.
Qed.

Example board_ignores_task_completed :
  Board.wsDataEffect Scenario.net_up (Cases.task_event "task_completed")
    (Kanban.rendered Scenario.board)
  = (Normal (), Kanban.rendered Scenario.board).
Proof. reflexivity. Qed.

(** X5.  [createSampleTasks] posts the samples in their order and awaits
    each one.  When every post resolves, with whatever status, the list is
    fetched afterwards.  When a post rejects, nothing catches it: the
    later samples are not posted, the list is not fetched, the local list
    is untouched and the rejection leaves the function. *)
Theorem createSampleTasks_stops_at_rejection
    (api : Board.Backend) (w : Http.World Board.Request (option (list Task.t))) :
  (Forall (λ task, Board.post_task api task ≠ None) Board.sampleTasks →
   Board.createSampleTasks api w
   = Board.call (Kanban.fetchTasks (Board.tasks_api api))
       {| Http.cells := Http.cells w;
          Http.trace := Http.trace w
                        ++ ((λ task, Http.Fetch (Board.PostTask task))
                              <$> Board.sampleTasks) |})
  ∧ (∀ sent task rest,
       Board.sampleTasks = sent ++ task :: rest →
       Forall (λ task, Board.post_task api task ≠ None) sent →
       Board.post_task api task = None →
       Board.createSampleTasks api w
       = (Abrupt "TypeError: Failed to fetch",
          {| Http.cells := Http.cells w;
             Http.trace := Http.trace w
                           ++ ((λ task, Http.Fetch (Board.PostTask task))
                                 <$> sent ++ [task]) |})).
Proof.
  unfold Board.createSampleTasks, Http.bind. split.
  - intros Hall. by rewrite (post_each_all_resolved api _ w Hall).
  - intros sent task rest -> Hall Hrej.
    by rewrite (post_each_first_rejected api sent task rest w Hall Hrej).
Qed.

Example createSampleTasks_third_post_fails :
  Board.createSampleTasks Cases.third_post_fails Cases.board_world
  = (Abrupt "TypeError: Failed to fetch",
     {| Http.cells := Some Scenario.board;
        Http.trace := (λ task, Http.Fetch (Board.PostTask task))
                        <$> take 3 Board.sampleTasks |}).
Proof. reflexivity. Qed.

Example createSampleTasks_error_statuses_pass :
  Board.createSampleTasks Cases.posts_answered Cases.board_world
  = (Normal (),
     {| Http.cells := Some [Scenario.task 1 "A" "backlog"; Scenario.B; Scenario.C];
        Http.trace := ((λ task, Http.Fetch (Board.PostTask task)) <$> Board.sampleTasks)
                      ++ [Http.Fetch (Board.Tasks Kanban.GetTasks)] |}).
Proof. reflexivity. Qed.

(** X6.  A drag between two statuses changes nothing locally: afterwards
    the state cell holds either the list as it was or the list the server
    sent in answer to the refetch.  When the update is answered, even with
    an error status, and the list request succeeds, nothing is logged. *)
Theorem cross_status_drag_is_not_optimistic
    (net : Kanban.Network) (tasks : list Task.t) (event : Kanban.DragEndEvent)
    (overId : Z) (activeTask overTask : Task.t) :
  Kanban.over event = Some overId →
  JsArray.find (Kanban.has_id (Kanban.active event)) tasks = Some activeTask →
  JsArray.find (Kanban.has_id overId) tasks = Some overTask →
  Task.status activeTask ≠ Task.status overTask →
  (Kanban.tasks_state (Kanban.drag net tasks event).2 = Some tasks
   ∨ ∃ response data,
       net Kanban.GetTasks = Some response ∧ Kanban.json response = Some data
       ∧ Kanban.tasks_state (Kanban.drag net tasks event).2 = Some data)
  ∧ (∀ answer response data,
       net (Kanban.PutTask (Kanban.active event) [("status", Task.status overTask)])
       = Some answer →
       net Kanban.GetTasks = Some response → Kanban.json response = Some data →
       Kanban.drag net tasks event
       = (Normal (),
          {| Kanban.tasks_state := Some data;
             Kanban.trace :=
               [Kanban.Fetch (Kanban.PutTask (Kanban.active event)
                                [("status", Task.status overTask)]);
                Kanban.Fetch Kanban.GetTasks] |})).
Proof.
  intros Hover Ha Ho Hst.
  assert (Kanban.drag net tasks event
          = Kanban.updateTaskStatus net (Kanban.active event) (Task.status overTask)
              (Kanban.rendered tasks)) as ->.
  { unfold Kanban.drag, Kanban.handleDragEnd. rewrite Hover, Ha, Ho.
    by rewrite bool_decide_eq_false_2. }
  destruct (net (Kanban.PutTask _ _)) as [answer|] eqn:Hput.
  - rewrite (updateTaskStatus_resolved _ _ _ _ _ Hput).
    unfold Kanban.fetchTasks, Kanban.try_catch, Kanban.bind, Kanban.fetch,
      Kanban.response_json.
    destruct (net Kanban.GetTasks) as [response|] eqn:Hget; simpl.
    + destruct (Kanban.json response) as [data|] eqn:Hjson; simpl.
      * split; [right; eauto|].
        intros ? ? ? _ [= <-] Hdata. rewrite Hjson in Hdata. by injection Hdata as <-.
      * split; [by left|].
        intros ? ? ? _ [= <-] Hdata. by rewrite Hjson in Hdata.
    + split; [by left|]. by intros.
  - rewrite (updateTaskStatus_rejected _ _ _ _ Hput). simpl.
    split; [by left|]. by intros.
Qed.

Lemma cross_status_drag_is_not_optimistic_witness :
  Kanban.drag Scenario.net_refusing Scenario.board Scenario.drag_A_on_C
  = (Normal (),
     {| Kanban.tasks_state := Some Scenario.board;
        Kanban.trace := [Kanban.Fetch (Kanban.PutTask 1 [("status", "backlog")]);
                         Kanban.Fetch Kanban.GetTasks] |}).
Proof.
  destruct (cross_status_drag_is_not_optimistic Scenario.net_refusing Scenario.board
              Scenario.drag_A_on_C 3 Scenario.A Scenario.C) as [_ Hsilent];
    [reflexivity | reflexivity | reflexivity | discriminate |].
  exact (Hsilent _ _ _ eq_refl eq_refl eq_refl).
Defined.

(** ** The feed: what it accepts and what it can show *)

Section FeedFacts.
Import Activity.

Lemma or_else_truthy (v d : Js.Value) :
  Js.truthy d = true → Js.truthy (Js.or_else v d) = true.
Proof. intros Hd. unfold Js.or_else. by destruct (Js.truthy v) eqn:Hv. Qed.

Lemma get_nullish (v : Js.Value) key :
  (∃ e, Js.get v key = Abrupt e) ↔ v = Js.Undefined ∨ v = Js.Null.
Proof.
  split.
  - intros [e He]. destruct v; simpl in He; try done; eauto.
  - intros [-> | ->]; simpl; eauto.
Qed.

(** A feed event puts an entry in front and cuts the list to twenty. *)
Lemma wsDataEffect_entry clock wsData (prev next : list Js.Value) :
  has_type wsData "activity_created" = Normal true
  ∨ has_type wsData "ingest_received" = Normal true →
  wsDataEffect clock wsData prev = Normal next →
  ∃ entry, next = JsArray.slice0 20 (entry :: prev).
Proof.
  unfold wsDataEffect. intros [Hc | Hi].
  - rewrite Hc. cbn [mbind Completion_bind].
    destruct (Js.get wsData "data") as [data|]; cbn [mbind Completion_bind]; [|done].
    intros [= <-]. by exists data.
  - rewrite (has_type_other _ _ "activity_created" Hi) by done.
    cbn [mbind Completion_bind]. rewrite Hi. cbn [mbind Completion_bind].
    destruct (newActivity clock wsData) as [entry|]; cbn [mbind Completion_bind]; [|done].
    intros [= <-]. by exists entry.
Qed.

Lemma row_total D now (activity : Js.Value) :
  (∃ r, Feed.row D now activity = Normal r)
  ↔ activity ≠ Js.Undefined ∧ activity ≠ Js.Null.
Proof.
  split.
  - intros [r Hr]. split; intros ->; by simpl in Hr.
  - intros [Hu Hn]. unfold Feed.row.
    destruct (get_total activity "id" Hu Hn) as [? ->].
    destruct (get_total activity "type" Hu Hn) as [? ->].
    destruct (get_total activity "message" Hu Hn) as [? ->].
    destruct (get_total activity "agent_name" Hu Hn) as [? ->].
    destruct (get_total activity "created_at" Hu Hn) as [? ->].
    simpl. eauto.
Qed.

Lemma rows_total D now (activities : list Js.Value) :
  (∃ rs, Feed.rows D now activities = Normal rs)
  ↔ Forall (λ activity, activity ≠ Js.Undefined ∧ activity ≠ Js.Null) activities.
Proof.
  induction activities as [|a l IH]; simpl.
  - split; [by intros | by eexists].
  - rewrite Forall_cons, <- IH, <- (row_total D now a). split.
    + intros [rs Hrs].
      destruct (Feed.row D now a) as [r|]; [|done].
      destruct (Feed.rows D now l) as [rs'|]; [|done]. eauto.
    + intros [[r ->] [rs ->]]. eauto.
Qed.
End FeedFacts.

(** X7.  The feed's effect throws on one kind of message only: an
    [ingest_received] whose [data] is [undefined] or [null].  A value that
    is neither an [activity_created] nor an [ingest_received] message (no
    message yet, another type) leaves the list as it is. *)
Theorem feed_effect_failure
    (clock : Activity.Clock) (wsData : Js.Value) (prev : list Js.Value) :
  ((∃ e, Activity.wsDataEffect clock wsData prev = Abrupt e)
   ↔ Activity.has_type wsData "ingest_received" = Normal true
     ∧ (Js.get wsData "data" = Normal Js.Undefined
        ∨ Js.get wsData "data" = Normal Js.Null))
  ∧ (Activity.has_type wsData "activity_created" = Normal false →
     Activity.has_type wsData "ingest_received" = Normal false →
     Activity.wsDataEffect clock wsData prev = Normal prev).
Proof.
  split.
  - unfold Activity.wsDataEffect.
    destruct (has_type_total wsData "activity_created") as [[] Hc]; rewrite Hc; simpl.
    + pose proof (has_type_other _ _ "ingest_received" Hc ltac:(done)) as Hi.
      rewrite Hi. apply has_type_true in Hc as [Htruthy _].
      destruct (truthy_get wsData "data" Htruthy) as [data ->]. simpl.
      split; [by intros [e He] | by intros [? _]].
    + destruct (has_type_total wsData "ingest_received") as [[] Hi]; rewrite Hi; simpl.
      * pose proof Hi as [Htruthy _]%has_type_true.
        destruct (truthy_get wsData "data" Htruthy) as [data Hdata].
        unfold Activity.newActivity. rewrite Hdata. simpl. split.
        -- intros [e He]. split; [done|].
           destruct data; simpl in He; try done; eauto.
        -- intros [_ [[= ->] | [= ->]]]; simpl; eauto.
      * split; [by intros [e He] | by intros [? _]].
  - intros Hc Hi. unfold Activity.wsDataEffect. rewrite Hc. simpl. by rewrite Hi.
Qed.

(** X8.  An entry accepted from a feed message brings the list to exactly
    [min 20 (1 + n)] entries, whatever its length [n] was: a list that the
    server sent longer than twenty entries is cut to twenty by the next
    entry, and a shorter one grows by one. *)
Theorem feed_length_after_entry
    (clock : Activity.Clock) (wsData : Js.Value) (prev next : list Js.Value) :
  Activity.has_type wsData "activity_created" = Normal true
  ∨ Activity.has_type wsData "ingest_received" = Normal true →
  Activity.wsDataEffect clock wsData prev = Normal next →
  length next = Nat.min 20 (S (length prev))
  ∧ (20 ≤ length prev → length next = 20)
  ∧ (length prev < 20 → length next = S (length prev)).
Proof.
  intros Hkind Hstep.
  destruct (wsDataEffect_entry clock wsData prev next Hkind Hstep) as [entry ->].
  unfold JsArray.slice0. rewrite length_take. simpl length. lia.
Qed.

Lemma feed_length_after_entry_witness :
  length (Js.object [("id", Js.Num 41); ("message", Js.Str "done")]
            :: take 19 (Scenario.feed_full ++ Scenario.feed_full))
  = Nat.min 20 (S (length (Scenario.feed_full ++ Scenario.feed_full))).
Proof.
  refine (proj1 (feed_length_after_entry Scenario.clock (Scenario.activity_created 41)
                   (Scenario.feed_full ++ Scenario.feed_full)
                   (Js.object [("id", Js.Num 41); ("message", Js.Str "done")]
                      :: take 19 (Scenario.feed_full ++ Scenario.feed_full)) _ _));
    [by left | reflexivity].
Defined.

(** X9.  The rows of the list can be built exactly when no entry is
    [undefined] or [null].  The feed does not check what an
    [activity_created] message carries: without [data] the effect accepts
    [undefined] as the newest entry, and building the rows then throws, so
    the list can no longer be rendered. *)
Theorem feed_accepts_what_it_cannot_render
    (D : Activity.Dates) (now : Z) (clock : Activity.Clock)
    (wsData : Js.Value) (prev : list Js.Value) :
  ((∃ rs, Feed.rows D now prev = Normal rs)
   ↔ Forall (λ activity, activity ≠ Js.Undefined ∧ activity ≠ Js.Null) prev)
  ∧ (Activity.has_type wsData "activity_created" = Normal true →
     ∀ data, Js.get wsData "data" = Normal data →
             data = Js.Undefined ∨ data = Js.Null →
             Activity.wsDataEffect clock wsData prev = Normal (data :: take 19 prev)
             ∧ ∃ e, Feed.rows D now (data :: take 19 prev) = Abrupt e).
Proof.
  split; [apply rows_total|].
  intros Hc data Hdata Hnullish. split.
  - unfold Activity.wsDataEffect. rewrite Hc. simpl. by rewrite Hdata.
  - destruct (Feed.rows D now (data :: take 19 prev)) as [rs|e] eqn:Hrows; [|eauto].
    assert (∃ rs, Feed.rows D now (data :: take 19 prev) = Normal rs) as Hex by eauto.
    apply rows_total, Forall_cons in Hex as [[Hu Hn] _].
    by destruct Hnullish.
Qed.

Example activity_without_data_breaks_the_list :
  Activity.wsDataEffect Scenario.clock Cases.activity_without_data [] = Normal [Js.Undefined]
  ∧ Feed.rows Sample.dates 1735689600000 [Js.Undefined]
    = Abrupt "TypeError: Cannot read properties of undefined".
Proof. split; reflexivity. Qed.

(** Reading the fields back from an entry literal. *)
Lemma entry_fields (id type message agent_name created_at : Js.Value) :
  let entry := Js.object [("id", id); ("type", type); ("message", message);
                          ("agent_name", agent_name); ("created_at", created_at)] in
  Js.get entry "id" = Normal id
  ∧ Js.get entry "type" = Normal type
  ∧ Js.get entry "message" = Normal message
  ∧ Js.get entry "agent_name" = Normal agent_name
  ∧ Js.get entry "created_at" = Normal created_at.
Proof. cbv zeta. split_and!; reflexivity. Qed.

(** X10.  The row of an entry synthesized for an [ingest_received]
    message is always built, and it is determined by the payload: its key
    is the clock reading, its icon is the one of the payload's [type], the
    info icon when that is falsy, its message and badge are the payload's
    [message] and [agent_name] or their defaults, so neither is ever
    falsy, and its time is the one of the clock reading. *)
Theorem synthesized_entry_row
    (D : Activity.Dates) (now : Z) (clock : Activity.Clock) (wsData entry : Js.Value) :
  Activity.newActivity clock wsData = Normal entry →
  ∃ data type message agent_name,
    Js.get wsData "data" = Normal data
    ∧ Js.get data "type" = Normal type
    ∧ Js.get data "message" = Normal message
    ∧ Js.get data "agent_name" = Normal agent_name
    ∧ Feed.row D now entry
      = Normal
          {| Feed.key := Js.Num (Activity.Date_now clock);
             Feed.icon := if Js.truthy type then Feed.getIcon type else Feed.Info;
             Feed.message := if Js.truthy message then message
                             else Js.Str "Data ingested from agent";
             Feed.badge := Feed.Badge (if Js.truthy agent_name then agent_name
                                       else Js.Str "Unknown");
             Feed.time := Activity.formatTime D now
                            (Js.Str (Activity.now_toISOString clock)) |}
    ∧ Js.truthy (if Js.truthy message then message
                 else Js.Str "Data ingested from agent") = true
    ∧ Js.truthy (if Js.truthy agent_name then agent_name else Js.Str "Unknown") = true.
Proof.
  unfold Activity.newActivity.
  destruct (Js.get wsData "data") as [data|] eqn:Hdata;
    cbn [mbind Completion_bind]; [|done].
  destruct (Js.get data "type") as [type|] eqn:Hpayload_type;
    cbn [mbind Completion_bind]; [|done].
  destruct (Js.get data "message") as [message|] eqn:Hpayload_message;
    cbn [mbind Completion_bind]; [|done].
  destruct (Js.get data "agent_name") as [agent_name|] eqn:Hpayload_name;
    cbn [mbind Completion_bind mret Completion_ret]; [|done].
  intros [= <-].
  pose proof (or_else_truthy agent_name (Js.Str "Unknown") eq_refl) as Hagent.
  pose proof (or_else_truthy message (Js.Str "Data ingested from agent") eq_refl)
    as Hmessage_truthy.
  destruct (entry_fields (Js.Num (Activity.Date_now clock))
              (Js.or_else type (Js.Str "info"))
              (Js.or_else message (Js.Str "Data ingested from agent"))
              (Js.or_else agent_name (Js.Str "Unknown"))
              (Js.Str (Activity.now_toISOString clock)))
    as (Hid & Htype & Hmessage & Hname & Hcreated).
  exists data, type, message, agent_name.
  unfold Feed.row. rewrite Hid, Htype, Hmessage, Hname, Hcreated.
  cbn [mbind Completion_bind mret Completion_ret]. rewrite Hagent.
  clear Hid Htype Hmessage Hname Hcreated. unfold Js.or_else in *.
  split_and!; try done.
  by destruct (Js.truthy type).
Qed.

Lemma synthesized_entry_row_witness :
  ∃ data type message agent_name,
    Js.get Cases.ingest_named "data" = Normal data
    ∧ Js.get data "type" = Normal type
    ∧ Js.get data "message" = Normal message
    ∧ Js.get data "agent_name" = Normal agent_name
    ∧ Feed.row Sample.dates 1735689630000
        (Js.object [
           ("id", Js.Num 1735689600000);
           ("type", Js.Str "success");
           ("message", Js.Str "Task completed");
           ("agent_name", Js.Str "MyAgent");
           ("created_at", Js.Str "2025-01-01T00:00:00.000Z") ])
      = Normal
          {| Feed.key := Js.Num (Activity.Date_now Scenario.clock);
             Feed.icon := if Js.truthy type then Feed.getIcon type else Feed.Info;
             Feed.message := if Js.truthy message then message
                             else Js.Str "Data ingested from agent";
             Feed.badge := Feed.Badge (if Js.truthy agent_name then agent_name
                                       else Js.Str "Unknown");
             Feed.time := Activity.formatTime Sample.dates 1735689630000
                            (Js.Str (Activity.now_toISOString Scenario.clock)) |}
    ∧ Js.truthy (if Js.truthy message then message
                 else Js.Str "Data ingested from agent") = true
    ∧ Js.truthy (if Js.truthy agent_name then agent_name else Js.Str "Unknown") = true.
Proof.
  apply (synthesized_entry_row Sample.dates 1735689630000 Scenario.clock
           Cases.ingest_named). reflexivity.
Defined.

(** A payload without [type]: the info icon. *)
Example ingest_empty_row :
  (entry ← Activity.newActivity Scenario.clock Scenario.ingest_empty;
   Feed.row Sample.dates 1735689630000 entry)
  = Normal {| Feed.key := Js.Num 1735689600000; Feed.icon := Feed.Info;
              Feed.message := Js.Str "Data ingested from agent";
              Feed.badge := Feed.Badge (Js.Str "Unknown"); Feed.time := "Just now" |}.
Proof. reflexivity. Qed.

Example ingest_named_row :
  (entry ← Activity.newActivity Scenario.clock Cases.ingest_named;
   Feed.row Sample.dates 1735689630000 entry)
  = Normal {| Feed.key := Js.Num 1735689600000; Feed.icon := Feed.CheckCircle;
              Feed.message := Js.Str "Task completed";
              Feed.badge := Feed.Badge (Js.Str "MyAgent"); Feed.time := "Just now" |}.
Proof. reflexivity. Qed.

(** X11.  The number [formatTime] prints is never out of its unit's
    range: between 1 and 59 in front of "m ago" and between 1 and 23 in
    front of "h ago".  A date in the future reads "Just now", and a missing
    or empty date string gives the empty text. *)
Theorem formatTime_number_range
    (D : Activity.Dates) (now t : Z) (dateString : Js.Value) :
  Js.truthy dateString = true →
  Activity.Date_of D dateString = Some t →
  ((60000 ≤ now - t < 3600000)%Z →
   ∃ minutes, (1 ≤ minutes ≤ 59)%Z
              ∧ Activity.formatTime D now dateString = decimal minutes +:+ "m ago")
  ∧ ((3600000 ≤ now - t < 86400000)%Z →
     ∃ hours, (1 ≤ hours ≤ 23)%Z
              ∧ Activity.formatTime D now dateString = decimal hours +:+ "h ago")
  ∧ ((now < t)%Z → Activity.formatTime D now dateString = "Just now")
  ∧ (∀ missing, Js.truthy missing = false → Activity.formatTime D now missing = "").
Proof.
  intros Htruthy Hdate.
  rewrite (formatTime_valid D now t dateString Htruthy Hdate). split_and!.
  - intros Hel. exists ((now - t) / 60000)%Z. split.
    + split; [apply Z.div_le_lower_bound | apply Z.lt_succ_r, Z.div_lt_upper_bound]; lia.
    + rewrite (proj2 (Z.ltb_ge _ _)) by lia. by rewrite (proj2 (Z.ltb_lt _ _)) by lia.
  - intros Hel. exists ((now - t) / 3600000)%Z. split.
    + split; [apply Z.div_le_lower_bound | apply Z.lt_succ_r, Z.div_lt_upper_bound]; lia.
    + rewrite !(proj2 (Z.ltb_ge _ _)) by lia. by rewrite (proj2 (Z.ltb_lt _ _)) by lia.
  - intros Hfuture. by rewrite (proj2 (Z.ltb_lt _ _)) by lia.
  - intros missing Hfalsy. unfold Activity.formatTime. by rewrite Hfalsy.
Qed.

Lemma formatTime_number_range_witness :
  Activity.formatTime Sample.dates 1735689600000 (Js.Str "2025-01-01T00:00:05.000Z")
  = "Just now".
Proof.
  apply (formatTime_number_range Sample.dates 1735689600000 1735689605000
           (Js.Str "2025-01-01T00:00:05.000Z")); reflexivity.
Defined.

(** ** The connection manager: invariants *)

Section ConnectionFacts.
Import App Connections.
Implicit Types (H : Host) (st : State).

Lemma live_insert st (s : nat) (old new : ReadyState) :
  sockets st !! s = Some old →
  live (with_sockets (<[s := new]> (sockets st)) st)
  + (if decide (old ≠ CLOSED) then 1 else 0)
  = live st + (if decide (new ≠ CLOSED) then 1 else 0).
Proof.
  intros Hs. unfold live. simpl.
  rewrite insert_take_drop by (by eapply lookup_lt_Some).
  rewrite <- (take_drop_middle (sockets st) s old Hs) at 3.
  rewrite !filter_app, !filter_cons, !length_app.
  repeat case_decide; simpl; lia.
Qed.

Lemma connectWebSocket_counts H st :
  live (connectWebSocket H st) ≤ S (live st)
  ∧ timers (connectWebSocket H st) = timers st
  ∧ isConnected (connectWebSocket H st) = isConnected st.
Proof.
  unfold connectWebSocket, live.
  destruct (WebSocket_throws H (attempts st)); simpl;
    (split_and!; [|done..]); [lia|].
  rewrite filter_app, length_app, filter_cons, filter_nil.
  case_decide; simpl; lia.
Qed.

Lemma fired_counts H (ready : list Timer) st :
  live (foldl (λ acc t, call H (callback t) acc) st ready) ≤ live st + length ready
  ∧ timers (foldl (λ acc t, call H (callback t) acc) st ready) = timers st
  ∧ isConnected (foldl (λ acc t, call H (callback t) acc) st ready) = isConnected st.
Proof.
  revert st. induction ready as [|t ready IH]; intros st; simpl;
    [split_and!; [lia | done..]|].
  destruct (IH (call H (callback t) st)) as (Hl & Ht & Hc).
  destruct (callback t). simpl in *.
  destruct (connectWebSocket_counts H st) as (Hl' & Ht' & Hc').
  rewrite Ht, Hc. split_and!; [lia | done | done].
Qed.

Lemma due_split (now : Z) (ts : list Timer) :
  length (filter (λ t, is_due now t = true) ts)
  + length (filter (λ t, is_due now t = false) ts) = length ts.
Proof.
  induction ts as [|t ts IH]; [done|].
  rewrite !filter_cons. destruct (is_due now t); simpl; lia.
Qed.

(** One event: the sockets alive and the timeouts pending, taken
    together, grow by at most the one connection a mount opens. *)
Lemma step_counts H st ev :
  live (step H st ev) + length (timers (step H st ev))
  ≤ live st + length (timers st) + (if decide (ev = Mount) then 1 else 0).
Proof.
  destruct ev as [| |s|s data|s|s|ms]; simpl.
  - destruct (connectWebSocket_counts H (with_mounted true st)) as (Hl & Ht & _).
    rewrite Ht. unfold live in *. simpl in *. lia.
  - unfold cleanup, close.
    destruct (wsRef st) as [s|]; [|unfold live; simpl; lia].
    destruct (sockets st !! s) as [[]|] eqn:Hs; try (unfold live; simpl; lia).
    + pose proof (live_insert st s _ CLOSING Hs) as Hlive.
      rewrite !decide_True in Hlive by done. unfold live in *. simpl in *. lia.
    + pose proof (live_insert st s _ CLOSING Hs) as Hlive.
      rewrite !decide_True in Hlive by done. unfold live in *. simpl in *. lia.
  - destruct (sockets st !! s) as [[]|] eqn:Hs; try lia.
    pose proof (live_insert st s _ OPEN Hs) as Hlive.
    rewrite !decide_True in Hlive by done. unfold live in *. simpl in *. lia.
  - destruct (sockets st !! s) as [[]|]; try lia.
    unfold onmessage. destruct (JSON_parse H data); unfold live; simpl; lia.
  - destruct (sockets st !! s) as [[]|]; unfold live; simpl; lia.
  - destruct (sockets st !! s) as [rs|] eqn:Hs; [|lia].
    assert (rs = CLOSED ∨ rs ≠ CLOSED) as [-> | Hrs] by (destruct rs; eauto); [lia|].
    pose proof (live_insert st s rs CLOSED Hs) as Hlive.
    rewrite decide_True, decide_False in Hlive by (done || by intros []).
    assert (live (onclose (with_sockets (<[s:=CLOSED]> (sockets st)) st))
            + 1 = live st) as Hclose by (unfold live in *; simpl in *; lia).
    assert (length (timers (onclose (with_sockets (<[s:=CLOSED]> (sockets st)) st)))
            = S (length (timers st))) as Htimers
      by (simpl; rewrite length_app; simpl; lia).
    destruct rs; try done; lia.
  - unfold elapse.
    destruct (fired_counts H
                (filter (λ t, is_due (clock st + Z.of_N ms) t = true) (timers st))
                (with_timers
                   (filter (λ t, is_due (clock st + Z.of_N ms) t = false) (timers st))
                   (clock st + Z.of_N ms) st)) as (Hl & Ht & _).
    rewrite Ht. pose proof (due_split (clock st + Z.of_N ms) (timers st)).
    unfold live in *. simpl in *. lia.
Qed.
End ConnectionFacts.

(** X12.  Reconnection never overlaps: at every point of every run, the
    sockets that are not closed and the pending retries number, together,
    at most as many as the component was mounted.  Mounted once, the
    manager holds one connection or one pending retry, never both. *)
Theorem connections_bounded_by_mounts (H : App.Host) (events : list App.Event) :
  Connections.live (App.run H App.initial events)
  + length (App.timers (App.run H App.initial events))
  ≤ Connections.mounts events.
Proof.
  assert (∀ st,
            Connections.live (App.run H st events)
            + length (App.timers (App.run H st events))
            ≤ Connections.live st + length (App.timers st) + Connections.mounts events)
    as Hgen.
  { induction events as [|ev events IH]; intros st; [simpl; lia|].
    unfold App.run in *. simpl foldl. specialize (IH (App.step H st ev)).
    pose proof (step_counts H st ev) as Hstep.
    unfold Connections.mounts in *. rewrite filter_cons.
    destruct (decide (ev = App.Mount)); simpl length; lia. }
  apply (Hgen App.initial).
Qed.

Section IndicatorFacts.
Import App Connections.
Implicit Types (H : Host) (st : State).

Lemma live_all_closed (l : list ReadyState) :
  Forall (λ rs, rs = CLOSED) l → length (filter (λ rs, rs ≠ CLOSED) l) = 0.
Proof.
  induction 1 as [|x l -> _ IH]; [done|].
  by rewrite filter_cons, decide_False by (by intros []).
Qed.

Lemma backed_connect H st : backed st → backed (connectWebSocket H st).
Proof.
  unfold backed, connectWebSocket.
  destruct (WebSocket_throws H (attempts st)); simpl; [done|].
  intros Hb Hc. destruct (Hb Hc) as (s & rs & Hs & Hrs).
  exists s, rs. split; [|done]. by apply lookup_app_l_Some.
Qed.

Lemma backed_fired H (ready : list Timer) st :
  backed st → backed (foldl (λ acc t, call H (callback t) acc) st ready).
Proof.
  revert st. induction ready as [|t ready IH]; intros st Hb; [done|].
  simpl. apply IH. destruct (callback t). by apply backed_connect.
Qed.

Lemma backed_step H st ev : backed st → backed (step H st ev).
Proof.
  intros Hb. destruct ev as [| |s|s data|s|s|ms]; simpl.
  - apply backed_connect. exact Hb.
  - unfold cleanup, close. intros Hc. simpl in Hc.
    assert (isConnected st = true) as Hc'.
    { destruct (wsRef st) as [s|]; [|done].
      by destruct (sockets st !! s) as [[]|]. }
    destruct (Hb Hc') as (s' & rs & Hs' & Hrs).
    destruct (wsRef st) as [s|]; [|by eauto].
    destruct (sockets st !! s) as [[]|] eqn:Hs; simpl; eauto.
    + destruct (decide (s = s')) as [-> | Hne].
      * exists s', CLOSING. split; [|by right].
        apply list_lookup_insert_eq. by eapply lookup_lt_Some.
      * exists s', rs. by rewrite list_lookup_insert_ne.
    + destruct (decide (s = s')) as [-> | Hne].
      * exists s', CLOSING. split; [|by right].
        apply list_lookup_insert_eq. by eapply lookup_lt_Some.
      * exists s', rs. by rewrite list_lookup_insert_ne.
  - destruct (sockets st !! s) as [[]|] eqn:Hs; try done.
    intros _. exists s, OPEN. split; [|by left]. simpl.
    apply list_lookup_insert_eq. by eapply lookup_lt_Some.
  - destruct (sockets st !! s) as [[]|]; try done.
    unfold onmessage. by destruct (JSON_parse H data).
  - by destruct (sockets st !! s) as [[]|].
  - by destruct (sockets st !! s) as [[]|].
  - unfold elapse. by apply backed_fired.
Qed.

(** In a quiescent state no socket event has a socket to come from and no
    timeout is left to fire. *)
Lemma quiescent_step H st ev :
  quiescent st → ev ≠ Mount →
  quiescent (step H st ev)
  ∧ attempts (step H st ev) = attempts st
  ∧ sockets (step H st ev) = sockets st
  ∧ isConnected (step H st ev) = isConnected st
  ∧ wsData (step H st ev) = wsData st.
Proof.
  intros [Hclosed Htimers] Hev.
  assert (∀ s rs, sockets st !! s = Some rs → rs = CLOSED) as Hall.
  { intros s rs Hs. by eapply (Forall_lookup_1 _ _ _ _ Hclosed). }
  unfold quiescent.
  destruct ev as [| |s|s data|s|s|ms]; simpl; [done|..].
  - unfold cleanup, close. destruct (wsRef st) as [s|]; [|done].
    destruct (sockets st !! s) as [rs|] eqn:Hs; [|done].
    by rewrite (Hall s rs Hs).
  - destruct (sockets st !! s) as [rs|] eqn:Hs; [|done]. by rewrite (Hall s rs Hs).
  - destruct (sockets st !! s) as [rs|] eqn:Hs; [|done]. by rewrite (Hall s rs Hs).
  - destruct (sockets st !! s) as [rs|] eqn:Hs; [|done]. by rewrite (Hall s rs Hs).
  - destruct (sockets st !! s) as [rs|] eqn:Hs; [|done]. by rewrite (Hall s rs Hs).
  - unfold elapse. by rewrite Htimers.
Qed.

Lemma quiescent_run H (events : list Event) st :
  quiescent st → Forall (λ ev, ev ≠ Mount) events →
  quiescent (run H st events)
  ∧ attempts (run H st events) = attempts st
  ∧ sockets (run H st events) = sockets st
  ∧ isConnected (run H st events) = isConnected st
  ∧ wsData (run H st events) = wsData st.
Proof.
  revert st. induction events as [|ev events IH]; intros st Hq Hall; [done|].
  apply Forall_cons in Hall as [Hev Hall].
  destruct (quiescent_step H st ev Hq Hev) as (Hq' & Ha & Hs & Hc & Hd).
  destruct (IH (step H st ev) Hq' Hall) as (? & Ha' & Hs' & Hc' & Hd').
  unfold run in *. simpl. split_and!; [done | congruence..].
Qed.
End IndicatorFacts.

(** X13.  The connected flag is never true without a socket behind it:
    at every point of every run from the initial state, [isConnected]
    implies that some socket is open, or closing after the unmount. *)
Theorem connected_flag_is_backed (H : App.Host) (events : list App.Event) :
  App.isConnected (App.run H App.initial events) = true →
  ∃ s rs, App.sockets (App.run H App.initial events) !! s = Some rs
          ∧ (rs = App.OPEN ∨ rs = App.CLOSING).
Proof.
  assert (∀ st, Connections.backed st → Connections.backed (App.run H st events))
    as Hgen.
  { induction events as [|ev events IH]; intros st Hb; [done|].
    unfold App.run in *. simpl. apply IH. by apply backed_step. }
  apply (Hgen App.initial). by intros [=].
Qed.

Lemma connected_flag_is_backed_witness :
  ∃ s rs, App.sockets (App.run Sample.host App.initial [App.Mount; App.SocketOpen 0]) !! s
          = Some rs
          ∧ (rs = App.OPEN ∨ rs = App.CLOSING).
Proof.
  apply (connected_flag_is_backed Sample.host [App.Mount; App.SocketOpen 0]).
  reflexivity.
Defined.

(** X14.  A constructor that throws ends the retry cycle for good.  When
    the only live socket closes and [new WebSocket] throws at the retry,
    the error is logged and nothing is scheduled: whatever happens next
    short of a new mount, no further attempt is made and the flag stays
    false. *)
Theorem throwing_constructor_ends_retries
    (H : App.Host) (st : App.State) (s : nat) (rs : App.ReadyState)
    (events : list App.Event) :
  App.sockets st !! s = Some rs → rs ≠ App.CLOSED →
  (∀ s' rs', s' ≠ s → App.sockets st !! s' = Some rs' → rs' = App.CLOSED) →
  App.timers st = [] →
  App.WebSocket_throws H (App.attempts st) = true →
  Forall (λ ev, ev ≠ App.Mount) events →
  let final := App.run H st (App.failed_attempt s ++ events) in
  App.attempts final = S (App.attempts st)
  ∧ App.isConnected final = false
  ∧ App.timers final = []
  ∧ Connections.live final = 0
  ∧ App.console (App.run H st (App.failed_attempt s))
    = App.console st ++ [App.ConsoleLog "WebSocket disconnected";
                          App.ConsoleError "Failed to connect WebSocket:"].
Proof.
  intros Hs Hrs Hothers Htimers Hthrows Hall final.
  assert (App.run H st (App.failed_attempt s)
          = App.report (App.ConsoleError "Failed to connect WebSocket:")
              (App.newWebSocket_failed
                 (App.with_timers [] (App.clock st + 3000)
                    (App.onclose
                       (App.with_sockets (<[s := App.CLOSED]> (App.sockets st)) st)))))
    as Hround.
  { unfold App.run, App.failed_attempt. cbn [foldl].
    rewrite (step_close H st s rs Hs Hrs).
    change (App.step H ?x (App.Elapse 3000)) with (App.elapse H 3000 x).
    rewrite (elapse_due H _ (App.retry_timer (App.clock st)));
      [| rewrite onclose_effect; simpl; by rewrite Htimers
       | rewrite onclose_effect; simpl; lia].
    unfold App.call, App.connectWebSocket. simpl. by rewrite Hthrows. }
  assert (Connections.quiescent (App.run H st (App.failed_attempt s))) as Hq.
  { rewrite Hround. split; [|done]. simpl.
    apply Forall_lookup_2. intros s' rs' Hs'.
    destruct (decide (s' = s)) as [-> | Hne].
    - rewrite list_lookup_insert_eq in Hs' by (by eapply lookup_lt_Some). congruence.
    - rewrite list_lookup_insert_ne in Hs' by done. by eapply Hothers. }
  subst final. rewrite run_app.
  destruct (quiescent_run H events _ Hq Hall) as ([Hclosed Ht] & Ha & Hsock & Hc & _).
  rewrite Ha, Hc, Ht. split_and!.
  - by rewrite Hround.
  - by rewrite Hround.
  - done.
  - by apply live_all_closed.
  - rewrite Hround. simpl. by rewrite <- app_assoc.
Qed.

Lemma throwing_constructor_ends_retries_witness :
  let final := App.run Cases.one_socket_host Cases.connected_once
                 (App.failed_attempt 0
                    ++ [App.Elapse 60000; App.SocketOpen 0; App.Unmount]) in
  App.attempts final = 2
  ∧ App.isConnected final = false
  ∧ App.timers final = []
  ∧ Connections.live final = 0
  ∧ App.console (App.run Cases.one_socket_host Cases.connected_once (App.failed_attempt 0))
    = App.console Cases.connected_once
      ++ [App.ConsoleLog "WebSocket disconnected";
          App.ConsoleError "Failed to connect WebSocket:"].
Proof.
  apply (throwing_constructor_ends_retries Cases.one_socket_host Cases.connected_once
           0 App.OPEN [App.Elapse 60000; App.SocketOpen 0; App.Unmount]).
  - reflexivity.
  - discriminate.
  - intros [|s'] rs' Hne Hs'; [done | discriminate].
  - reflexivity.
  - reflexivity.
  - repeat constructor; discriminate.
Defined.

(** Mounted twice, the manager holds two sockets, and the cleanup closes
    the newer one only. *)
Example second_mount_leaks_a_socket :
  App.sockets (App.run Sample.host App.initial
                 [App.Mount; App.Mount; App.SocketOpen 0; App.SocketOpen 1; App.Unmount])
  = [App.OPEN; App.CLOSING].
Proof. reflexivity. Qed.

(** ** The OpenSaw panel *)

Section StringFacts.

Lemma append_length (a b : string) :
  String.length (a +:+ b) = String.length a + String.length b.
Proof. induction a as [|c a IH]; simpl; [done|]. by rewrite IH. Qed.

(** A common ending can be taken off both sides. *)
Lemma append_cancel_r (a b suffix : string) :
  a +:+ suffix = b +:+ suffix → a = b.
Proof.
  revert b. induction a as [|c a IH]; intros [|d b] Heq; simpl in *.
  - done.
  - apply (f_equal String.length) in Heq.
    rewrite ?append_length in Heq. simpl in Heq. rewrite ?append_length in Heq. lia.
  - apply (f_equal String.length) in Heq.
    rewrite ?append_length in Heq. simpl in Heq. rewrite ?append_length in Heq. lia.
  - injection Heq as -> Heq. f_equal. by apply IH.
Qed.

Lemma append_empty_r (s : string) : s +:+ "" = s.
Proof.
  induction s as [|c s IH]; [done|].
  change (String c (s +:+ "") = String c s). by rewrite IH.
Qed.

Lemma eqb_empty (s : string) : String.eqb s "" = false ↔ s ≠ "".
Proof. rewrite <- not_true_iff_false, String.eqb_eq. done. Qed.
End StringFacts.

(** X15.  The webhook address: with an endpoint filled in it is
    [http://<endpoint>:8000/api/opensaw/webhook], from which the endpoint
    can be read back (two endpoints never give one address); with the
    endpoint empty it is the hint to configure one.  The view shows the
    address only for an enabled integration with an endpoint, so the hint
    is never what it shows. *)
Theorem webhook_url_names_the_endpoint (c1 c2 : OpenSaw.Config) :
  (OpenSaw.endpoint_ip c1 ≠ "" →
   OpenSaw.generateWebhookUrl c1
   = "http://" +:+ OpenSaw.endpoint_ip c1 +:+ ":8000/api/opensaw/webhook"
   ∧ OpenSaw.generateWebhookUrl c1 ≠ "Configure endpoint IP first")
  ∧ (OpenSaw.endpoint_ip c1 = "" →
     OpenSaw.generateWebhookUrl c1 = "Configure endpoint IP first"
     ∧ OpenSaw.shows_webhook c1 = false)
  ∧ (OpenSaw.endpoint_ip c1 ≠ "" → OpenSaw.endpoint_ip c2 ≠ "" →
     OpenSaw.generateWebhookUrl c1 = OpenSaw.generateWebhookUrl c2 →
     OpenSaw.endpoint_ip c1 = OpenSaw.endpoint_ip c2)
  ∧ (OpenSaw.shows_webhook c1 = true →
     OpenSaw.generateWebhookUrl c1 ≠ "Configure endpoint IP first").
Proof.
  assert (∀ c, OpenSaw.endpoint_ip c ≠ "" →
            OpenSaw.generateWebhookUrl c
            = "http://" +:+ OpenSaw.endpoint_ip c +:+ ":8000/api/opensaw/webhook") as Hurl.
  { intros c Hc. unfold OpenSaw.generateWebhookUrl.
    by rewrite (proj2 (eqb_empty _) Hc). }
  split_and!.
  - intros Hc. split; [by apply Hurl|]. by rewrite (Hurl c1 Hc).
  - intros Hc. unfold OpenSaw.generateWebhookUrl, OpenSaw.shows_webhook.
    rewrite Hc. simpl. by rewrite andb_false_r.
  - intros H1 H2. rewrite (Hurl c1 H1), (Hurl c2 H2).
    intros Heq. cbn in Heq. injection Heq as Heq.
    change (OpenSaw.endpoint_ip c1 +:+ ":8000/api/opensaw/webhook"
            = OpenSaw.endpoint_ip c2 +:+ ":8000/api/opensaw/webhook") in Heq.
    by apply append_cancel_r in Heq.
  - unfold OpenSaw.shows_webhook. intros [_ Hip%negb_true_iff]%andb_true_iff.
    apply eqb_empty in Hip. by rewrite (Hurl c1 Hip).
Qed.

(** X16.  [saveConfig] never throws and always ends with [isSaving] false
    and the configuration cell untouched.  The form closes and the status
    is asked for only when the post is answered with an ok status; the
    status cell then takes the answer if it decodes.  A post that rejects
    is logged; one that is answered with an error status leaves no trace
    at all beyond the request. *)
Theorem saveConfig_outcomes
    (api : OpenSaw.Backend) (config : OpenSaw.Config)
    (w : Http.World OpenSaw.Request OpenSaw.State) :
  match OpenSaw.post_config api config with
  | None =>
      OpenSaw.saveConfig api config w
      = (Normal (),
         {| Http.cells := OpenSaw.setIsSaving false (Http.cells w);
            Http.trace := Http.trace w
                          ++ [Http.Fetch (OpenSaw.PostConfig config);
                              Http.ConsoleError "Failed to save config:"] |})
  | Some response =>
      if Http.ok response then
        OpenSaw.saveConfig api config w
        = (Normal (),
           {| Http.cells :=
                OpenSaw.setStatus
                  (default (OpenSaw.status (Http.cells w))
                     (OpenSaw.get_status api ≫= Http.json))
                  (OpenSaw.setIsSaving false
                     (OpenSaw.setIsEditing false (Http.cells w)));
              Http.trace := Http.trace w
                            ++ Http.Fetch (OpenSaw.PostConfig config)
                            :: Http.Fetch OpenSaw.GetStatus
                            :: match OpenSaw.get_status api ≫= Http.json with
                               | Some _ => []
                               | None => [Http.ConsoleError "Failed to fetch OpenSaw status:"]
                               end |})
      else
        OpenSaw.saveConfig api config w
        = (Normal (),
           {| Http.cells := OpenSaw.setIsSaving false (Http.cells w);
              Http.trace := Http.trace w ++ [Http.Fetch (OpenSaw.PostConfig config)] |})
  end.
Proof.
  unfold OpenSaw.saveConfig, OpenSaw.fetchStatus_sent, OpenSaw.fetchStatus_rest,
    Http.bind, Http.try_finally, Http.try_catch, Http.fetch, Http.request, Http.settle,
    Http.response_json, Http.modify, Http.console_error, Http.emit, Http.ret.
  destruct w as [[c s e v t] trace].
  destruct (OpenSaw.post_config api config) as [[[] body]|]; simpl;
    [|done|by rewrite <- !app_assoc].
  destruct (OpenSaw.get_status api) as [[ok [status|]]|]; simpl;
    by rewrite <- !app_assoc.
Qed.

Example saveConfig_refused_is_silent :
  OpenSaw.saveConfig Cases.opensaw_refusing (OpenSaw.config Cases.edited)
    (Cases.panel Cases.edited)
  = (Normal (),
     {| Http.cells := Cases.edited;
        Http.trace := [Http.Fetch (OpenSaw.PostConfig (OpenSaw.config Cases.edited))] |}).
Proof. reflexivity. Qed.

Example saveConfig_accepted :
  OpenSaw.isEditing
    (Http.cells (OpenSaw.saveConfig Cases.opensaw_up (OpenSaw.config Cases.edited)
                   (Cases.panel Cases.edited)).2) = false
  ∧ OpenSaw.connected
      (OpenSaw.status
         (Http.cells (OpenSaw.saveConfig Cases.opensaw_up (OpenSaw.config Cases.edited)
                        (Cases.panel Cases.edited)).2)) = true.
Proof. split; reflexivity. Qed.

Section FormFacts.
Import OpenSaw.
Implicit Types (p : Panel) (ev : Event).






End FormFacts.


(** One save from click to answers is [saveConfig] run through. *)
Lemma save_events_are_saveConfig (api : OpenSaw.Backend) (p : OpenSaw.Panel) :
  OpenSaw.isSaving (Http.cells (OpenSaw.world p)) = false →
  OpenSaw.status_out p = 0 →
  let posted := OpenSaw.config (Http.cells (OpenSaw.world p)) in
  OpenSaw.world
    (OpenSaw.run [OpenSaw.Save; OpenSaw.PostAnswered (OpenSaw.post_config api posted);
                  OpenSaw.StatusAnswered (OpenSaw.get_status api)] p)
  = (OpenSaw.saveConfig api posted (OpenSaw.world p)).2.
Proof.
  intros Hidle Hnone. destruct p as [[cells trace] posts asked]. simpl in Hidle, Hnone.
  subst asked. unfold OpenSaw.run. cbn [foldl]. simpl OpenSaw.step at 3.
  rewrite Hidle.
  unfold OpenSaw.saveConfig, OpenSaw.saveConfig_sent, OpenSaw.step,
    OpenSaw.saveConfig_rest, OpenSaw.fetchStatus_answered, OpenSaw.fetchStatus_sent,
    OpenSaw.fetchStatus_rest, Http.try_finally, Http.try_catch, Http.bind, Http.fetch,
    Http.settle, Http.request, Http.response_json, Http.modify, Http.console_error,
    Http.emit, Http.ret.
  cbn [OpenSaw.world OpenSaw.posts_out OpenSaw.status_out Http.cells Http.trace snd].
  destruct (OpenSaw.post_config api (OpenSaw.config cells)) as [[[] body]|];
    cbn [OpenSaw.world OpenSaw.posts_out OpenSaw.status_out Http.cells Http.trace snd
         Http.ok];
    reflexivity.
Qed.

Example cancel_keeps_the_unsaved_endpoint :
  let st := Http.cells
              (OpenSaw.world
                 (OpenSaw.run [OpenSaw.Configure; OpenSaw.CheckEnabled true;
                               OpenSaw.TypeEndpoint "10.0.0.7"; OpenSaw.Cancel]
                    (OpenSaw.loaded OpenSaw.initial))) in
  OpenSaw.isEditing st = false
  ∧ OpenSaw.shows_webhook (OpenSaw.config st) = true
  ∧ OpenSaw.generateWebhookUrl (OpenSaw.config st)
    = "http://10.0.0.7:8000/api/opensaw/webhook".
Proof. by vm_compute. Qed.

(** Typing and reopening the form while the post is out: the first
    endpoint is the one posted, the second stays in the form, and the ok
    answer closes the form that was reopened. *)
Example save_overtaken_by_typing :
  let after :=
    OpenSaw.run [OpenSaw.Save; OpenSaw.TypeEndpoint "10.0.0.8"; OpenSaw.Save;
                 OpenSaw.Cancel; OpenSaw.Configure;
                 OpenSaw.PostAnswered (Some {| Http.ok := true; Http.json := Some tt |})]
      (OpenSaw.loaded Cases.edited) in
  Http.trace (OpenSaw.world after)
  = [Http.Fetch (OpenSaw.PostConfig (OpenSaw.config Cases.edited));
     Http.Fetch OpenSaw.GetStatus]
  ∧ OpenSaw.endpoint_ip (OpenSaw.config Cases.edited) = "192.168.1.100"
  ∧ OpenSaw.endpoint_ip (OpenSaw.config (Http.cells (OpenSaw.world after))) = "10.0.0.8"
  ∧ OpenSaw.isEditing (Http.cells (OpenSaw.world after)) = false
  ∧ OpenSaw.status_out after = 1.
Proof. by vm_compute. Qed.

(** ** The API key panel *)

Section ApiKeyFacts.
Import ApiKey.

Lemma substring_prefix (n : nat) (s : string) :
  ∃ rest, s = substring 0 n s +:+ rest
          ∧ String.length (substring 0 n s) = Nat.min n (String.length s).
Proof.
  revert s. induction n as [|n IH]; intros [|c s]; simpl.
  - by exists "".
  - by exists (String c s).
  - by exists "".
  - destruct (IH s) as (rest & Hs & Hlen). exists rest.
    split; [|by rewrite Hlen].
    change (String c s = String c (substring 0 n s +:+ rest)). by rewrite <- Hs.
Qed.

Lemma fetchApiKey_settles api (w : Http.World Request State) :
  fetchApiKey api w
  = match get_key api ≫= Http.json with
    | Some data =>
        match Js.get data "api_key" with
        | Normal key =>
            (Normal (),
             {| Http.cells := {| apiKey := key; copied := copied (Http.cells w);
                                 loading := false |};
                Http.trace := Http.trace w ++ [Http.Fetch GetKey] |})
        | Abrupt _ =>
            (Normal (),
             {| Http.cells := setLoading false (Http.cells w);
                Http.trace := Http.trace w
                              ++ [Http.Fetch GetKey;
                                  Http.ConsoleError "Failed to fetch API key:"] |})
        end
    | None =>
        (Normal (),
         {| Http.cells := setLoading false (Http.cells w);
            Http.trace := Http.trace w
                          ++ [Http.Fetch GetKey;
                              Http.ConsoleError "Failed to fetch API key:"] |})
    end.
Proof.
  unfold fetchApiKey, Http.try_finally, Http.try_catch, Http.bind, Http.fetch,
    Http.response_json, read_key, Http.modify, Http.console_error, Http.emit.
  destruct (get_key api) as [response|]; simpl; [|by rewrite <- app_assoc].
  destruct (Http.json response) as [data|]; simpl; [|by rewrite <- app_assoc].
  destruct (Js.get data "api_key"); simpl; [done | by rewrite <- app_assoc].
Qed.

Lemma regenerateKey_settles api (w : Http.World Request State) :
  regenerateKey api w
  = match regenerate_key api ≫= Http.json with
    | Some data =>
        match Js.get data "api_key" with
        | Normal key =>
            (Normal (),
             {| Http.cells := {| apiKey := key; copied := copied (Http.cells w);
                                 loading := false |};
                Http.trace := Http.trace w ++ [Http.Fetch RegenerateKey] |})
        | Abrupt _ =>
            (Normal (),
             {| Http.cells := setLoading false (Http.cells w);
                Http.trace := Http.trace w
                              ++ [Http.Fetch RegenerateKey;
                                  Http.ConsoleError "Failed to regenerate key:"] |})
        end
    | None =>
        (Normal (),
         {| Http.cells := setLoading false (Http.cells w);
            Http.trace := Http.trace w
                          ++ [Http.Fetch RegenerateKey;
                              Http.ConsoleError "Failed to regenerate key:"] |})
    end.
Proof.
  unfold regenerateKey, Http.try_finally, Http.try_catch, Http.bind, Http.fetch,
    Http.response_json, read_key, Http.modify, Http.console_error, Http.emit.
  destruct (regenerate_key api) as [response|]; simpl; [|by rewrite <- app_assoc].
  destruct (Http.json response) as [data|]; simpl; [|by rewrite <- app_assoc].
  destruct (Js.get data "api_key"); simpl; [done | by rewrite <- app_assoc].
Qed.
End ApiKeyFacts.

(** X18.  Both key requests end alike: they never throw, [loading] is
    false afterwards whatever it was and however the request went, and
    [copied] is as before.  The key cell changes only when the request is
    answered with a body that decodes and has an [api_key] to read,
    whatever the status; a rejected request, an undecodable body and a
    [null] body each leave the key as it was and log once. *)
Theorem key_requests_settle
    (api : ApiKey.Backend) (regenerate : bool)
    (w : Http.World ApiKey.Request ApiKey.State) :
  let request := if regenerate then ApiKey.RegenerateKey else ApiKey.GetKey in
  let answer := if regenerate then ApiKey.regenerate_key api else ApiKey.get_key api in
  let failure := if regenerate then "Failed to regenerate key:"
                 else "Failed to fetch API key:" in
  let result := if regenerate then ApiKey.regenerateKey api w
                else ApiKey.fetchApiKey api w in
  result.1 = Normal ()
  ∧ ApiKey.loading (Http.cells result.2) = false
  ∧ ApiKey.copied (Http.cells result.2) = ApiKey.copied (Http.cells w)
  ∧ (ApiKey.apiKey (Http.cells result.2) ≠ ApiKey.apiKey (Http.cells w) →
     ∃ response data,
       answer = Some response ∧ Http.json response = Some data
       ∧ Js.get data "api_key" = Normal (ApiKey.apiKey (Http.cells result.2))
       ∧ Http.trace result.2 = Http.trace w ++ [Http.Fetch request])
  ∧ (answer = None
     ∨ (∃ response, answer = Some response
                    ∧ (Http.json response = None ∨ Http.json response = Some Js.Null)) →
     result
     = (Normal (),
        {| Http.cells := ApiKey.setLoading false (Http.cells w);
           Http.trace := Http.trace w
                         ++ [Http.Fetch request; Http.ConsoleError failure] |})).
Proof.
  cbv zeta.
  assert (∀ request answer failure result,
            result
            = match answer ≫= Http.json with
              | Some data =>
                  match Js.get data "api_key" with
                  | Normal key =>
                      (Normal (),
                       {| Http.cells := {| ApiKey.apiKey := key;
                                           ApiKey.copied := ApiKey.copied (Http.cells w);
                                           ApiKey.loading := false |};
                          Http.trace := Http.trace w ++ [Http.Fetch request] |})
                  | Abrupt _ =>
                      (Normal (),
                       {| Http.cells := ApiKey.setLoading false (Http.cells w);
                          Http.trace := Http.trace w
                                        ++ [Http.Fetch request;
                                            Http.ConsoleError failure] |})
                  end
              | None =>
                  (Normal (),
                   {| Http.cells := ApiKey.setLoading false (Http.cells w);
                      Http.trace := Http.trace w
                                    ++ [Http.Fetch request; Http.ConsoleError failure] |})
              end →
            result.1 = Normal ()
            ∧ ApiKey.loading (Http.cells result.2) = false
            ∧ ApiKey.copied (Http.cells result.2) = ApiKey.copied (Http.cells w)
            ∧ (ApiKey.apiKey (Http.cells result.2) ≠ ApiKey.apiKey (Http.cells w) →
               ∃ response data,
                 answer = Some response ∧ Http.json response = Some data
                 ∧ Js.get data "api_key" = Normal (ApiKey.apiKey (Http.cells result.2))
                 ∧ Http.trace result.2 = Http.trace w ++ [Http.Fetch request])
            ∧ (answer = None
               ∨ (∃ response, answer = Some response
                              ∧ (Http.json response = None
                                 ∨ Http.json response = Some Js.Null)) →
               result
               = (Normal (),
                  {| Http.cells := ApiKey.setLoading false (Http.cells w);
                     Http.trace := Http.trace w
                                   ++ [Http.Fetch request; Http.ConsoleError failure] |})))
    as Hcases.
  { intros request answer failure result ->.
    destruct answer as [response|]; simpl.
    - destruct (Http.json response) as [data|] eqn:Hjson; simpl.
      + destruct (Js.get data "api_key") as [key|] eqn:Hkey; simpl.
        * split_and!; try done.
          -- intros _. by exists response, data.
          -- intros [[=] | (response' & [= <-] & [Hnone | Hnull])]; [congruence|].
             rewrite Hjson in Hnull. injection Hnull as ->. done.
        * split_and!; try done.
      + split_and!; try done.
    - split_and!; try done. }
  destruct regenerate.
  - apply Hcases, regenerateKey_settles.
  - apply Hcases, fetchApiKey_settles.
Qed.

(** X19.  An answer whose body decodes to an object without [api_key],
    as an error body does, is taken for a key all the same: the cell then
    holds [undefined], nothing is logged, and the preview of the key in
    the panel throws at the next render. *)
Theorem error_body_breaks_the_panel
    (api : ApiKey.Backend) (w : Http.World ApiKey.Request ApiKey.State)
    (response : Http.Response Js.Value) (fields : gmap string Js.Value) :
  ApiKey.get_key api = Some response →
  Http.json response = Some (Js.Obj fields) →
  fields !! "api_key" = None →
  ApiKey.fetchApiKey api w
  = (Normal (),
     {| Http.cells := {| ApiKey.apiKey := Js.Undefined;
                         ApiKey.copied := ApiKey.copied (Http.cells w);
                         ApiKey.loading := false |};
        Http.trace := Http.trace w ++ [Http.Fetch ApiKey.GetKey] |})
  ∧ ApiKey.header_preview (Http.cells (ApiKey.fetchApiKey api w).2)
    = Abrupt "TypeError: Cannot read properties of undefined".
Proof.
  intros Hanswer Hjson Hmissing.
  rewrite fetchApiKey_settles, Hanswer. simpl. rewrite Hjson. simpl.
  by rewrite Hmissing.
Qed.

Lemma error_body_breaks_the_panel_witness :
  ApiKey.fetchApiKey
    {| ApiKey.get_key := Some Cases.key_error; ApiKey.regenerate_key := None |}
    Cases.key_panel
  = (Normal (),
     {| Http.cells := {| ApiKey.apiKey := Js.Undefined; ApiKey.copied := false;
                         ApiKey.loading := false |};
        Http.trace := [Http.Fetch ApiKey.GetKey] |})
  ∧ ApiKey.header_preview
      (Http.cells
         (ApiKey.fetchApiKey
            {| ApiKey.get_key := Some Cases.key_error; ApiKey.regenerate_key := None |}
            Cases.key_panel).2)
    = Abrupt "TypeError: Cannot read properties of undefined".
Proof.
  apply (error_body_breaks_the_panel
           {| ApiKey.get_key := Some Cases.key_error; ApiKey.regenerate_key := None |}
           Cases.key_panel Cases.key_error
           (list_to_map [("detail", Js.Str "Internal Server Error")]));
    reflexivity.
Defined.

(** X20.  The check mark goes two seconds after the first click, not the
    last: a second copy within the two seconds sets a second timeout but
    does not cancel the first, which clears [copied] while the second is
    still pending.  Each click writes the stored key to the clipboard. *)
Theorem second_copy_does_not_extend (ui : ApiKey.Ui) (wait : N) :
  ApiKey.timers ui = [] → (0 < Z.of_N wait < 2000)%Z →
  ∃ first second,
    ApiKey.copyToClipboard true ui = Normal first
    ∧ ApiKey.copyToClipboard true (ApiKey.elapse wait first) = Normal second
    ∧ ApiKey.copied (ApiKey.cells second) = true
    ∧ ApiKey.clipboard second
      = ApiKey.clipboard ui ++ [ApiKey.apiKey (ApiKey.cells ui);
                                ApiKey.apiKey (ApiKey.cells ui)]
    ∧ ApiKey.copied (ApiKey.cells (ApiKey.elapse (2000 - wait) second)) = false
    ∧ ApiKey.timers (ApiKey.elapse (2000 - wait) second)
      = [(ApiKey.clock ui + Z.of_N wait + 2000)%Z]
    ∧ ApiKey.clock (ApiKey.elapse (2000 - wait) second) = (ApiKey.clock ui + 2000)%Z.
Proof.
  intros Htimers Hwait. eexists _, _. split; [reflexivity|].
  assert (ApiKey.elapse wait
            {| ApiKey.cells := ApiKey.setCopied true (ApiKey.cells ui);
               ApiKey.timers := ApiKey.timers ui ++ [(ApiKey.clock ui + 2000)%Z];
               ApiKey.clock := ApiKey.clock ui;
               ApiKey.clipboard := ApiKey.clipboard ui
                                   ++ [ApiKey.apiKey (ApiKey.cells ui)] |}
          = {| ApiKey.cells := ApiKey.setCopied true (ApiKey.cells ui);
               ApiKey.timers := [(ApiKey.clock ui + 2000)%Z];
               ApiKey.clock := (ApiKey.clock ui + Z.of_N wait)%Z;
               ApiKey.clipboard := ApiKey.clipboard ui
                                   ++ [ApiKey.apiKey (ApiKey.cells ui)] |}) as Hfirst.
  { unfold ApiKey.elapse. simpl. rewrite Htimers. simpl.
    rewrite !filter_cons, !filter_nil.
    rewrite decide_False, decide_True by lia. done. }
  rewrite Hfirst. split; [reflexivity|].
  unfold ApiKey.elapse. simpl.
  rewrite !filter_cons, !filter_nil.
  rewrite (decide_True (P := (ApiKey.clock ui + 2000 ≤ _)%Z)) by lia.
  rewrite (decide_False (P := (ApiKey.clock ui + Z.of_N wait + 2000 ≤ _)%Z)) by lia.
  rewrite (decide_False (P := ¬ (ApiKey.clock ui + 2000 ≤ _)%Z)) by lia.
  rewrite (decide_True (P := ¬ (ApiKey.clock ui + Z.of_N wait + 2000 ≤ _)%Z)) by lia.
  simpl. split_and!; try done.
  - by rewrite <- app_assoc.
  - lia.
Qed.

Lemma second_copy_does_not_extend_witness :
  ∃ first second,
    ApiKey.copyToClipboard true Cases.key_ui = Normal first
    ∧ ApiKey.copyToClipboard true (ApiKey.elapse 1500 first) = Normal second
    ∧ ApiKey.copied (ApiKey.cells second) = true
    ∧ ApiKey.clipboard second
      = ApiKey.clipboard Cases.key_ui
        ++ [ApiKey.apiKey (ApiKey.cells Cases.key_ui);
            ApiKey.apiKey (ApiKey.cells Cases.key_ui)]
    ∧ ApiKey.copied (ApiKey.cells (ApiKey.elapse (2000 - 1500) second)) = false
    ∧ ApiKey.timers (ApiKey.elapse (2000 - 1500) second)
      = [(ApiKey.clock Cases.key_ui + Z.of_N 1500 + 2000)%Z]
    ∧ ApiKey.clock (ApiKey.elapse (2000 - 1500) second)
      = (ApiKey.clock Cases.key_ui + 2000)%Z.
Proof.
  apply (second_copy_does_not_extend Cases.key_ui 1500); [reflexivity | lia].
Defined.

(** X21.  The preview of a key that is a string is a beginning of it, of
    at most twenty characters: the whole key when it has no more. *)
Theorem header_preview_is_a_prefix (st : ApiKey.State) (key : string) :
  ApiKey.apiKey st = Js.Str key →
  ∃ preview rest,
    ApiKey.header_preview st = Normal (Js.Str preview)
    ∧ key = preview +:+ rest
    ∧ String.length preview = Nat.min 20 (String.length key)
    ∧ (String.length key ≤ 20 → preview = key).
Proof.
  intros Hkey. unfold ApiKey.header_preview. rewrite Hkey.
  destruct (substring_prefix 20 key) as (rest & Hsplit & Hlen).
  exists (substring 0 20 key), rest. split_and!; try done.
  intros Hshort.
  assert (String.length rest = 0) as Hrest.
  { apply (f_equal String.length) in Hsplit. rewrite append_length, Hlen in Hsplit. lia. }
  destruct rest; [|done]. by rewrite append_empty_r in Hsplit.
Qed.

Lemma header_preview_is_a_prefix_witness :
  ∃ preview rest,
    ApiKey.header_preview (ApiKey.cells Cases.key_ui) = Normal (Js.Str preview)
    ∧ "ad_live_0123456789abcdef0123456789" = preview +:+ rest
    ∧ String.length preview = Nat.min 20 (String.length "ad_live_0123456789abcdef0123456789")
    ∧ (String.length "ad_live_0123456789abcdef0123456789" ≤ 20
       → preview = "ad_live_0123456789abcdef0123456789").
Proof.
  apply (header_preview_is_a_prefix (ApiKey.cells Cases.key_ui)). reflexivity.
Defined.

(** ** The earlier App *)

Section LegacyFacts.
Import Legacy.

Lemma map_completion_Normal (f : Js.Value → Completion Js.Value) (l l' : list Js.Value) :
  map_completion f l = Normal l' →
  length l' = length l
  ∧ ∀ (i : nat) t, l !! i = Some t → ∃ t', f t = Normal t' ∧ l' !! i = Some t'.
Proof.
  revert l'. induction l as [|t l IH]; intros l'; simpl.
  - intros [= <-]. split; [done|]. by intros i t.
  - destruct (f t) as [t'|] eqn:Hft; simpl; [|done].
    destruct (map_completion f l) as [rest|]; simpl; [|done].
    intros [= <-]. destruct (IH rest eq_refl) as [Hlen Hall]. split; [simpl; lia|].
    intros [|i] t0; simpl; [intros [= <-]; eauto | apply Hall].
Qed.

Lemma map_completion_id (f : Js.Value → Completion Js.Value) (l : list Js.Value) :
  (∀ t, t ∈ l → f t = Normal t) → map_completion f l = Normal l.
Proof.
  induction l as [|t l IH]; intros Hid; simpl; [done|].
  rewrite (Hid t) by (by left). simpl.
  rewrite IH by (intros t0 Ht0; apply Hid; by right). done.
Qed.

Lemma handle_length message st st' :
  handleWebSocketMessage message st = Normal st' →
  length (tasks st') = length (tasks st) + (if adds_task message then 1 else 0).
Proof.
  unfold handleWebSocketMessage, adds_task.
  destruct (Js.get message "type") as [type|]; cbn [mbind Completion_bind]; [|done].
  destruct (Js.is_string type "metrics_update") eqn:Hm.
  - destruct type; simpl in Hm; try done. apply bool_decide_eq_true in Hm as ->.
    destruct (Js.get message "data"); simpl; [|done]. intros [= <-]. simpl. lia.
  - destruct (Js.is_string type "task_created" || Js.is_string type "finding_discovered")
      eqn:Hadd.
    + destruct (Js.get message "data"); cbn [mbind Completion_bind]; [|done].
      intros [= <-]. simpl. rewrite length_app. simpl. lia.
    + destruct (Js.is_string type "task_completed").
      * destruct (map_completion _ (tasks st)) as [tasks'|] eqn:Hmap;
          cbn [mbind Completion_bind]; [|done].
        intros [= <-]. simpl. apply map_completion_Normal in Hmap as [-> _]. lia.
      * intros [= <-]. lia.
Qed.
End LegacyFacts.

(** X22.  A [task_completed] message patches the list in place: every
    task whose [id] is strictly equal to the payload's is replaced by the
    payload and every other task stays, at the same positions.  When no
    task has that id the list is unchanged: the completed task is not
    added. *)
Theorem task_completed_patches_in_place (message : Js.Value) (st st' : Legacy.State) :
  Js.get message "type" = Normal (Js.Str "task_completed") →
  Legacy.handleWebSocketMessage message st = Normal st' →
  Legacy.metrics st' = Legacy.metrics st
  ∧ length (Legacy.tasks st') = length (Legacy.tasks st)
  ∧ (∀ (i : nat) t,
       Legacy.tasks st !! i = Some t →
       ∃ id data completed_id,
         Js.get t "id" = Normal id
         ∧ Js.get message "data" = Normal data
         ∧ Js.get data "id" = Normal completed_id
         ∧ Legacy.tasks st' !! i
           = Some (if Legacy.strict_eq id completed_id then data else t))
  ∧ ((∀ t id data completed_id,
        t ∈ Legacy.tasks st → Js.get t "id" = Normal id →
        Js.get message "data" = Normal data → Js.get data "id" = Normal completed_id →
        Legacy.strict_eq id completed_id = false) →
     Legacy.tasks st' = Legacy.tasks st).
Proof.
  intros Htype. unfold Legacy.handleWebSocketMessage. rewrite Htype.
  cbn [mbind Completion_bind].
  change (Js.is_string (Js.Str "task_completed") "metrics_update") with false.
  change (Js.is_string (Js.Str "task_completed") "task_created") with false.
  change (Js.is_string (Js.Str "task_completed") "finding_discovered") with false.
  change (Js.is_string (Js.Str "task_completed") "task_completed") with true.
  cbn [orb].
  destruct (Legacy.map_completion _ (Legacy.tasks st)) as [tasks'|] eqn:Hmap;
    cbn [mbind Completion_bind]; [|done].
  intros [= <-]. simpl.
  pose proof (map_completion_Normal _ _ _ Hmap) as [Hlen Hall].
  split_and!; [done | done | |].
  - intros i t Hi. destruct (Hall i t Hi) as (t' & Hft & Hi').
    unfold Legacy.replace_completed in Hft.
    destruct (Js.get t "id") as [id|] eqn:Hid;
      cbn [mbind Completion_bind] in Hft; [|done].
    destruct (Js.get message "data") as [data|] eqn:Hdata;
      cbn [mbind Completion_bind] in Hft; [|done].
    destruct (Js.get data "id") as [completed_id|] eqn:Hcid;
      cbn [mbind Completion_bind] in Hft; [|done].
    exists id, data, completed_id. split_and!; [done..|].
    rewrite Hi'. f_equal.
    destruct (Legacy.strict_eq id completed_id); by injection Hft as <-.
  - intros Hnone.
    assert (Legacy.map_completion (Legacy.replace_completed message) (Legacy.tasks st)
            = Normal (Legacy.tasks st)) as Hsame; [|congruence].
    apply map_completion_id. intros t Ht.
    apply list_elem_of_lookup in Ht as [i Hi].
    destruct (Hall i t Hi) as (t' & Hft & _).
    unfold Legacy.replace_completed in *.
    destruct (Js.get t "id") as [id|] eqn:Hid; cbn [mbind Completion_bind] in *; [|done].
    destruct (Js.get message "data") as [data|] eqn:Hdata;
      cbn [mbind Completion_bind] in *; [|done].
    destruct (Js.get data "id") as [completed_id|] eqn:Hcid;
      cbn [mbind Completion_bind] in *; [|done].
    rewrite (Hnone t id data completed_id) by
      (try done; apply list_elem_of_lookup; eauto).
    done.
Qed.

Lemma task_completed_patches_in_place_witness :
  let message := Cases.legacy_message "task_completed" 2 "completed" in
  let st' := Legacy.setTasks
               [Cases.legacy_task 1 "backlog"; Cases.legacy_task 2 "completed"]
               Cases.legacy in
  Legacy.metrics st' = Legacy.metrics Cases.legacy
  ∧ length (Legacy.tasks st') = length (Legacy.tasks Cases.legacy)
  ∧ (∀ (i : nat) t,
       Legacy.tasks Cases.legacy !! i = Some t →
       ∃ id data completed_id,
         Js.get t "id" = Normal id
         ∧ Js.get message "data" = Normal data
         ∧ Js.get data "id" = Normal completed_id
         ∧ Legacy.tasks st' !! i
           = Some (if Legacy.strict_eq id completed_id then data else t))
  ∧ ((∀ t id data completed_id,
        t ∈ Legacy.tasks Cases.legacy → Js.get t "id" = Normal id →
        Js.get message "data" = Normal data → Js.get data "id" = Normal completed_id →
        Legacy.strict_eq id completed_id = false) →
     Legacy.tasks st' = Legacy.tasks Cases.legacy).
Proof.
  apply (task_completed_patches_in_place
           (Cases.legacy_message "task_completed" 2 "completed") Cases.legacy
           (Legacy.setTasks
              [Cases.legacy_task 1 "backlog"; Cases.legacy_task 2 "completed"]
              Cases.legacy)); reflexivity.
Defined.

Example unknown_completion_is_dropped :
  Legacy.handleWebSocketMessage (Cases.legacy_message "task_completed" 7 "completed")
    Cases.legacy
  = Normal Cases.legacy.
Proof. reflexivity. Qed.

(** X23.  The earlier App never removes a task: over any stream of
    messages it handles, the list has grown by exactly the number of
    [task_created] and [finding_discovered] messages, each appended at the
    end without looking for a task of the same id.  [task_deleted] and
    [task_updated] change nothing. *)
Theorem legacy_tasks_only_grow (messages : list Js.Value) (st st' : Legacy.State) :
  Legacy.run messages st = Normal st' →
  length (Legacy.tasks st')
  = length (Legacy.tasks st) + length (filter (λ m, Legacy.adds_task m = true) messages)
  ∧ (∀ message data,
       Legacy.adds_task message = true → Js.get message "data" = Normal data →
       Legacy.handleWebSocketMessage message st
       = Normal (Legacy.setTasks (Legacy.tasks st ++ [data]) st))
  ∧ (∀ message type,
       Js.get message "type" = Normal type →
       Js.is_string type "task_deleted" = true ∨ Js.is_string type "task_updated" = true →
       Legacy.handleWebSocketMessage message st = Normal st).
Proof.
  intros Hrun. split_and!.
  - revert st Hrun. induction messages as [|m messages IH]; intros st; simpl.
    + intros [= <-]. lia.
    + destruct (Legacy.handleWebSocketMessage m st) as [st1|] eqn:Hm;
        cbn [mbind Completion_bind]; [|done].
      intros Hrest. rewrite (IH st1 Hrest), (handle_length m st st1 Hm).
      rewrite filter_cons. destruct (Legacy.adds_task m); simpl; lia.
  - intros message data. unfold Legacy.adds_task, Legacy.handleWebSocketMessage.
    destruct (Js.get message "type") as [type|]; [|done].
    cbn [mbind Completion_bind]. intros Hadd Hdata.
    destruct type; simpl in Hadd; try done.
    simpl. apply orb_true_iff in Hadd as [->%bool_decide_eq_true | ->%bool_decide_eq_true];
      simpl; by rewrite Hdata.
  - intros message type Htype Hkind. unfold Legacy.handleWebSocketMessage.
    rewrite Htype. cbn [mbind Completion_bind].
    destruct type; simpl in Hkind; try (by destruct Hkind).
    destruct Hkind as [->%bool_decide_eq_true | ->%bool_decide_eq_true]; reflexivity.
Qed.

Lemma legacy_tasks_only_grow_witness :
  length
    (Legacy.tasks
       (Legacy.setTasks
          [Cases.legacy_task 1 "backlog"; Cases.legacy_task 2 "in_progress";
           Cases.legacy_task 2 "backlog"] Cases.legacy))
  = length (Legacy.tasks Cases.legacy)
    + length (filter (λ m, Legacy.adds_task m = true)
                [Cases.legacy_message "task_deleted" 1 "backlog";
                 Cases.legacy_message "task_created" 2 "backlog"]).
Proof.
  apply (legacy_tasks_only_grow
           [Cases.legacy_message "task_deleted" 1 "backlog";
            Cases.legacy_message "task_created" 2 "backlog"] Cases.legacy).
  reflexivity.
Defined.

(** ** Loading *)

(** X24.  The two lists load as a whole or not at all.  [fetchActivities]
    and [fetchDeliverables] store the array of the answer as it is, of any
    length and whatever the status, in place of what was there; a request
    that rejects or a body that does not decode changes nothing and is
    logged.  On first load a failure therefore shows the same empty list
    as an empty answer. *)
Theorem lists_load_as_a_whole
    (answer : option (Http.Response (list Js.Value)))
    (feed : Http.World Feed.Request (list Js.Value))
    (shelf : Http.World Deliverables.Request (list Js.Value)) :
  (∀ response data,
     answer = Some response → Http.json response = Some data →
     Feed.fetchActivities answer feed
     = (Normal (),
        {| Http.cells := data;
           Http.trace := Http.trace feed ++ [Http.Fetch Feed.GetActivities] |})
     ∧ Deliverables.fetchDeliverables answer shelf
       = (Normal (),
          {| Http.cells := data;
             Http.trace := Http.trace shelf ++ [Http.Fetch Deliverables.GetDeliverables] |}))
  ∧ (answer ≫= Http.json = None →
     Feed.fetchActivities answer feed
     = (Normal (),
        {| Http.cells := Http.cells feed;
           Http.trace := Http.trace feed
                         ++ [Http.Fetch Feed.GetActivities;
                             Http.ConsoleError "Failed to fetch activities:"] |})
     ∧ Deliverables.fetchDeliverables answer shelf
       = (Normal (),
          {| Http.cells := Http.cells shelf;
             Http.trace := Http.trace shelf
                           ++ [Http.Fetch Deliverables.GetDeliverables;
                               Http.ConsoleError "Failed to fetch deliverables:"] |}))
  ∧ (answer ≫= Http.json = None → Http.cells shelf = [] →
     Http.cells (Deliverables.fetchDeliverables answer shelf).2
     = Http.cells
         (Deliverables.fetchDeliverables
            (Some {| Http.ok := true; Http.json := Some [] |}) shelf).2).
Proof.
  unfold Feed.fetchActivities, Deliverables.fetchDeliverables, Http.try_catch, Http.bind,
    Http.fetch, Http.response_json, Http.modify, Http.console_error, Http.emit.
  split_and!.
  - intros response data -> Hjson. by rewrite Hjson.
  - destruct answer as [response|]; simpl; [|by rewrite <- !app_assoc].
    intros ->. simpl. by rewrite <- !app_assoc.
  - destruct answer as [response|]; simpl; [|done].
    intros ->. done.
Qed.

Example oversized_answer_is_stored :
  length (Http.cells (Feed.fetchActivities (Some Cases.long_answer) Cases.empty_feed).2)
  = 40.
Proof. reflexivity. Qed.

(** X25.  The two requests of the OpenSaw panel's mount effect do not
    race: both are sent before either answer is handled, and whichever
    answer arrives first, each cell takes its own answer when it decodes
    and keeps its value otherwise, and the form's flags are not touched.
    Only the order of the two possible log lines follows the arrival. *)
Theorem mount_loads_independently
    (api : OpenSaw.Backend) (config_first : bool)
    (w : Http.World OpenSaw.Request OpenSaw.State) :
  let log_config :=
    match OpenSaw.get_config api ≫= Http.json with
    | Some _ => []
    | None => [Http.ConsoleError "Failed to fetch OpenSaw config:"]
    end in
  let log_status :=
    match OpenSaw.get_status api ≫= Http.json with
    | Some _ => []
    | None => [Http.ConsoleError "Failed to fetch OpenSaw status:"]
    end in
  OpenSaw.mount api config_first w
  = (Normal (),
     {| Http.cells :=
          {| OpenSaw.config :=
               default (OpenSaw.config (Http.cells w))
                 (OpenSaw.get_config api ≫= Http.json);
             OpenSaw.status :=
               default (OpenSaw.status (Http.cells w))
                 (OpenSaw.get_status api ≫= Http.json);
             OpenSaw.isEditing := OpenSaw.isEditing (Http.cells w);
             OpenSaw.isSaving := OpenSaw.isSaving (Http.cells w);
             OpenSaw.showToken := OpenSaw.showToken (Http.cells w) |};
        Http.trace := Http.trace w
                      ++ [Http.Fetch OpenSaw.GetConfig; Http.Fetch OpenSaw.GetStatus]
                      ++ (if config_first then log_config ++ log_status
                          else log_status ++ log_config) |})
  ∧ Http.cells (OpenSaw.mount api config_first w).2
    = Http.cells (OpenSaw.mount api (negb config_first) w).2.
Proof.
  unfold OpenSaw.mount, OpenSaw.fetchConfig_sent, OpenSaw.fetchConfig_rest,
    OpenSaw.fetchStatus_sent, OpenSaw.fetchStatus_rest, Http.try_catch,
    Http.bind, Http.request, Http.settle, Http.response_json, Http.modify,
    Http.console_error, Http.emit.
  destruct w as [[config status isEditing isSaving showToken] trace].
  destruct config_first,
    (OpenSaw.get_config api) as [[ok1 [c|]]|],
    (OpenSaw.get_status api) as [[ok2 [s|]]|]; simpl;
    rewrite <- ?app_assoc; split; reflexivity.
Qed.

(** Called on its own, as by the interval, each of the two functions is
    its request followed by the rest. *)
Lemma fetch_sent_rest (api : OpenSaw.Backend) (w : Http.World OpenSaw.Request OpenSaw.State) :
  OpenSaw.fetchConfig api w
  = Http.bind OpenSaw.fetchConfig_sent (λ _, OpenSaw.fetchConfig_rest api) w
  ∧ OpenSaw.fetchStatus api w
    = Http.bind OpenSaw.fetchStatus_sent (λ _, OpenSaw.fetchStatus_rest api) w.
Proof.
  unfold OpenSaw.fetchConfig, OpenSaw.fetchStatus, OpenSaw.fetchConfig_sent,
    OpenSaw.fetchConfig_rest, OpenSaw.fetchStatus_sent, OpenSaw.fetchStatus_rest,
    Http.try_catch, Http.bind, Http.fetch, Http.request, Http.settle.
  destruct (OpenSaw.get_config api), (OpenSaw.get_status api); split; reflexivity.
Qed.

Example panel_without_backend :
  OpenSaw.mount Cases.opensaw_down true (Cases.panel OpenSaw.initial)
  = (Normal (),
     {| Http.cells := OpenSaw.initial;
        Http.trace := [Http.Fetch OpenSaw.GetConfig;
                       Http.Fetch OpenSaw.GetStatus;
                       Http.ConsoleError "Failed to fetch OpenSaw config:";
                       Http.ConsoleError "Failed to fetch OpenSaw status:"] |}).
Proof. reflexivity. Qed.

(** While the first request is out the input reads "Loading...", and a
    copy writes the empty key that is stored. *)
Example copy_while_loading :
  ApiKey.shown_value ApiKey.initial = Js.Str "Loading..."
  ∧ ApiKey.copyToClipboard true
      {| ApiKey.cells := ApiKey.initial; ApiKey.timers := []; ApiKey.clock := 0;
         ApiKey.clipboard := [] |}
    ≫= (λ ui, mret (ApiKey.clipboard ui))
    = Normal [Js.Str ""].
Proof. split; reflexivity. Qed.

(** In the earlier App a text that does not parse throws out of the
    message handler, and a close only clears the flag. *)
Example legacy_handlers :
  Legacy.onmessage Sample.JSON_parse Scenario.malformed_text Cases.legacy
  = Abrupt "SyntaxError: Unexpected token"
  ∧ Legacy.isConnected (Legacy.onclose (Legacy.onopen Cases.legacy)) = false.
Proof. split; reflexivity. Qed.
